(** * mapchete: task model, tile-task runtime, dependency wiring and job lifecycle

    A shallow embedding of
      - [mapchete/processing/tasks.py]  (Task, TaskBatch, TileTask,
        TileTaskBatch, to_dask_collection),
      - [mapchete/commands/_execute.py] (the [execute] command and its
        retry / cancel loop),
      - [mapchete/enums.py]             (ProcessingMode, Status).

    Python exceptions are values of [Exn] carried by [result]; code that
    also has observable effects (reading the output store, calling the
    user process, attaching preprocessing results) runs in the logging
    monad [M].  Python dictionaries keep insertion order, so they are
    association lists with unique keys ([dict_set], [dict_get]).
    Collaborators that live outside these files (tile arithmetic, raster
    resampling, shapely, the spatial index) are the fields of the
    interface [World] over the types [Types]; the embedded code is
    parametric in both.  The definitions come first, the properties
    after them. *)

From stdpp Require Import prelude strings pretty.
From Stdlib Require Import ZArith Lia Ascii.

Open Scope Z_scope.
#[local] Set Warnings "-clear-no-such-hyp,-register-all".

(** ** Exceptions and results *)

Inductive Exn :=
| ValueError
| TypeError
| KeyError
| AttributeError
| MapcheteNodataTile
| MapcheteProcessOutputError
| JobCancelledError
| KeyboardInterrupt
| OtherError (name : string).

#[global] Instance Exn_eq_dec : EqDecision Exn.
Proof. solve_decision. Defined.

Inductive result (A : Type) :=
| Ok (a : A)
| Raise (e : Exn).
Arguments Ok {A} a.
Arguments Raise {A} e.

#[global] Instance result_ret : MRet result := fun A a => Ok a.
#[global] Instance result_bind : MBind result :=
  fun A B f m => match m with Ok a => f a | Raise e => Raise e end.
#[global] Instance result_fmap : FMap result :=
  fun A B f m => match m with Ok a => Ok (f a) | Raise e => Raise e end.

Definition is_ok {A} (r : result A) : bool :=
  match r with Ok _ => true | Raise _ => false end.

(** [for x in xs: f x] where [f] may raise: the first exception stops
    the loop. *)
Fixpoint result_mapM {A B} (f : A → result B) (xs : list A) : result (list B) :=
  match xs with
  | [] => Ok []
  | x :: xs' => y ← f x; ys ← result_mapM f xs'; mret (y :: ys)
  end.

(** ** Insertion-ordered dictionaries *)

Section dict.
Context {K V : Type} `{EqDecision K}.

Fixpoint dict_get (k : K) (d : list (K * V)) : option V :=
  match d with
  | [] => None
  | (k', v) :: d' => if decide (k = k') then Some v else dict_get k d'
  end.

(** [d[k] = v]: an existing key keeps its position, a new key is
    appended. *)
Fixpoint dict_set (k : K) (v : V) (d : list (K * V)) : list (K * V) :=
  match d with
  | [] => [(k, v)]
  | (k', v') :: d' =>
      if decide (k = k') then (k', v) :: d' else (k', v') :: dict_set k v d'
  end.

Definition dict_keys (d : list (K * V)) : list K := d.*1.
Definition dict_values (d : list (K * V)) : list V := d.*2.
Definition dict_contains (k : K) (d : list (K * V)) : bool :=
  bool_decide (is_Some (dict_get k d)).

(** [{k: v for (k, v) in kvs}], built left to right on top of [d]. *)
Definition dict_update (d : list (K * V)) (kvs : list (K * V)) : list (K * V) :=
  foldl (fun acc kv => dict_set kv.1 kv.2 acc) d kvs.
Definition dict_of_list (kvs : list (K * V)) : list (K * V) := dict_update [] kvs.

End dict.

(** Python truthiness of the values the constructors test with [or] /
    [and] / [if]. *)
Definition truthy_str (s : option string) : bool :=
  match s with Some (String _ _) => true | _ => false end.
Definition truthy_list {A} (l : option (list A)) : bool :=
  match l with Some (_ :: _) => true | _ => false end.

(** [a or b] on optional strings. *)
Definition str_or (a : option string) (b : string) : string :=
  match a with Some (String c s) => String c s | _ => b end.

(** ** Tiles *)

Record BufferedTilePyramid := {
  tp_grid : string;
  tp_metatiling : Z;
  tp_pixelbuffer : Z;
}.

(** A tile of a buffered pyramid; [tile.id] is [(zoom, row, col)]. *)
Record BufferedTile := {
  buffered_tp : BufferedTilePyramid;
  zoom : Z;
  row : Z;
  col : Z;
}.

Definition pixelbuffer (t : BufferedTile) : Z := tp_pixelbuffer (buffered_tp t).

#[global] Instance BufferedTilePyramid_eq_dec : EqDecision BufferedTilePyramid.
Proof. solve_decision. Defined.
#[global] Instance BufferedTile_eq_dec : EqDecision BufferedTile.
Proof. solve_decision. Defined.

(** ** The logging monad

    The effects a tile task can have on its surroundings, in the order
    they happen: a preprocessing result attached to an input, a call of
    the user process, a read from the output store. *)

Inductive Event :=
| EvSetPreprocessingResult (input_key task_key : string)
| EvProcess (tile : BufferedTile)
| EvRead (tile : BufferedTile).

#[global] Instance Event_eq_dec : EqDecision Event.
Proof. solve_decision. Defined.

Record M (A : Type) := MkM { trace : list Event; outcome : result A }.
Arguments MkM {A} trace outcome.
Arguments trace {A} m.
Arguments outcome {A} m.

#[global] Instance M_ret : MRet M := fun A a => MkM [] (Ok a).
#[global] Instance M_bind : MBind M :=
  fun A B f m =>
    match outcome m with
    | Ok a => MkM (trace m ++ trace (f a)) (outcome (f a))
    | Raise e => MkM (trace m) (Raise e)
    end.

Definition lift {A} (r : result A) : M A := MkM [] r.
Definition raise {A} (e : Exn) : M A := MkM [] (Raise e).
Definition emit (ev : Event) : M unit := MkM [ev] (Ok ()).

(** [try: body except exn: handler]. *)
Definition try_except {A} (body : M A) (exn : Exn) (handler : M A) : M A :=
  match outcome body with
  | Raise e =>
      if decide (e = exn)
      then MkM (trace body ++ trace handler) (outcome handler)
      else body
  | Ok _ => body
  end.

Fixpoint foldM {A S} (f : S → A → M S) (s : S) (xs : list A) : M S :=
  match xs with
  | [] => mret s
  | x :: xs' => s' ← f s x; foldM f s' xs'
  end.

(** Vocabulary for statements about traces. *)
Definition is_read (ev : Event) : Prop := ∃ t, ev = EvRead t.
Definition is_process_call (ev : Event) : Prop := ∃ t, ev = EvProcess t.
Definition is_attach (ev : Event) : Prop :=
  ∃ inp_key task_key, ev = EvSetPreprocessingResult inp_key task_key.

(** ** Spatial values *)

Record Bounds := MkBounds { b_left : Z; b_bottom : Z; b_right : Z; b_top : Z }.

#[global] Instance Bounds_eq_dec : EqDecision Bounds.
Proof. solve_decision. Defined.

(** A [Bounds] read as the tuple [(left, bottom, right, top)]. *)
Definition bounds_tuple (b : Bounds) : list Z :=
  [b_left b; b_bottom b; b_right b; b_top b].

(** The [geometry] argument of a task: a shapely geometry or a GeoJSON
    mapping (a Python [dict]; only its members' keys and coordinate
    lists are kept). *)
Inductive GeometryLike (G : Type) :=
| GShape (g : G)
| GMapping (members : list (string * list (Z * Z))).
Arguments GShape {G} g.
Arguments GMapping {G} members.

(** Values a process, a task function or a dependency can carry. *)
Inductive PyVal (R : Type) :=
| VNone
| VStr (s : string)
| VInt (z : Z)
| VData (r : R).
Arguments VNone {R}.
Arguments VStr {R} s.
Arguments VInt {R} z.
Arguments VData {R} r.

(** ** Collaborators outside the embedded files

    shapely (geometries, [box], truthiness and [.bounds] of a geometry),
    the types of rasters, affine transforms and input tiles ([Types]),
    [mapchete.io._geometry_operations.to_shape],
    [mapchete.validate.validate_bounds], the tile arithmetic of
    [mapchete.tile] / tilematrix, [mapchete.io.raster],
    [mapchete.formats] input tiles, [mapchete.io.vector.IndexedFeatures]
    and [mapchete.processing.types.default_tile_task_id].  None of them
    is in the embedded sources; the embedded code is parametric in
    them. *)
Class Types := {
  Geometry : Type;
  Raster : Type;
  Affine : Type;
  InputTile : Type;
}.

Class World {T : Types} := {
  geom_is_empty : Geometry → bool;
  geom_bounds : Geometry → list Z;
  box : Bounds → Geometry;
  to_shape : GeometryLike Geometry → result Geometry;
  validate_bounds : list Z → result Bounds;

  tp_tile : BufferedTilePyramid → Z → Z → Z → result BufferedTile;
  get_children : BufferedTile → list BufferedTile;
  get_parent : BufferedTile → option BufferedTile;
  tile_bounds : BufferedTile → Bounds;
  tile_bbox : BufferedTile → Geometry;
  tiles_from_bounds : BufferedTilePyramid → list Z → Z → result (list BufferedTile);
  intersecting : BufferedTilePyramid → BufferedTile → list BufferedTile;
  default_tile_task_id : BufferedTile → string;

  tile_affine : BufferedTile → Affine;
  resample_from_array :
    Raster → option Affine → BufferedTile → string → PyVal Raster → result Raster;
  extract_from_array : PyVal Raster → Affine → BufferedTile → result Raster;
  create_mosaic : list (BufferedTile * Raster) → PyVal Raster → result Raster;

  input_key : InputTile → string;
  set_preprocessing_task_result :
    InputTile → string → PyVal Raster → result InputTile;

  indexed_filter :
    ∀ {A : Type}, (A → option Bounds) → list A → option Bounds → result (list A);
}.

(** ** [mapchete/enums.py] *)

Inductive ProcessingMode := CONTINUE | READONLY | OVERWRITE | MEMORY.

(** [ProcessingMode] is a [str] enum: a member compares equal to its
    value. *)
Definition ProcessingMode_value (m : ProcessingMode) : string :=
  match m with
  | CONTINUE => "continue"
  | READONLY => "readonly"
  | OVERWRITE => "overwrite"
  | MEMORY => "memory"
  end.

Inductive Status :=
| parsing
| initializing
| running
| retrying
| post_processing
| done
| cancelled
| failed.

#[global] Instance Status_eq_dec : EqDecision Status.
Proof. solve_decision. Defined.

Inductive InterpolateFrom := lower | higher.

Definition InterpolateFrom_value (b : InterpolateFrom) : string :=
  match b with lower => "lower" | higher => "higher" end.

(** ** [mapchete/processing/tasks.py] *)

Section tasks.
Context {T : Types} {W : World}.

(** [mapchete.processing.types.TaskInfo], as far as the embedded code
    builds and reads it. *)
Record TaskInfo := {
  ti_id : option string;
  ti_output : PyVal Raster;
  ti_processed : bool;
  ti_tile : option BufferedTile;
}.

(** The callables a task's [func] can hold: the two module-level
    wrappers, or a function of the caller. *)
Inductive Callable :=
| execute_task_wrapper_ref
| execute_tile_task_wrapper_ref
| UserCallable (name : string)
    (body : list (PyVal Raster) → list (string * PyVal Raster) → result (PyVal Raster)).

(** *** class Task

    [task_oid] is the identity of the Python object: [Task] defines
    neither [__eq__] nor [__hash__], so tasks used as dictionary keys are
    compared by identity. *)
Record Task := {
  task_oid : nat;
  task_id : string;
  task_func : option Callable;
  task_fargs : list (PyVal Raster);
  task_fkwargs : list (string * PyVal Raster);
  task_dependencies : list (string * TaskInfo);
  task_result_key_name : string;
  task_geometry : option Geometry;
  task_bounds : option Bounds;
}.

(** Truthiness of the [geometry] argument: [None], an empty shapely
    geometry and an empty mapping are false. *)
Definition truthy_geometry (g : option (GeometryLike Geometry)) : bool :=
  match g with
  | None => false
  | Some (GShape s) => negb (geom_is_empty s)
  | Some (GMapping m) => match m with [] => false | _ :: _ => true end
  end.

(** [Task.__init__].  [oid] is the identity the new object gets and
    [uuid] the value [uuid4().hex] would return. *)
Definition Task_init (oid : nat) (uuid : string)
    (id : option string) (func : option Callable)
    (fargs : option (list (PyVal Raster)))
    (fkwargs : option (list (string * PyVal Raster)))
    (dependencies : option (list (string * TaskInfo)))
    (result_key_name : option string)
    (geometry : option (GeometryLike Geometry))
    (bounds : option (list Z)) : result Task :=
  let id' := str_or id uuid in
  let mk (g : option Geometry) (b : option Bounds) : Task :=
    {| task_oid := oid;
       task_id := id';
       task_func := func;
       task_fargs := default [] fargs;
       task_fkwargs := default [] fkwargs;
       task_dependencies := default [] dependencies;
       task_result_key_name := str_or result_key_name (id' +:+ "_result");
       task_geometry := g;
       task_bounds := b |} in
  if truthy_geometry geometry && truthy_list bounds then Raise ValueError
  else if truthy_geometry geometry then
    g ← from_option to_shape (Raise TypeError) geometry;
    b ← validate_bounds (geom_bounds g);
    Ok (mk (Some g) (Some b))
  else if truthy_list bounds then
    b ← validate_bounds (default [] bounds);
    Ok (mk (Some (box b)) (Some b))
  else Ok (mk None None).

(** [Task.add_dependencies] (the argument is a dictionary or [None]). *)
Definition Task_add_dependencies (t : Task)
    (dependencies : option (list (string * TaskInfo))) : Task :=
  {| task_oid := task_oid t;
     task_id := task_id t;
     task_func := task_func t;
     task_fargs := task_fargs t;
     task_fkwargs := task_fkwargs t;
     task_dependencies := dict_update (task_dependencies t) (default [] dependencies);
     task_result_key_name := task_result_key_name t;
     task_geometry := task_geometry t;
     task_bounds := task_bounds t |}.

Definition Task_has_geometry (t : Task) : bool :=
  bool_decide (is_Some (task_geometry t)).

(** Calling [self.func( *self.fargs, **self.fkwargs)].  The module-level
    wrappers expect a task as first argument, which [fargs] cannot
    hold. *)
Definition call (f : option Callable) (fargs : list (PyVal Raster))
    (fkwargs : list (string * PyVal Raster)) : result (PyVal Raster) :=
  match f with
  | Some (UserCallable _ body) => body fargs fkwargs
  | _ => Raise TypeError
  end.

(** [Task.execute]. *)
Definition Task_execute (self : Task) : result TaskInfo :=
  output ← call (task_func self) (task_fargs self) (task_fkwargs self);
  Ok {| ti_id := Some (task_id self); ti_output := output;
        ti_processed := true; ti_tile := None |}.

Definition _execute_task_wrapper (task : Task) : result TaskInfo :=
  Task_execute task.

(** *** class TileTask *)

(** [config.baselevels] is an empty dictionary when no baselevels are
    configured, and a dictionary with the keys ["zooms"], ["lower"],
    ["higher"] and ["tile_pyramid"] otherwise; the attribute of a
    skipped task is [None]. *)
Record Baselevels := {
  bl_zooms : list Z;
  bl_lower : string;
  bl_higher : string;
  bl_tile_pyramid : BufferedTilePyramid;
}.

Inductive BaselevelsAttr :=
| BLNone
| BLEmpty
| BLDict (bl : Baselevels).

Definition truthy_baselevels (b : BaselevelsAttr) : bool :=
  match b with BLDict _ => true | _ => false end.

(** The output reader: its pyramid, its [output_params] dictionary and
    what [read] returns for a tile of the output store. *)
Record OutputReader := {
  reader_pyramid : BufferedTilePyramid;
  reader_output_params : list (string * PyVal Raster);
  reader_read : BufferedTile → result Raster;
}.

(** The context the user process is called with. *)
Record MapcheteProcess := {
  mp_tile : BufferedTile;
  mp_params : list (string * PyVal Raster);
  mp_input : list (string * InputTile);
  mp_output_params : list (string * PyVal Raster);
}.

Definition ProcessFunc : Type :=
  MapcheteProcess → list (string * PyVal Raster) → result (PyVal Raster).

(** What [TileTask.__init__] reads from a [MapcheteConfig]. *)
Record MapcheteConfig := {
  cfg_process_pyramid : BufferedTilePyramid;
  cfg_zoom_levels : list Z;
  cfg_baselevels : BaselevelsAttr;
  cfg_process : ProcessFunc;
  cfg_config_dir : string;
  cfg_get_inputs_for_tile : BufferedTile → list (string * InputTile);
  cfg_get_process_func_params : Z → list (string * PyVal Raster);
  cfg_output_reader : OutputReader;
  cfg_mode : string;
}.

Record TileTask := {
  tt_task : Task;
  tile : BufferedTile;
  skip : bool;
  config_zoom_levels : option (list Z);
  config_baselevels : BaselevelsAttr;
  process : option ProcessFunc;
  config_dir : option string;
  input : list (string * InputTile);
  process_func_params : list (string * PyVal Raster);
  output_params : list (string * PyVal Raster);
  mode : option string;
  output_reader : option OutputReader;
}.

(** The [tile] argument: a tile object or an index tuple. *)
Inductive TileLike :=
| TileObj (t : BufferedTile)
| TileTuple (z r c : Z).

(** [TileTask.__init__].

    With an index tuple the constructor cannot complete: the last
    statement reads [tile.bbox] from the argument itself.
    [self.tile.zoom in self.config_baselevels] tests the keys of the
    baselevels dictionary, which are strings, so it is false for every
    zoom.  The [func] and [dependencies] arguments are overwritten by
    [Task.__init__], which is called without them. *)
Definition TileTask_init (oid : nat) (uuid : string)
    (tile_arg : TileLike) (id : option string)
    (config : option MapcheteConfig) (func : option Callable)
    (skip_arg : bool) (dependencies : option (list (string * TaskInfo)))
    : result TileTask :=
  match tile_arg with
  | TileTuple z r c =>
      match config with
      | None => Raise AttributeError
      | Some cfg => _ ← tp_tile (cfg_process_pyramid cfg) z r c; Raise AttributeError
      end
  | TileObj t =>
      let id' := str_or id (default_tile_task_id t) in
      if skip_arg then
        base ← Task_init oid uuid (Some id') None None None None None
                 (Some (GShape (tile_bbox t))) None;
        Ok {| tt_task := base; tile := t; skip := true;
              config_zoom_levels := None; config_baselevels := BLNone;
              process := None; config_dir := None;
              input := []; process_func_params := []; output_params := [];
              mode := None; output_reader := None |}
      else
        match config with
        | None => Raise AttributeError
        | Some cfg =>
            let zoom_in_baselevels := false in
            let unbound :=
              negb (bool_decide (zoom t ∈ cfg_zoom_levels cfg)) || zoom_in_baselevels in
            base ← Task_init oid uuid (Some id') None None None None None
                     (Some (GShape (tile_bbox t))) None;
            Ok {| tt_task := base; tile := t; skip := false;
                  config_zoom_levels := Some (cfg_zoom_levels cfg);
                  config_baselevels := cfg_baselevels cfg;
                  process := Some (cfg_process cfg);
                  config_dir := Some (cfg_config_dir cfg);
                  input := if unbound then [] else cfg_get_inputs_for_tile cfg t;
                  process_func_params :=
                    if unbound then [] else cfg_get_process_func_params cfg (zoom t);
                  output_params :=
                    if unbound then []
                    else reader_output_params (cfg_output_reader cfg);
                  mode := Some (cfg_mode cfg);
                  output_reader :=
                    if truthy_baselevels (cfg_baselevels cfg)
                    then Some (cfg_output_reader cfg) else None |}
        end
  end.

(** [task_key.split(":")[0]] and [":".join(task_key.split(":")[1:])]:
    the text before the first colon and the text after it. *)
Fixpoint split_colon (s : string) : string * string :=
  match s with
  | EmptyString => (EmptyString, EmptyString)
  | String c s' =>
      if Ascii.eqb c ":"%char then (EmptyString, s')
      else let '(a, b) := split_colon s' in (String c a, b)
  end.

(** [for inp in self.input.values(): if inp.input_key == inp_key:
    inp.set_preprocessing_task_result(...)]: the matching input objects
    are updated in place. *)
Fixpoint attach_to_inputs (inputs : list (string * InputTile))
    (inp_key task_key : string) (output : PyVal Raster)
    : M (list (string * InputTile)) :=
  match inputs with
  | [] => mret []
  | (name, inp) :: rest =>
      inp' ← (if decide (input_key inp = inp_key) then
                _ ← emit (EvSetPreprocessingResult inp_key task_key);
                lift (set_preprocessing_task_result inp task_key output)
              else mret inp);
      rest' ← attach_to_inputs rest inp_key task_key output;
      mret ((name, inp') :: rest')
  end.

(** One round of the loop over [dependencies.items()]. *)
Definition attach_dependency (inputs : list (string * InputTile))
    (dep : string * TaskInfo) : M (list (string * InputTile)) :=
  let '(task_key, task_result) := dep in
  if String.prefix "tile_task" task_key then mret inputs
  else
    let '(inp_key, task_key') := split_colon task_key in
    if decide (task_key' = EmptyString) then raise KeyError
    else attach_to_inputs inputs inp_key task_key' (ti_output task_result).

(** [":" in task_key]. *)
Fixpoint has_colon (s : string) : bool :=
  match s with
  | EmptyString => false
  | String c s' => Ascii.eqb c ":"%char || has_colon s'
  end.

(** [for inp in self.input.values(): if inp_key == inp.input_key: break]
    with its [else: raise KeyError], followed by
    [inp.set_preprocessing_task_result(inp_task_key, result)]: the first
    input with the key is updated in place, the ones after it are not
    looked at. *)
Fixpoint set_first_input (inputs : list (string * InputTile))
    (inp_key inp_task_key : string) (result_ : PyVal Raster)
    : M (list (string * InputTile)) :=
  match inputs with
  | [] => raise KeyError
  | (name, inp) :: rest =>
      if decide (inp_key = input_key inp) then
        _ ← emit (EvSetPreprocessingResult inp_key inp_task_key);
        inp' ← lift (set_preprocessing_task_result inp inp_task_key result_);
        mret ((name, inp') :: rest)
      else
        rest' ← set_first_input rest inp_key inp_task_key result_;
        mret ((name, inp) :: rest')
  end.

(** [TileTask.set_preprocessing_task_result]; the value is [self.input]
    after the call.  [task_key.split(":")[:2]] keeps the text before the
    first colon and the text between the first and the second. *)
Definition TileTask_set_preprocessing_task_result (self : TileTask)
    (task_key : string) (result_ : PyVal Raster) : M (list (string * InputTile)) :=
  if has_colon task_key then
    let '(inp_key, rest) := split_colon task_key in
    let '(inp_task_key, _) := split_colon rest in
    set_first_input (input self) inp_key inp_task_key result_
  else raise KeyError.

(** Vocabulary: a dependency key that [_execute] passes over without
    touching an input - the result of a tile task, or a well-formed key
    [inp_key:task_key] whose input key none of the inputs has. *)
Definition dependency_ignored (inputs : list (string * InputTile))
    (task_key : string) : Prop :=
  String.prefix "tile_task" task_key = true
  ∨ (split_colon task_key).2 ≠ EmptyString
    ∧ ∀ name inp, (name, inp) ∈ inputs → input_key inp ≠ (split_colon task_key).1.

(** The body of the [try] in [TileTask._execute]: attach the results of
    preprocessing tasks, then call the user process.  Both handlers
    re-raise, so the outcome of the block is the outcome of its body
    (the timer and the logger are not observable here). *)
Definition run_process (self : TileTask)
    (dependencies : list (string * TaskInfo)) : M (PyVal Raster) :=
  inputs ← (match dependencies with
            | [] => mret (input self)
            | _ :: _ => foldM attach_dependency (input self) dependencies
            end);
  user_process ← lift (from_option Ok (Raise TypeError) (process self));
  _ ← emit (EvProcess (tile self));
  lift (user_process
          {| mp_tile := tile self;
             mp_params := process_func_params self;
             mp_input := inputs;
             mp_output_params := output_params self |}
          (process_func_params self)).

Definition py_min (l : list Z) : result Z :=
  match l with [] => Raise ValueError | x :: l' => Ok (foldl Z.min x l') end.
Definition py_max (l : list Z) : result Z :=
  match l with [] => Raise ValueError | x :: l' => Ok (foldl Z.max x l') end.

(** [d[key]] on a dictionary with string keys. *)
Definition getitem {V} (d : list (string * V)) (key : string) : result V :=
  from_option Ok (Raise KeyError) (dict_get key d).

Definition read (reader : OutputReader) (t : BufferedTile) : M Raster :=
  _ ← emit (EvRead t); lift (reader_read reader t).

(** The first loop of the "lower" branch: rasters cut out of the outputs
    of the dependencies. *)
Definition extract_dependency (reader : OutputReader)
    (src_tiles : list (BufferedTile * Raster)) (task_info : TaskInfo)
    : M (list (BufferedTile * Raster)) :=
  dep_tile ← lift (from_option Ok (Raise AttributeError) (ti_tile task_info));
  foldM (fun src output_tile =>
           match ti_output task_info with
           | VNone => mret src
           | output =>
               r ← lift (extract_from_array output (tile_affine dep_tile) output_tile);
               mret (dict_set output_tile r src)
           end)
        src_tiles (intersecting (reader_pyramid reader) dep_tile).

(** The second loop: children not covered by a dependency are read from
    the output store. *)
Definition read_missing (reader : OutputReader)
    (src_tiles : list (BufferedTile * Raster)) (child_tile : BufferedTile)
    : M (list (BufferedTile * Raster)) :=
  if dict_contains child_tile src_tiles then mret src_tiles
  else r ← read reader child_tile; mret (dict_set child_tile r src_tiles).

Definition child_tiles_of (reader : OutputReader)
    (output_tiles : list BufferedTile) : result (list BufferedTile) :=
  if decide (tp_pixelbuffer (reader_pyramid reader) = 0) then
    Ok (concat (get_children <$> output_tiles))
  else
    tiles ← result_mapM
      (fun output_tile =>
         tiles_from_bounds (reader_pyramid reader)
           (bounds_tuple (tile_bounds output_tile)) (zoom output_tile + 1))
      output_tiles;
    Ok (concat tiles).

(** The source tiles the "lower" branch mosaics. *)
Definition gather_src_tiles (reader : OutputReader)
    (output_tiles : list BufferedTile)
    (dependencies : list (string * TaskInfo))
    : M (list (BufferedTile * Raster)) :=
  src_tiles ← foldM (extract_dependency reader) [] (dict_values dependencies);
  child_tiles ← lift (child_tiles_of reader output_tiles);
  foldM (read_missing reader) src_tiles child_tiles.

(** [TileTask._interpolate_from_baselevel]. *)
Definition _interpolate_from_baselevel (self : TileTask)
    (baselevel : InterpolateFrom) (dependencies : list (string * TaskInfo))
    : M (PyVal Raster) :=
  match config_baselevels self with
  | BLNone => raise TypeError
  | BLEmpty => raise KeyError
  | BLDict bl =>
      tile' ← lift (tp_tile (bl_tile_pyramid bl)
                      (zoom (tile self)) (row (tile self)) (col (tile self)));
      reader ← lift (from_option Ok (Raise AttributeError) (output_reader self));
      output_tiles ←
        lift (if pixelbuffer tile' >? tp_pixelbuffer (reader_pyramid reader)
              then tiles_from_bounds (reader_pyramid reader)
                     (bounds_tuple (tile_bounds tile')) (zoom tile')
              else Ok (intersecting (reader_pyramid reader) tile'));
      match baselevel with
      | higher =>
          parent_tile ← lift (from_option Ok (Raise AttributeError)
                                (get_parent (tile self)));
          data ← read reader parent_tile;
          nodata ← lift (getitem (reader_output_params reader) "nodata");
          process_data ←
            lift (resample_from_array data (Some (tile_affine parent_tile))
                    (tile self) (bl_higher bl) nodata);
          mret (VData process_data)
      | lower =>
          src_tiles ← gather_src_tiles reader output_tiles dependencies;
          nodata ← lift (getitem (reader_output_params reader) "nodata");
          mosaic ← lift (create_mosaic src_tiles nodata);
          nodata' ← lift (getitem (reader_output_params reader) "nodata");
          process_data ←
            lift (resample_from_array mosaic None (tile self) (bl_lower bl) nodata');
          mret (VData process_data)
      end
  end.

(** [TileTask._execute]. *)
Definition TileTask__execute (self : TileTask)
    (dependencies : list (string * TaskInfo)) : M (PyVal Raster) :=
  match config_baselevels self with
  | BLDict bl =>
      lowest ← lift (py_min (bl_zooms bl));
      if zoom (tile self) <? lowest then
        _interpolate_from_baselevel self lower dependencies
      else
        highest ← lift (py_max (bl_zooms bl));
        if zoom (tile self) >? highest then
          _interpolate_from_baselevel self higher dependencies
        else run_process self dependencies
  | _ => run_process self dependencies
  end.

Definition mode_allowed (m : option string) : bool :=
  bool_decide (m ∈ [Some "memory"; Some "continue"; Some "overwrite"]).

(** [TileTask.execute]. *)
Definition TileTask_execute (self : TileTask)
    (dependencies : option (list (string * TaskInfo))) : M TaskInfo :=
  if negb (mode_allowed (mode self)) then raise ValueError
  else
    in_zoom_levels ←
      lift (match config_zoom_levels self with
            | None => Raise TypeError
            | Some zl => Ok (bool_decide (zoom (tile self) ∈ zl))
            end);
    if negb in_zoom_levels then raise MapcheteNodataTile
    else
      process_output ← TileTask__execute self (default [] dependencies);
      match process_output with
      | VNone => raise MapcheteProcessOutputError
      | VStr s =>
          if decide (s = "empty") then raise MapcheteNodataTile
          else mret {| ti_id := None; ti_output := process_output;
                       ti_processed := true; ti_tile := Some (tile self) |}
      | _ => mret {| ti_id := None; ti_output := process_output;
                     ti_processed := true; ti_tile := Some (tile self) |}
      end.

(** What the tile-task wrapper hands back: the task's [TaskInfo], or the
    string ["empty"]. *)
Inductive WrapperResult :=
| WInfo (info : TaskInfo)
| WStr (s : string).

(** [_execute_tile_task_wrapper]. *)
Definition _execute_tile_task_wrapper (task : TileTask)
    (dependencies : option (list (string * TaskInfo))) : M WrapperResult :=
  try_except
    (info ← TileTask_execute task dependencies; mret (WInfo info))
    MapcheteNodataTile
    (mret (WStr "empty")).

End tasks.

(** *** Batches *)

Section batches.
Context {T : Types} {W : World}.

(** A task as the batch code sees it: [isinstance(x, TileTask)] holds
    for [ATileTask], [isinstance(x, Task)] for both. *)
Inductive AnyTask :=
| PlainTask (t : Task)
| ATileTask (t : TileTask).

Definition base_task (a : AnyTask) : Task :=
  match a with PlainTask t => t | ATileTask t => tt_task t end.

(** The argument of [intersection]: a task, a bounds tuple or list, or
    any other value. *)
Inductive IntersectionArg :=
| ArgTask (t : AnyTask)
| ArgBounds (b : list Z)
| ArgOther (v : PyVal Raster).

(** [TaskBatch]: [tb_tasks] is what [self.tasks.values()] enumerates,
    the content of the spatial index. *)
Record TaskBatch := {
  tb_id : string;
  tb_tasks : list AnyTask;
  tb_func : Callable;
  tb_fkwargs : list (string * PyVal Raster);
}.

(** [TaskBatch.intersection]. *)
Definition TaskBatch_intersection (self : TaskBatch) (other : IntersectionArg)
    : result (list AnyTask) :=
  match other with
  | ArgTask t =>
      indexed_filter (fun a => task_bounds (base_task a)) (tb_tasks self)
        (task_bounds (base_task t))
  | ArgBounds b =>
      b' ← validate_bounds b;
      indexed_filter (fun a => task_bounds (base_task a)) (tb_tasks self) (Some b')
  | ArgOther _ => Raise TypeError
  end.

(** [TileTaskBatch]: [ttb_tasks] is the dictionary from tile to task,
    [ttb_tp] and [ttb_zoom] are [_tp] and [_zoom]. *)
Record TileTaskBatch := {
  ttb_id : string;
  ttb_bounds : option Z * option Z * option Z * option Z;
  ttb_tasks : list (BufferedTile * TileTask);
  ttb_func : Callable;
  ttb_fkwargs : list (string * PyVal Raster);
  ttb_tp : option BufferedTilePyramid;
  ttb_zoom : option Z;
}.

(** [TileTaskBatch._validate], run to the end: the items it yields, and
    the final [_tp] and [_zoom]. *)
Fixpoint TileTaskBatch_validate (tp : option BufferedTilePyramid)
    (zoom_ : option Z) (items : list AnyTask)
    : result (list TileTask * option BufferedTilePyramid * option Z) :=
  match items with
  | [] => Ok ([], tp, zoom_)
  | PlainTask _ :: _ => Raise TypeError
  | ATileTask item :: rest =>
      tp' ← (match tp with
             | None => Ok (buffered_tp (tile item))
             | Some p =>
                 if decide (buffered_tp (tile item) = p) then Ok p
                 else Raise TypeError
             end);
      zoom' ← (match zoom_ with
               | None => Ok (zoom (tile item))
               | Some z =>
                   if decide (zoom (tile item) = z) then Ok z else Raise TypeError
               end);
      '(yielded, tp'', zoom'') ← TileTaskBatch_validate (Some tp') (Some zoom') rest;
      Ok (item :: yielded, tp'', zoom'')
  end.

Definition min_opt (acc : option Z) (x : Z) : option Z :=
  Some (match acc with None => x | Some a => Z.min a x end).
Definition max_opt (acc : option Z) (x : Z) : option Z :=
  Some (match acc with None => x | Some a => Z.max a x end).

(** [TileTaskBatch._update_bounds]. *)
Definition TileTaskBatch_update_bounds (keys : list BufferedTile)
    : option Z * option Z * option Z * option Z :=
  foldl (fun '(l, b, r, t) k =>
           (min_opt l (b_left (tile_bounds k)),
            min_opt b (b_bottom (tile_bounds k)),
            max_opt r (b_right (tile_bounds k)),
            max_opt t (b_top (tile_bounds k))))
        (None, None, None, None) keys.

(** [TileTaskBatch.__init__]; [uuid] is what [uuid4().hex] would
    return.  Iterating the default [tasks=None] is a [TypeError]. *)
Definition TileTaskBatch_init (uuid : string)
    (tasks : option (list AnyTask)) (id : option string)
    (func : option Callable) (fkwargs : option (list (string * PyVal Raster)))
    : result TileTaskBatch :=
  items ← from_option Ok (Raise TypeError) tasks;
  '(yielded, tp, zoom_) ← TileTaskBatch_validate None None items;
  let tasks_dict := dict_of_list ((fun item => (tile item, item)) <$> yielded) in
  Ok {| ttb_id := str_or id uuid;
        ttb_bounds := TileTaskBatch_update_bounds (dict_keys tasks_dict);
        ttb_tasks := tasks_dict;
        ttb_func := default execute_tile_task_wrapper_ref func;
        ttb_fkwargs := default [] fkwargs;
        ttb_tp := tp;
        ttb_zoom := zoom_ |}.

(** [[self.tasks[t] for t in tiles if t in self.tasks]]. *)
Definition tasks_at (self : TileTaskBatch) (tiles : list BufferedTile)
    : list TileTask :=
  omap (fun t => dict_get t (ttb_tasks self)) tiles.

(** The bounds branch of [TileTaskBatch.intersection]. *)
Definition TileTaskBatch_intersection_bounds (self : TileTaskBatch)
    (bounds : list Z) : result (list AnyTask) :=
  tp ← from_option Ok (Raise AttributeError) (ttb_tp self);
  zoom_ ← from_option Ok (Raise TypeError) (ttb_zoom self);
  tiles ← tiles_from_bounds tp bounds zoom_;
  Ok (ATileTask <$> tasks_at self tiles).

(** [TileTaskBatch.intersection].  A task that is not a tile task is
    looked up by its bounds ([Bounds] is a list, so the recursive call
    takes the bounds branch); without bounds the recursive call gets
    [None], which is neither a task nor a tuple. *)
Definition TileTaskBatch_intersection (self : TileTaskBatch)
    (other : IntersectionArg) : result (list AnyTask) :=
  match other with
  | ArgTask (ATileTask o) =>
      if decide (Some (zoom (tile o) + 1) = ttb_zoom self) then
        Ok (ATileTask <$> tasks_at self (get_children (tile o)))
      else Raise ValueError
  | ArgTask (PlainTask o) =>
      match task_bounds o with
      | Some b => TileTaskBatch_intersection_bounds self (bounds_tuple b)
      | None => Raise TypeError
      end
  | ArgBounds b => TileTaskBatch_intersection_bounds self b
  | ArgOther _ => Raise TypeError
  end.

(** A batch of either class, with the attributes and methods
    [to_dask_collection] uses. *)
Inductive Batch :=
| BTask (b : TaskBatch)
| BTile (b : TileTaskBatch).

Definition batch_id (b : Batch) : string :=
  match b with BTask b => tb_id b | BTile b => ttb_id b end.
Definition batch_func (b : Batch) : Callable :=
  match b with BTask b => tb_func b | BTile b => ttb_func b end.
Definition batch_fkwargs (b : Batch) : list (string * PyVal Raster) :=
  match b with BTask b => tb_fkwargs b | BTile b => ttb_fkwargs b end.
Definition batch_values (b : Batch) : list AnyTask :=
  match b with
  | BTask b => tb_tasks b
  | BTile b => ATileTask <$> dict_values (ttb_tasks b)
  end.
Definition batch_intersection (b : Batch) (other : IntersectionArg)
    : result (list AnyTask) :=
  match b with
  | BTask b => TaskBatch_intersection b other
  | BTile b => TileTaskBatch_intersection b other
  end.

(** [if previous_batch:] - [None] is false, and a batch is true when
    its [__len__] is not zero. *)
Definition truthy_batch (b : option Batch) : bool :=
  match b with
  | None => false
  | Some b => match batch_values b with [] => false | _ :: _ => true end
  end.

(** *** to_dask_collection *)

(** A node of the dask graph: [delayed(task_func, pure=True, name=...,
    traverse=...)(task, dependencies=..., **fkwargs, dask_key_name=...)]. *)
Inductive Delayed :=
| MkDelayed (func : Callable) (name : string) (traverse : bool)
    (task : AnyTask) (dependencies : list (string * Delayed))
    (fkwargs : list (string * PyVal Raster)) (dask_key_name : string).

Definition d_func (d : Delayed) : Callable :=
  match d with MkDelayed f _ _ _ _ _ _ => f end.
Definition d_name (d : Delayed) : string :=
  match d with MkDelayed _ n _ _ _ _ _ => n end.
Definition d_traverse (d : Delayed) : bool :=
  match d with MkDelayed _ _ tr _ _ _ _ => tr end.
Definition d_task (d : Delayed) : AnyTask :=
  match d with MkDelayed _ _ _ t _ _ _ => t end.
Definition d_dependencies (d : Delayed) : list (string * Delayed) :=
  match d with MkDelayed _ _ _ _ deps _ _ => deps end.
Definition d_key_name (d : Delayed) : string :=
  match d with MkDelayed _ _ _ _ _ _ k => k end.

Definition oid (a : AnyTask) : nat := task_oid (base_task a).

(** [{child.id: tasks[child] for child in previous_batch.intersection(task)}];
    [tasks] is keyed by the task objects themselves, that is by their
    identity. *)
Definition resolve_dependencies (tasks : list (nat * Delayed))
    (previous_batch : option Batch) (task : AnyTask)
    : result (list (string * Delayed)) :=
  match previous_batch with
  | Some previous =>
      if truthy_batch (Some previous) then
        children ← batch_intersection previous (ArgTask task);
        items ← result_mapM
                  (fun child =>
                     node ← from_option Ok (Raise KeyError) (dict_get (oid child) tasks);
                     Ok (task_id (base_task child), node))
                  children;
        Ok (dict_of_list items)
      else Ok []
  | None => Ok []
  end.

(** The loop over [batch.values()]. *)
Fixpoint convert_tasks (task_func : Callable)
    (fkwargs : list (string * PyVal Raster)) (previous_batch : option Batch)
    (tasks : list (nat * Delayed)) (todo : list AnyTask)
    : result (list (nat * Delayed)) :=
  match todo with
  | [] => Ok tasks
  | task :: rest =>
      dependencies ← resolve_dependencies tasks previous_batch task;
      let node :=
        MkDelayed task_func (task_id (base_task task))
          (bool_decide (0 < length dependencies)%nat)
          task dependencies fkwargs (task_result_key_name (base_task task)) in
      convert_tasks task_func fkwargs previous_batch
        (dict_set (oid task) node tasks) rest
  end.

Definition task_func_for (batch : Batch)
    (preprocessing_task_wrapper tile_task_wrapper : option Callable) : Callable :=
  if decide (batch_id batch = "preprocessing_tasks")
  then default (batch_func batch) preprocessing_task_wrapper
  else default (batch_func batch) tile_task_wrapper.

(** The loop over [batches]. *)
Fixpoint convert_batches
    (preprocessing_task_wrapper tile_task_wrapper : option Callable)
    (previous_batch : option Batch) (tasks : list (nat * Delayed))
    (batches : list Batch) : result (list (nat * Delayed)) :=
  match batches with
  | [] => Ok tasks
  | batch :: rest =>
      tasks' ← convert_tasks
                 (task_func_for batch preprocessing_task_wrapper tile_task_wrapper)
                 (batch_fkwargs batch) previous_batch tasks (batch_values batch);
      convert_batches preprocessing_task_wrapper tile_task_wrapper
        (Some batch) tasks' rest
  end.

(** [to_dask_collection]. *)
Definition to_dask_collection (batches : list Batch)
    (preprocessing_task_wrapper tile_task_wrapper : option Callable)
    : result (list Delayed) :=
  tasks ← convert_batches preprocessing_task_wrapper tile_task_wrapper None [] batches;
  Ok (dict_values tasks).

(** [isinstance(batch, TileTaskBatch)]. *)
Definition is_tile_batch (b : Batch) : bool :=
  match b with BTile _ => true | BTask _ => false end.

(** *** class Tasks

    [_task_batches_generator] holds the batches the generator has not
    yielded yet; [_preprocessing_batches] and [_tile_batches] exist once
    [materialize] has run. *)
Record Tasks := {
  _task_batches_generator : list Batch;
  _preprocessing_batches : list TaskBatch;
  _tile_batches : list TileTaskBatch;
  materialized : bool;
}.

Definition Tasks_init (task_batches_generator : list Batch) : Tasks :=
  {| _task_batches_generator := task_batches_generator;
     _preprocessing_batches := [];
     _tile_batches := [];
     materialized := false |}.

(** [Tasks.materialize]: the generator is drained once, each batch
    appended to one of the two lists. *)
Definition Tasks_materialize (self : Tasks) : Tasks :=
  if materialized self then self
  else
    let '(preprocessing, tiles) :=
      foldl (fun '(preprocessing, tiles) batch =>
               match batch with
               | BTile b => (preprocessing, tiles ++ [b])
               | BTask b => (preprocessing ++ [b], tiles)
               end)
            ([], []) (_task_batches_generator self) in
    {| _task_batches_generator := [];
       _preprocessing_batches := preprocessing;
       _tile_batches := tiles;
       materialized := true |}.

(** The properties [preprocessing_batches] and [tile_batches]; like
    every method below they return the object after the call next to
    their value. *)
Definition Tasks_preprocessing_batches (self : Tasks) : Tasks * list TaskBatch :=
  let self' := Tasks_materialize self in (self', _preprocessing_batches self').
Definition Tasks_tile_batches (self : Tasks) : Tasks * list TileTaskBatch :=
  let self' := Tasks_materialize self in (self', _tile_batches self').

(** [Tasks._batches_generator], run to the end. *)
Definition Tasks_batches_generator (self : Tasks) : Tasks * list Batch :=
  let '(self1, preprocessing) := Tasks_preprocessing_batches self in
  let '(self2, tiles) := Tasks_tile_batches self1 in
  (self2, (BTask <$> preprocessing) ++ (BTile <$> tiles)).

(** [len(batch)] and [Tasks.__len__]. *)
Definition batch_len (b : Batch) : nat := length (batch_values b).
Definition Tasks_len (self : Tasks) : Tasks * nat :=
  let '(self', batches) := Tasks_batches_generator self in
  (self', sum_list (batch_len <$> batches)).

Definition Tasks_to_batches (self : Tasks) : Tasks * list Batch :=
  Tasks_batches_generator self.

(** [Tasks.to_batch], run to the end. *)
Definition Tasks_to_batch (self : Tasks) : Tasks * list AnyTask :=
  let '(self', batches) := Tasks_to_batches self in
  (self', concat (batch_values <$> batches)).

Definition Tasks_to_dask_graph (self : Tasks)
    (preprocessing_task_wrapper tile_task_wrapper : option Callable)
    : Tasks * result (list Delayed) :=
  let '(self', batches) := Tasks_batches_generator self in
  (self', to_dask_collection batches preprocessing_task_wrapper tile_task_wrapper).

(** Vocabulary for the statement about resolved dependencies.

    [deps] is the mapping [{child.id: node}] over [children]: its keys
    are pairwise distinct, every child's id is a key, and every entry
    pairs the id of some child with the node of [nodes] that was built
    for that very task object. *)
Definition is_dependency_mapping (nodes : list Delayed) (children : list AnyTask)
    (deps : list (string * Delayed)) : Prop :=
  NoDup (dict_keys deps)
  ∧ (∀ child, child ∈ children → task_id (base_task child) ∈ dict_keys deps)
  ∧ (∀ k node, (k, node) ∈ deps →
       node ∈ nodes
       ∧ ∃ child, child ∈ children ∧ task_id (base_task child) = k
                  ∧ oid (d_task node) = oid child).

(** The dependencies a task gets from the batch before its own: the
    mapping over [previous_batch.intersection(task)] when that batch is
    not empty, and nothing when it is empty or there is none. *)
Definition dependencies_resolved (nodes : list Delayed)
    (previous_batch : option Batch) (task : AnyTask)
    (deps : list (string * Delayed)) : Prop :=
  match previous_batch with
  | Some previous =>
      if truthy_batch (Some previous) then
        ∃ children,
          batch_intersection previous (ArgTask task) = Ok children
          ∧ is_dependency_mapping nodes children deps
      else deps = []
  | None => deps = []
  end.

(** The batch before the [i]-th one. *)
Definition batch_before (batches : list Batch) (i : nat) : option Batch :=
  match i with O => None | S i' => batches !! i' end.

(** The dictionary [tasks] when every task object was entered once: the
    nodes in order, each under the identity of its task. *)
Definition keyed_by_identity (nodes : list Delayed) : list (nat * Delayed) :=
  (fun node => (oid (d_task node), node)) <$> nodes.

End batches.

(** ** [mapchete/commands/_execute.py] *)

(** [mapchete.types.Progress]; [current] defaults to 0. *)
Record Progress := { current : Z; total : option Z }.

(** What the command reads from a [TaskResult]. *)
Record TaskResult := { tr_id : string; tr_process_msg : string }.

(** The messages of the command: each f-string is kept as its template
    and the values it formats. *)
Inductive Message :=
| MsgAttempt (attempt retries : Z)
| MsgProcessing (preprocessing_tasks tiles_tasks workers : Z)
| MsgWaitingForExecutor
| MsgSending (total_tasks : Z)
| MsgTask (id process_msg : string).

(** One call of [all_observers.notify(...)] with its keyword
    arguments. *)
Record Notification := {
  n_status : option Status;
  n_progress : option Progress;
  n_message : option Message;
  n_task_result : option TaskResult;
}.

Definition notify_status (s : Status) : Notification :=
  {| n_status := Some s; n_progress := None; n_message := None; n_task_result := None |}.
Definition notify_message (m : Message) : Notification :=
  {| n_status := None; n_progress := None; n_message := Some m; n_task_result := None |}.

(** How [execute] ends. *)
Inductive Outcome :=
| Returned
| Raised (e : Exn).

(** The opened process [mp] as the command uses it.  The counts and the
    behaviour of [mp.compute(...)] may differ from one attempt to the
    next (outputs written by an earlier attempt are skipped), so they are
    functions of the attempt number.  [mp_compute] gives the futures the
    iteration yields before it ends, and the exception that ends it, if
    any (raised by the iterator or by [TaskResult.from_future]). *)
Record Mapchete := {
  preprocessing_tasks_count : Z → Z;
  count_tiles : Z → Z;
  mp_compute : Z → list TaskResult * option Exn;
}.

(** The arguments of [execute] that steer the lifecycle.  [arg_tile]
    tells whether a single tile was requested; [retry_on_exception] and
    [cancel_on_exception] say which exceptions the two [except] clauses
    match; [mapchete_open] is the outcome of parsing the configuration
    and opening the process. *)
Record ExecuteArgs := {
  arg_tile : bool;
  workers : Z;
  retries : Z;
  retry_on_exception : Exn → bool;
  cancel_on_exception : Exn → bool;
  mapchete_open : result Mapchete;
}.

(** The defaults: [Exception] for retrying, [JobCancelledError] for
    cancelling. *)
Definition default_retry_on_exception (e : Exn) : bool :=
  negb (bool_decide (e = KeyboardInterrupt)).
Definition default_cancel_on_exception (e : Exn) : bool :=
  bool_decide (e = JobCancelledError).

(** The notifications of the loop over the futures; [ii] counts from
    1. *)
Fixpoint task_notifications (total_tasks ii : Z) (results : list TaskResult)
    : list Notification :=
  match results with
  | [] => []
  | r :: rest =>
      notify_message (MsgTask (tr_id r) (tr_process_msg r))
      :: {| n_status := None;
            n_progress := Some {| current := ii; total := Some total_tasks |};
            n_message := None;
            n_task_result := Some r |}
      :: task_notifications total_tasks (ii + 1) rest
  end.

(** [total_tasks] of an attempt. *)
Definition total_tasks_of (args : ExecuteArgs) (mp : Mapchete) (attempt : Z) : Z :=
  preprocessing_tasks_count mp attempt
  + (if arg_tile args then 1 else count_tiles mp attempt).

(** What an attempt tells the observers before it asks for an executor:
    from the second attempt on the attempt message, then status
    [initializing] and the task counts. *)
Definition setup_notifications (args : ExecuteArgs) (mp : Mapchete)
    (retries_left attempt : Z) : list Notification :=
  (if decide (attempt > 1)
   then [notify_message (MsgAttempt attempt retries_left)] else [])
  ++ [notify_status initializing;
      notify_message
        (MsgProcessing (preprocessing_tasks_count mp attempt)
           (if arg_tile args then 1 else count_tiles mp attempt)
           (workers args))].

(** What an attempt with tasks tells the observers up to the end of the
    loop over the futures [results]. *)
Definition run_notifications (args : ExecuteArgs) (mp : Mapchete)
    (retries_left attempt : Z) (results : list TaskResult) : list Notification :=
  setup_notifications args mp retries_left attempt
  ++ [notify_message MsgWaitingForExecutor;
      {| n_status := Some running;
         n_progress :=
           Some {| current := 0; total := Some (total_tasks_of args mp attempt) |};
         n_message := Some (MsgSending (total_tasks_of args mp attempt));
         n_task_result := None |}]
  ++ task_notifications (total_tasks_of args mp attempt) 1 results.

(** The [while retries + 1:] loop.  [fuel] bounds the number of
    attempts; [None] means the bound was reached.  [retries_left] and
    [attempt] are the values of [retries] and [attempt] when the loop
    condition is tested. *)
Fixpoint attempts (fuel : nat) (args : ExecuteArgs) (mp : Mapchete)
    (retries_left attempt : Z) : option (list Notification * Outcome) :=
  match fuel with
  | O => None
  | S fuel' =>
      if decide (retries_left + 1 = 0) then Some ([], Returned)
      else
        let attempt := attempt + 1 in
        if decide (total_tasks_of args mp attempt = 0) then
          Some (setup_notifications args mp retries_left attempt
                ++ [notify_status done], Returned)
        else
          let '(results, raised) := mp_compute mp attempt in
          let run := run_notifications args mp retries_left attempt results in
          match raised with
          | None => Some (run, Returned)
          | Some e =>
              if cancel_on_exception args e then
                Some (run ++ [notify_status cancelled], Raised e)
              else if retry_on_exception args e then
                if decide (retries_left = 0) then
                  Some (run ++ [notify_status failed], Raised e)
                else
                  '(later, outcome) ← attempts fuel' args mp (retries_left - 1) attempt;
                  Some (run ++ [notify_status failed; notify_status retrying] ++ later,
                        outcome)
              else Some (run, Raised e)
          end
  end.

(** [execute]: everything the observers are told, and how the call
    ends. *)
Definition execute (fuel : nat) (args : ExecuteArgs)
    : option (list Notification * Outcome) :=
  match mapchete_open args with
  | Raise e => Some ([notify_status parsing], Raised e)
  | Ok mp =>
      '(told, outcome) ← attempts fuel args mp (retries args) 0;
      Some (notify_status parsing :: told, outcome)
  end.

(** The statuses among the notifications, in order. *)
Definition statuses (told : list Notification) : list Status :=
  omap n_status told.

(** The progress notifications, in order. *)
Definition progresses (told : list Notification) : list Progress :=
  omap n_progress told.

(** How often a status was notified. *)
Definition count_status (s : Status) (told : list Notification) : nat :=
  length (filter (fun s' => s' = s) (statuses told)).

(** The statuses of one failed attempt that is retried. *)
Definition retried_round : list Status := [initializing; running; failed; retrying].

(** An attempt that has tasks and ends in an exception which the retry
    clause matches and the cancel clause does not. *)
Definition fails_retryably (args : ExecuteArgs) (mp : Mapchete) (attempt : Z) : Prop :=
  total_tasks_of args mp attempt ≠ 0
  ∧ ∃ results e,
      mp_compute mp attempt = (results, Some e)
      ∧ cancel_on_exception args e = false
      ∧ retry_on_exception args e = true.

(** ** A small concrete world

    An instance of the interface on which the embedded code can be run:
    a square grid of tiles, geometries as point lists, and symbolic
    rasters, so that a result shows how it was computed. *)

Module Toy.

(** Coordinates have their origin at the top-left corner of the grid
    and grow to the right and upwards; a tile of zoom [z] has side
    [2 ^ (12 - z)]. *)
Definition tile_size (z : Z) : Z := 2 ^ (12 - z).

Definition tile_bounds (t : BufferedTile) : Bounds :=
  {| b_left := col t * tile_size (zoom t);
     b_bottom := - ((row t + 1) * tile_size (zoom t));
     b_right := (col t + 1) * tile_size (zoom t);
     b_top := - (row t * tile_size (zoom t)) |}.

Definition box (b : Bounds) : list (Z * Z) :=
  [(b_right b, b_bottom b); (b_right b, b_top b);
   (b_left b, b_top b); (b_left b, b_bottom b)].

Definition geom_bounds (g : list (Z * Z)) : list Z :=
  match g with
  | [] => []
  | (x, y) :: g' =>
      [foldl Z.min x g'.*1; foldl Z.min y g'.*2;
       foldl Z.max x g'.*1; foldl Z.max y g'.*2]
  end.

Definition geom_is_empty (g : list (Z * Z)) : bool :=
  match g with [] => true | _ :: _ => false end.

Definition to_shape (g : GeometryLike (list (Z * Z))) : result (list (Z * Z)) :=
  match g with
  | GShape s => Ok s
  | GMapping members => from_option Ok (Raise KeyError) (dict_get "coordinates" members)
  end.

Definition validate_bounds (l : list Z) : result Bounds :=
  match l with
  | [x0; y0; x1; y1] => Ok (MkBounds x0 y0 x1 y1)
  | _ => Raise ValueError
  end.

Definition tp_tile (tp : BufferedTilePyramid) (z r c : Z) : result BufferedTile :=
  if (0 <=? z) && (0 <=? r) && (r <? 2 ^ z) && (0 <=? c) && (c <? 2 ^ z)
  then Ok {| buffered_tp := tp; zoom := z; row := r; col := c |}
  else Raise ValueError.

Definition child (t : BufferedTile) (dr dc : Z) : BufferedTile :=
  {| buffered_tp := buffered_tp t; zoom := zoom t + 1;
     row := 2 * row t + dr; col := 2 * col t + dc |}.

(** Modelled from the spec: the tile arithmetic ([mapchete.tile],
    tilematrix) is not among the embedded sources.  A tile of zoom [z]
    is subdivided into four children of zoom [z + 1], listed top-left,
    top-right, bottom-left, bottom-right. *)
Definition get_children (t : BufferedTile) : list BufferedTile :=
  [child t 0 0; child t 0 1; child t 1 0; child t 1 1].

Definition get_parent (t : BufferedTile) : option BufferedTile :=
  if zoom t =? 0 then None
  else Some {| buffered_tp := buffered_tp t; zoom := zoom t - 1;
               row := row t / 2; col := col t / 2 |}.

Definition span (lo hi : Z) : list Z :=
  (fun i => lo + Z.of_nat i) <$> seq 0 (Z.to_nat (hi - lo)).

(** The tiles of zoom [z] whose interior meets the bounds. *)
Definition tiles_from_bounds (tp : BufferedTilePyramid) (bounds : list Z) (z : Z)
    : result (list BufferedTile) :=
  b ← validate_bounds bounds;
  let s := tile_size z in
  if s <=? 0 then Raise ValueError
  else
    let rows := span ((- b_top b) / s) ((- b_bottom b + s - 1) / s) in
    let cols := span (b_left b / s) ((b_right b + s - 1) / s) in
    Ok (r ← rows; c ← cols;
        [{| buffered_tp := tp; zoom := z; row := r; col := c |}]).

Definition intersecting (tp : BufferedTilePyramid) (t : BufferedTile)
    : list BufferedTile :=
  [{| buffered_tp := tp; zoom := zoom t; row := row t; col := col t |}].

Definition default_tile_task_id (t : BufferedTile) : string :=
  "tile_task_z" +:+ pretty (zoom t) +:+ "-" +:+ pretty (row t) +:+ "-" +:+ pretty (col t).

Inductive SymbolicRaster :=
| Stored (t : BufferedTile)
| Computed (t : BufferedTile)
| Extracted (src : SymbolicRaster) (out_tile : BufferedTile)
| Mosaic (parts : list (BufferedTile * SymbolicRaster)) (nodata : option Z)
| Resampled (src : SymbolicRaster) (resampling : string) (out_tile : BufferedTile)
    (nodata : option Z).

Definition nodata_of (v : PyVal SymbolicRaster) : option Z :=
  match v with VInt z => Some z | _ => None end.

Definition resample_from_array (src : SymbolicRaster) (in_affine : option BufferedTile)
    (out_tile : BufferedTile) (resampling : string) (nodata : PyVal SymbolicRaster)
    : result SymbolicRaster :=
  Ok (Resampled src resampling out_tile (nodata_of nodata)).

Definition extract_from_array (src : PyVal SymbolicRaster) (in_affine : BufferedTile)
    (out_tile : BufferedTile) : result SymbolicRaster :=
  match src with
  | VData r => Ok (Extracted r out_tile)
  | _ => Raise TypeError
  end.

Definition create_mosaic (parts : list (BufferedTile * SymbolicRaster))
    (nodata : PyVal SymbolicRaster) : result SymbolicRaster :=
  match parts with
  | [] => Raise ValueError
  | _ :: _ => Ok (Mosaic parts (nodata_of nodata))
  end.

Record ToyInputTile := {
  it_key : string;
  it_results : list (string * PyVal SymbolicRaster);
}.

Definition set_preprocessing_task_result (inp : ToyInputTile) (task_key : string)
    (v : PyVal SymbolicRaster) : result ToyInputTile :=
  Ok {| it_key := it_key inp; it_results := dict_set task_key v (it_results inp) |}.

Definition bounds_intersect (a b : Bounds) : bool :=
  (b_left a <? b_right b) && (b_left b <? b_right a)
  && (b_bottom a <? b_top b) && (b_bottom b <? b_top a).

(** Modelled from the spec: [IndexedFeatures.filter] is not among the
    embedded sources; it keeps the items whose bounds intersect the
    query. *)
Definition indexed_filter {A : Type} (bounds_of : A → option Bounds)
    (items : list A) (query : option Bounds) : result (list A) :=
  match query with
  | None => Ok []
  | Some q =>
      Ok (List.filter
            (fun a => match bounds_of a with
                      | Some b => bounds_intersect b q
                      | None => false
                      end)
            items)
  end.

Definition types : Types :=
  Build_Types (list (Z * Z)) SymbolicRaster BufferedTile ToyInputTile.

Definition world : @World types :=
  @Build_World types
    geom_is_empty geom_bounds box to_shape validate_bounds
    tp_tile get_children get_parent tile_bounds (fun t => box (tile_bounds t))
    tiles_from_bounds intersecting default_tile_task_id
    (fun t => t) resample_from_array extract_from_array create_mosaic
    it_key set_preprocessing_task_result
    (@indexed_filter).

End Toy.

(** ** Concrete jobs and tasks

    Inputs on which the embedded code is run below. *)

(** The value of a computation that is seen to succeed. *)
Definition the {A} (r : result A) : Is_true (is_ok r) → A :=
  match r with
  | Ok a => fun _ => a
  | Raise _ => fun H => False_rect A H
  end.

Module Examples.

#[local] Existing Instance Toy.types.
#[local] Existing Instance Toy.world.

Definition pyramid : BufferedTilePyramid :=
  {| tp_grid := "geodetic"; tp_metatiling := 1; tp_pixelbuffer := 0 |}.

Definition tile_at (z r c : Z) : BufferedTile :=
  {| buffered_tp := pyramid; zoom := z; row := r; col := c |}.

(** An output store that holds every tile, with no-data value 0. *)
Definition reader : OutputReader :=
  {| reader_pyramid := pyramid;
     reader_output_params := [("nodata", VInt 0)];
     reader_read := fun t => Ok (Toy.Stored t) |}.

(** A user process in the manner of scenario S6: it raises no-data for
    odd columns, returns the string ["empty"] in row 0, and computes a
    raster elsewhere. *)
Definition user_process : ProcessFunc :=
  fun ctx _ =>
    if Z.odd (col (mp_tile ctx)) then Raise MapcheteNodataTile
    else if decide (row (mp_tile ctx) = 0) then Ok (VStr "empty")
    else Ok (VData (Toy.Computed (mp_tile ctx))).

Definition baselevels_10 : Baselevels :=
  {| bl_zooms := [10]; bl_lower := "bilinear"; bl_higher := "nearest";
     bl_tile_pyramid := pyramid |}.

(** Zoom levels 8 to 11 with baselevel 10. *)
Definition config (mode_ : string) : MapcheteConfig :=
  {| cfg_process_pyramid := pyramid;
     cfg_zoom_levels := [8; 9; 10; 11];
     cfg_baselevels := BLDict baselevels_10;
     cfg_process := user_process;
     cfg_config_dir := "/jobs/example";
     cfg_get_inputs_for_tile :=
       fun _ => [("file1", {| Toy.it_key := "src1"; Toy.it_results := [] |})];
     cfg_get_process_func_params := fun _ => [];
     cfg_output_reader := reader;
     cfg_mode := mode_ |}.

(** Tile tasks as [TileTask.__init__] builds them. *)
Definition new_tile_task (oid_ : nat) (z r c : Z) (mode_ : string)
    : result TileTask :=
  TileTask_init oid_ "0f0e" (TileObj (tile_at z r c)) None
    (Some (config mode_)) None false None.

Definition skipped_tile_task (oid_ : nat) (z r c : Z) : result TileTask :=
  TileTask_init oid_ "0f0e" (TileObj (tile_at z r c)) None None None true None.

Definition task_9 : TileTask := the (new_tile_task 5 9 10 20 "continue") I.
Definition task_10_data : TileTask := the (new_tile_task 1 10 21 40 "continue") I.
Definition task_10_odd : TileTask := the (new_tile_task 2 10 20 41 "continue") I.
Definition task_10_empty : TileTask := the (new_tile_task 3 10 0 40 "continue") I.
Definition task_11 : TileTask := the (new_tile_task 6 11 42 80 "continue") I.
Definition task_readonly : TileTask := the (new_tile_task 7 10 21 40 "readonly") I.
Definition task_skipped : TileTask := the (skipped_tile_task 8 10 21 40) I.

(** The result of the child task at (10, 20, 40), handed to the task at
    zoom 9 as a dependency. *)
Definition child_info : TaskInfo :=
  {| ti_id := None;
     ti_output := VData (Toy.Computed (tile_at 10 20 40));
     ti_processed := true;
     ti_tile := Some (tile_at 10 20 40) |}.

Definition deps_9 : list (string * TaskInfo) :=
  [("tile_task_z10-20-40", child_info)].

(** Plain tasks as [Task.__init__] builds them, with the optional
    arguments other than [geometry] and [bounds] left out. *)
Definition new_task (oid_ : nat) (id : string)
    (geometry : option (GeometryLike Geometry)) (bounds : option (list Z))
    : result Task :=
  Task_init oid_ "0f0e" (Some id) None None None None None geometry bounds.

(** The four tile tasks of zoom 10 below the tile (9, 10, 20), their
    batch, and the batch of zoom 9. *)
Definition task_10_tl : TileTask := the (new_tile_task 11 10 20 40 "continue") I.
Definition task_10_tr : TileTask := the (new_tile_task 12 10 20 41 "continue") I.
Definition task_10_bl : TileTask := the (new_tile_task 13 10 21 40 "continue") I.
Definition task_10_br : TileTask := the (new_tile_task 14 10 21 41 "continue") I.

Definition items_10 : list AnyTask :=
  [ATileTask task_10_br; ATileTask task_10_tl; ATileTask task_10_bl;
   ATileTask task_10_tr].

Definition new_batch (items : list AnyTask) : result TileTaskBatch :=
  TileTaskBatch_init "ba7c" (Some items) None None None.

(** Scenario S1: a single tile, no preprocessing tasks, no retries. *)
Definition result_1 : TaskResult :=
  {| tr_id := "tile_task_z8-10-20"; tr_process_msg := "processed" |}.

Definition mp_single_tile : Mapchete :=
  {| preprocessing_tasks_count := fun _ => 0;
     count_tiles := fun _ => 1;
     mp_compute := fun _ => ([result_1], None) |}.

Definition job (retries_ : Z) (mp : Mapchete) : ExecuteArgs :=
  {| arg_tile := true; workers := 4; retries := retries_;
     retry_on_exception := default_retry_on_exception;
     cancel_on_exception := default_cancel_on_exception;
     mapchete_open := Ok mp |}.

(** A job with nothing to do. *)
Definition mp_no_tasks : Mapchete :=
  {| preprocessing_tasks_count := fun _ => 0;
     count_tiles := fun _ => 0;
     mp_compute := fun _ => ([], None) |}.

(** A job whose only attempt fails. *)
Definition mp_always_fails : Mapchete :=
  {| preprocessing_tasks_count := fun _ => 0;
     count_tiles := fun _ => 2;
     mp_compute := fun _ => ([result_1], Some ValueError) |}.

(** Scenario S4: the task raises a generic exception on the first
    attempt and succeeds on the second. *)
Definition mp_fail_once : Mapchete :=
  {| preprocessing_tasks_count := fun _ => 0;
     count_tiles := fun _ => 1;
     mp_compute := fun attempt =>
       if decide (attempt = 1) then ([], Some (OtherError "RuntimeError"))
       else ([result_1], None) |}.

(** A job whose second attempt is cancelled: three tiles, the first
    attempt fails after one result, the second is cancelled after
    another. *)
Definition mp_cancelled : Mapchete :=
  {| preprocessing_tasks_count := fun _ => 0;
     count_tiles := fun _ => 3;
     mp_compute := fun attempt =>
       if decide (attempt = 1) then ([result_1], Some (OtherError "RuntimeError"))
       else ([result_1], Some JobCancelledError) |}.

Definition job_tiles (retries_ : Z) (mp : Mapchete) : ExecuteArgs :=
  {| arg_tile := false; workers := 4; retries := retries_;
     retry_on_exception := default_retry_on_exception;
     cancel_on_exception := default_cancel_on_exception;
     mapchete_open := Ok mp |}.

Definition batch_10 : TileTaskBatch := the (new_batch items_10) I.
Definition batch_9 : TileTaskBatch := the (new_batch [ATileTask task_9]) I.

(** Scenario S3 joined to S2: one preprocessing task covering the grid,
    the four tile tasks of zoom 10, and the tile task of zoom 9 above
    them. *)
Definition preprocessing_task : Task :=
  the (new_task 20 "src1:fetch" None (Some [0; -4096; 4096; 0])) I.

Definition preprocessing_batch : TaskBatch :=
  {| tb_id := "preprocessing_tasks";
     tb_tasks := [PlainTask preprocessing_task];
     tb_func := execute_task_wrapper_ref;
     tb_fkwargs := [] |}.

Definition graph_batches : list Batch :=
  [BTask preprocessing_batch; BTile batch_10; BTile batch_9].

Definition graph_nodes : list Delayed :=
  match to_dask_collection graph_batches None None with
  | Ok nodes => nodes
  | Raise _ => []
  end.

(** A node's task id with the keys of its dependencies. *)
Definition node_summary (node : Delayed) : string * list string :=
  (task_id (base_task (d_task node)), dict_keys (d_dependencies node)).

(** A configuration without baselevels in which every tile has three
    inputs, two of them under the same input key. *)
Definition inputs_3 : list (string * InputTile) :=
  [("file1", {| Toy.it_key := "src1"; Toy.it_results := [] |});
   ("file2", {| Toy.it_key := "src2"; Toy.it_results := [] |});
   ("file3", {| Toy.it_key := "src1"; Toy.it_results := [] |})].

Definition config_plain (process_ : ProcessFunc) : MapcheteConfig :=
  {| cfg_process_pyramid := pyramid;
     cfg_zoom_levels := [8; 9; 10; 11];
     cfg_baselevels := BLEmpty;
     cfg_process := process_;
     cfg_config_dir := "/jobs/example";
     cfg_get_inputs_for_tile := fun _ => inputs_3;
     cfg_get_process_func_params := fun _ => [];
     cfg_output_reader := reader;
     cfg_mode := "continue" |}.

(** A process that returns nothing, one that fails, and one that reports
    how many results its first input carries. *)
Definition silent_process : ProcessFunc := fun _ _ => Ok VNone.
Definition failing_process : ProcessFunc :=
  fun _ _ => Raise (OtherError "RuntimeError").
Definition counting_process : ProcessFunc :=
  fun ctx _ =>
    match mp_input ctx with
    | (_, inp) :: _ => Ok (VInt (Z.of_nat (length (Toy.it_results inp))))
    | [] => Ok (VInt 0)
    end.

Definition plain_tile_task (oid_ : nat) (process_ : ProcessFunc) (z r c : Z)
    : result TileTask :=
  TileTask_init oid_ "0f0e" (TileObj (tile_at z r c)) None
    (Some (config_plain process_)) None false None.

Definition task_silent : TileTask := the (plain_tile_task 31 silent_process 10 21 40) I.
Definition task_failing : TileTask := the (plain_tile_task 32 failing_process 10 21 40) I.
Definition task_counting : TileTask := the (plain_tile_task 33 counting_process 10 21 40) I.

(** The result of a preprocessing task. *)
Definition fetched : TaskInfo :=
  {| ti_id := Some "src1:fetch";
     ti_output := VData (Toy.Stored (tile_at 0 0 0));
     ti_processed := true;
     ti_tile := None |}.

(** A tile outside the zoom levels 8 to 11. *)
Definition task_12 : TileTask := the (new_tile_task 9 12 100 200 "continue") I.

(** A generator that yields a tile batch before the preprocessing
    batch. *)
Definition interleaved_batches : list Batch :=
  [BTile batch_10; BTask preprocessing_batch; BTile batch_9].

(** A job whose attempts fail after two of three results. *)
Definition result_2 : TaskResult :=
  {| tr_id := "tile_task_z8-10-21"; tr_process_msg := "processed" |}.
Definition result_3 : TaskResult :=
  {| tr_id := "tile_task_z8-11-20"; tr_process_msg := "processed" |}.

Definition mp_three_tiles : Mapchete :=
  {| preprocessing_tasks_count := fun _ => 0;
     count_tiles := fun _ => 3;
     mp_compute := fun _ => ([result_1; result_2; result_3], None) |}.

Definition mp_interrupted : Mapchete :=
  {| preprocessing_tasks_count := fun _ => 0;
     count_tiles := fun _ => 3;
     mp_compute := fun _ => ([result_1], Some KeyboardInterrupt) |}.

End Examples.
(** * Properties *)

(** Closed goals about the concrete world are settled by evaluation. *)
Ltac by_computation := vm_compute; reflexivity.

(** ** Dictionaries *)

Section dict_facts.
Context {K V : Type} `{EqDecision K}.
Implicit Types (k : K) (v : V) (d kvs : list (K * V)).

Lemma dict_get_set_eq k v d : dict_get k (dict_set k v d) = Some v.
Proof.
  induction d as [|[k' v'] d IH]; simpl.
  - by rewrite decide_True.
  - destruct (decide (k = k')) as [->|Hne]; simpl.
    + by rewrite decide_True.
    + by rewrite decide_False.
Qed.

Lemma dict_get_set_ne k k' v d :
  k ≠ k' → dict_get k' (dict_set k v d) = dict_get k' d.
Proof.
  intros Hne. induction d as [|[k0 v0] d IH]; simpl.
  - by rewrite decide_False.
  - destruct (decide (k = k0)) as [->|Hne0]; simpl.
    + by rewrite !decide_False.
    + destruct (decide (k' = k0)); [done|apply IH].
Qed.

Lemma dict_keys_set k v d :
  dict_keys (dict_set k v d) =
  if bool_decide (k ∈ dict_keys d) then dict_keys d else dict_keys d ++ [k].
Proof.
  unfold dict_keys. induction d as [|[k' v'] d IH]; csimpl; [done|].
  destruct (decide (k = k')) as [->|Hne]; csimpl.
  - rewrite bool_decide_true; [done|left].
  - rewrite IH. destruct (bool_decide_reflect (k ∈ d.*1)) as [Hin|Hin].
    + rewrite bool_decide_true; [done|by right].
    + rewrite bool_decide_false; [done|].
      intros [?|?]%elem_of_cons; done.
Qed.

Lemma dict_set_NoDup k v d : NoDup (dict_keys d) → NoDup (dict_keys (dict_set k v d)).
Proof.
  intros Hd. rewrite dict_keys_set. case_bool_decide as Hin; [done|].
  apply NoDup_app. split_and!; [done| |apply NoDup_singleton].
  intros x Hx ->%list_elem_of_singleton. done.
Qed.

Lemma dict_get_Some_keys k v d : dict_get k d = Some v → k ∈ dict_keys d.
Proof.
  unfold dict_keys. induction d as [|[k' v'] d IH]; csimpl; [done|].
  destruct (decide (k = k')) as [->|Hne]; [left|right; auto].
Qed.

Lemma dict_get_None_keys k d : dict_get k d = None ↔ k ∉ dict_keys d.
Proof.
  unfold dict_keys. induction d as [|[k' v'] d IH]; csimpl.
  - split; [intros _ []%elem_of_nil|done].
  - destruct (decide (k = k')) as [->|Hne].
    + split; [done|intros []; left].
    + rewrite IH. rewrite not_elem_of_cons. naive_solver.
Qed.

Lemma dict_get_elem_of k v d : dict_get k d = Some v → (k, v) ∈ d.
Proof.
  induction d as [|[k' v'] d IH]; csimpl; [done|].
  destruct (decide (k = k')) as [->|Hne].
  - intros [= ->]. left.
  - right. auto.
Qed.

Lemma dict_update_NoDup d kvs : NoDup (dict_keys d) → NoDup (dict_keys (dict_update d kvs)).
Proof.
  revert d. induction kvs as [|[k v] kvs IH]; intros d Hd; csimpl; [done|].
  apply IH. by apply dict_set_NoDup.
Qed.

Lemma dict_update_keys d kvs k :
  k ∈ dict_keys (dict_update d kvs) ↔ k ∈ dict_keys d ∨ k ∈ kvs.*1.
Proof.
  revert d. induction kvs as [|[k' v'] kvs IH]; intros d; csimpl.
  - rewrite elem_of_nil. naive_solver.
  - rewrite IH, dict_keys_set, elem_of_cons. case_bool_decide as Hin.
    + naive_solver.
    + rewrite elem_of_app, list_elem_of_singleton. naive_solver.
Qed.

Lemma dict_update_get d kvs k v :
  dict_get k (dict_update d kvs) = Some v →
  dict_get k d = Some v ∨ (k, v) ∈ kvs.
Proof.
  revert d. induction kvs as [|[k' v'] kvs IH]; intros d; csimpl; [by left|].
  intros [Hget|Hin]%IH.
  - destruct (decide (k' = k)) as [->|Hne].
    + rewrite dict_get_set_eq in Hget. injection Hget as ->. right. left.
    + rewrite dict_get_set_ne in Hget by done. by left.
  - right. by right.
Qed.

(** When the keys of [kvs] are pairwise distinct, the comprehension is
    the list itself, in order. *)
Lemma dict_set_fresh k v d : k ∉ dict_keys d → dict_set k v d = d ++ [(k, v)].
Proof.
  unfold dict_keys. induction d as [|[k' v'] d IH]; csimpl; [done|].
  intros [Hne Hin]%not_elem_of_cons. rewrite decide_False by done.
  by rewrite IH.
Qed.

Lemma dict_update_fresh d kvs :
  NoDup (dict_keys d ++ kvs.*1) → dict_update d kvs = d ++ kvs.
Proof.
  revert d. induction kvs as [|[k v] kvs IH]; intros d Hnd; csimpl.
  - by rewrite app_nil_r.
  - csimpl in Hnd. rewrite dict_set_fresh.
    + rewrite IH.
      * by rewrite <-app_assoc.
      * unfold dict_keys in *. rewrite fmap_app. csimpl.
        by rewrite <-app_assoc.
    + apply NoDup_app in Hnd as (_ & Hdisj & _). intros Hin.
      apply (Hdisj k Hin). left.
Qed.

Lemma dict_of_list_fresh kvs : NoDup kvs.*1 → dict_of_list kvs = kvs.
Proof. intros Hnd. unfold dict_of_list. by rewrite dict_update_fresh. Qed.

End dict_facts.

(** ** The logging monad *)

Section monad_facts.

Lemma M_eta {A} (m : M A) : MkM (trace m) (outcome m) = m.
Proof. by destruct m. Qed.

Lemma bind_Ok {A B} (m : M A) (f : A → M B) a :
  outcome m = Ok a →
  m ≫= f = MkM (trace m ++ trace (f a)) (outcome (f a)).
Proof. intros H. unfold mbind, M_bind. by rewrite H. Qed.

Lemma bind_Raise {A B} (m : M A) (f : A → M B) e :
  outcome m = Raise e → m ≫= f = MkM (trace m) (Raise e).
Proof. intros H. unfold mbind, M_bind. by rewrite H. Qed.

Lemma bind_lift_Ok {A B} (a : A) (f : A → M B) : lift (Ok a) ≫= f = f a.
Proof. unfold mbind, M_bind, lift. simpl. by destruct (f a). Qed.

Lemma bind_lift_Raise {A B} e (f : A → M B) : lift (Raise e) ≫= f = raise e.
Proof. done. Qed.

Lemma bind_MkM_Ok {A B} tr (a : A) (f : A → M B) :
  MkM tr (Ok a) ≫= f = MkM (tr ++ trace (f a)) (outcome (f a)).
Proof. done. Qed.

Lemma bind_MkM_Raise {A B} tr e (f : A → M B) :
  MkM tr (Raise e) ≫= f = MkM tr (Raise e).
Proof. done. Qed.

Lemma bind_mret {A B} (a : A) (f : A → M B) : mret a ≫= f = f a.
Proof. apply bind_lift_Ok. Qed.

(** Every event of [m ≫= f] is an event of [m] or of some [f a]. *)
Lemma trace_bind {A B} (P : Event → Prop) (m : M A) (f : A → M B) :
  Forall P (trace m) → (∀ a, Forall P (trace (f a))) →
  Forall P (trace (m ≫= f)).
Proof.
  intros Hm Hf. unfold mbind, M_bind. destruct (outcome m); simpl; [|done].
  apply Forall_app. auto.
Qed.

Lemma trace_foldM {A S} (P : Event → Prop) (f : S → A → M S) s xs :
  (∀ s x, Forall P (trace (f s x))) → Forall P (trace (foldM f s xs)).
Proof.
  intros Hf. revert s. induction xs as [|x xs IH]; intros s; simpl.
  - constructor.
  - apply trace_bind; auto.
Qed.

End monad_facts.

(** ** Tile tasks *)

Section tile_task_facts.
Context {T : Types} {W : World}.

Lemma trace_lift {A} (P : Event → Prop) (r : result A) : Forall P (trace (lift r)).
Proof. constructor. Qed.

Lemma trace_read reader t : Forall is_read (trace (read reader t)).
Proof.
  unfold read. apply trace_bind; [|intros; apply trace_lift].
  repeat constructor. by exists t.
Qed.

Lemma read_Ok reader t data :
  reader_read reader t = Ok data → read reader t = MkM [EvRead t] (Ok data).
Proof. intros H. unfold read, emit. rewrite bind_MkM_Ok, H. done. Qed.

Lemma trace_extract_dependency reader src task_info :
  Forall is_read (trace (extract_dependency reader src task_info)).
Proof.
  unfold extract_dependency. apply trace_bind; [apply trace_lift|].
  intros dep_tile. apply trace_foldM. intros src' output_tile.
  destruct (ti_output task_info); try constructor;
    (apply trace_bind; [apply trace_lift|intros; constructor]).
Qed.

Lemma trace_read_missing reader src child_tile :
  Forall is_read (trace (read_missing reader src child_tile)).
Proof.
  unfold read_missing. destruct (dict_contains child_tile src); [constructor|].
  apply trace_bind; [apply trace_read|intros; constructor].
Qed.

Lemma trace_gather_src_tiles reader output_tiles dependencies :
  Forall is_read (trace (gather_src_tiles reader output_tiles dependencies)).
Proof.
  unfold gather_src_tiles.
  apply trace_bind; [apply trace_foldM, trace_extract_dependency|].
  intros src. apply trace_bind; [apply trace_lift|].
  intros children. apply trace_foldM, trace_read_missing.
Qed.

(** Interpolation only reads the output store: it never calls the user
    process and attaches nothing to the inputs. *)
Lemma trace_interpolate_from_baselevel self baselevel dependencies :
  Forall is_read (trace (_interpolate_from_baselevel self baselevel dependencies)).
Proof.
  unfold _interpolate_from_baselevel.
  destruct (config_baselevels self) as [| |bl]; [constructor..|].
  apply trace_bind; [apply trace_lift|]. intros tile'.
  apply trace_bind; [apply trace_lift|]. intros reader.
  apply trace_bind; [apply trace_lift|]. intros output_tiles.
  destruct baselevel.
  - apply trace_bind; [apply trace_gather_src_tiles|]. intros src.
    repeat (apply trace_bind; [apply trace_lift|intros ?]). constructor.
  - apply trace_bind; [apply trace_lift|]. intros parent.
    apply trace_bind; [apply trace_read|]. intros data.
    repeat (apply trace_bind; [apply trace_lift|intros ?]). constructor.
Qed.

Lemma is_read_not_process_call tr :
  Forall is_read tr → Forall (fun ev => ¬ is_process_call ev) tr.
Proof.
  intros Htr. eapply Forall_impl; [exact Htr|].
  intros ev [t ->] [t' ?]. discriminate.
Qed.

(** What the "lower" branch returns once its source tiles are
    gathered. *)
Lemma interpolate_lower_result self dependencies bl reader tile' output_tiles
    tr src_tiles nodata mosaic process_data :
  config_baselevels self = BLDict bl →
  output_reader self = Some reader →
  tp_tile (bl_tile_pyramid bl) (zoom (tile self)) (row (tile self)) (col (tile self))
    = Ok tile' →
  (if pixelbuffer tile' >? tp_pixelbuffer (reader_pyramid reader)
   then tiles_from_bounds (reader_pyramid reader)
          (bounds_tuple (tile_bounds tile')) (zoom tile')
   else Ok (intersecting (reader_pyramid reader) tile')) = Ok output_tiles →
  gather_src_tiles reader output_tiles dependencies = MkM tr (Ok src_tiles) →
  getitem (reader_output_params reader) "nodata" = Ok nodata →
  create_mosaic src_tiles nodata = Ok mosaic →
  resample_from_array mosaic None (tile self) (bl_lower bl) nodata = Ok process_data →
  _interpolate_from_baselevel self lower dependencies
    = MkM tr (Ok (VData process_data)).
Proof.
  intros Hbl Hreader Htile Hout Hsrc Hnodata Hmosaic Hres.
  unfold _interpolate_from_baselevel.
  rewrite Hbl, Htile, bind_lift_Ok, Hreader. simpl from_option.
  rewrite bind_lift_Ok, Hout, bind_lift_Ok, Hsrc, bind_MkM_Ok.
  rewrite Hnodata, !bind_lift_Ok, Hmosaic, !bind_lift_Ok, Hres, !bind_lift_Ok.
  simpl. by rewrite app_nil_r.
Qed.

End tile_task_facts.

Section tile_task_claims.
Context {T : Types} {W : World}.

Lemma foldl_min_le x l : foldl Z.min x l ≤ x.
Proof.
  revert x. induction l as [|y l IH]; intros x; simpl; [lia|].
  specialize (IH (Z.min x y)). lia.
Qed.

Lemma le_foldl_max x l : x ≤ foldl Z.max x l.
Proof.
  revert x. induction l as [|y l IH]; intros x; simpl; [lia|].
  specialize (IH (Z.max x y)). lia.
Qed.

Lemma py_min_le_py_max l lowest highest :
  py_min l = Ok lowest → py_max l = Ok highest → lowest ≤ highest.
Proof.
  destruct l as [|x l]; [done|]. intros [= <-] [= <-].
  pose proof (foldl_min_le x l). pose proof (le_foldl_max x l). lia.
Qed.

(** C1 (amended).  When baselevels are configured and the tile's zoom is
    strictly below the lowest baselevel zoom, [_execute] takes the
    branch [_interpolate_from_baselevel("lower", dependencies)]: it only
    reads the output store (the user process is not called), and once
    the child rasters are gathered - from the outputs of the
    dependencies, otherwise from the output reader - it returns their
    mosaic resampled to the task's tile with the method
    [baselevels["lower"]] and the output's no-data value. *)
Theorem TileTask__execute_below_baselevels
    (self : TileTask) (dependencies : list (string * TaskInfo))
    (bl : Baselevels) (lowest : Z) :
  config_baselevels self = BLDict bl →
  py_min (bl_zooms bl) = Ok lowest →
  zoom (tile self) < lowest →
  TileTask__execute self dependencies
    = _interpolate_from_baselevel self lower dependencies
  ∧ Forall (fun ev => is_read ev ∧ ¬ is_process_call ev)
      (trace (TileTask__execute self dependencies))
  ∧ ∀ reader tile' output_tiles tr src_tiles nodata mosaic process_data,
      output_reader self = Some reader →
      tp_tile (bl_tile_pyramid bl)
        (zoom (tile self)) (row (tile self)) (col (tile self)) = Ok tile' →
      (if pixelbuffer tile' >? tp_pixelbuffer (reader_pyramid reader)
       then tiles_from_bounds (reader_pyramid reader)
              (bounds_tuple (tile_bounds tile')) (zoom tile')
       else Ok (intersecting (reader_pyramid reader) tile')) = Ok output_tiles →
      gather_src_tiles reader output_tiles dependencies = MkM tr (Ok src_tiles) →
      getitem (reader_output_params reader) "nodata" = Ok nodata →
      create_mosaic src_tiles nodata = Ok mosaic →
      resample_from_array mosaic None (tile self) (bl_lower bl) nodata
        = Ok process_data →
      TileTask__execute self dependencies = MkM tr (Ok (VData process_data)).
Proof.
  intros Hbl Hmin Hlt.
  assert (Hpath : TileTask__execute self dependencies
                  = _interpolate_from_baselevel self lower dependencies).
  { unfold TileTask__execute. rewrite Hbl, Hmin, bind_lift_Ok.
    by rewrite (proj2 (Z.ltb_lt _ _) Hlt). }
  split; [exact Hpath|]. split.
  - rewrite Hpath.
    pose proof (trace_interpolate_from_baselevel self lower dependencies) as Hr.
    pose proof (is_read_not_process_call _ Hr) as Hn.
    rewrite Forall_forall in Hr, Hn. apply Forall_forall. auto.
  - intros. rewrite Hpath. by eapply interpolate_lower_result.
Qed.

(** Above the highest baselevel zoom the other branch is taken: the
    parent tile is read from the output reader and resampled with
    [baselevels["higher"]]. *)
Lemma TileTask__execute_above_baselevels
    (self : TileTask) (dependencies : list (string * TaskInfo))
    (bl : Baselevels) (highest : Z) :
  config_baselevels self = BLDict bl →
  py_max (bl_zooms bl) = Ok highest →
  highest < zoom (tile self) →
  TileTask__execute self dependencies
    = _interpolate_from_baselevel self higher dependencies
  ∧ ∀ reader tile' output_tiles parent_tile data nodata process_data,
      output_reader self = Some reader →
      tp_tile (bl_tile_pyramid bl)
        (zoom (tile self)) (row (tile self)) (col (tile self)) = Ok tile' →
      (if pixelbuffer tile' >? tp_pixelbuffer (reader_pyramid reader)
       then tiles_from_bounds (reader_pyramid reader)
              (bounds_tuple (tile_bounds tile')) (zoom tile')
       else Ok (intersecting (reader_pyramid reader) tile')) = Ok output_tiles →
      get_parent (tile self) = Some parent_tile →
      reader_read reader parent_tile = Ok data →
      getitem (reader_output_params reader) "nodata" = Ok nodata →
      resample_from_array data (Some (tile_affine parent_tile)) (tile self)
        (bl_higher bl) nodata = Ok process_data →
      TileTask__execute self dependencies
        = MkM [EvRead parent_tile] (Ok (VData process_data)).
Proof.
  intros Hbl Hmax Hlt.
  assert (Hpath : TileTask__execute self dependencies
                  = _interpolate_from_baselevel self higher dependencies).
  { unfold TileTask__execute. rewrite Hbl.
    destruct (py_min (bl_zooms bl)) as [lowest|e] eqn:Hmin.
    - pose proof (py_min_le_py_max _ _ _ Hmin Hmax).
      rewrite bind_lift_Ok, Hmax, bind_lift_Ok.
      rewrite (proj2 (Z.ltb_ge _ _)) by lia.
      by rewrite (proj2 (Z.gtb_lt _ _)) by lia.
    - destruct (bl_zooms bl); discriminate. }
  split; [exact Hpath|].
  intros reader tile' output_tiles parent_tile data nodata process_data
    Hreader Htile Hout Hparent Hread Hnodata Hres.
  rewrite Hpath. unfold _interpolate_from_baselevel.
  rewrite Hbl, Htile, bind_lift_Ok, Hreader. simpl from_option.
  rewrite bind_lift_Ok, Hout, bind_lift_Ok, Hparent. simpl from_option.
  rewrite bind_lift_Ok, (read_Ok _ _ _ Hread), bind_MkM_Ok.
  rewrite Hnodata, !bind_lift_Ok, Hres, !bind_lift_Ok. done.
Qed.

(** C10.  A tile task whose mode is not one of "memory", "continue",
    "overwrite" - "readonly" in particular - fails in [execute] with a
    [ValueError] and an empty trace: nothing was read, attached or
    processed, and the zoom levels were not consulted (the result does
    not depend on them).  Conversely a task that returns a result has
    one of the three modes. *)
Theorem TileTask_execute_mode_check
    (self : TileTask) (dependencies : option (list (string * TaskInfo))) :
  (mode_allowed (mode self) = false →
     TileTask_execute self dependencies = MkM [] (Raise ValueError))
  ∧ (mode self = Some (ProcessingMode_value READONLY) →
     TileTask_execute self dependencies = MkM [] (Raise ValueError))
  ∧ (∀ tr info,
       TileTask_execute self dependencies = MkM tr (Ok info) →
       mode self ∈ [Some "memory"; Some "continue"; Some "overwrite"]).
Proof.
  assert (Hbad : mode_allowed (mode self) = false →
                 TileTask_execute self dependencies = MkM [] (Raise ValueError)).
  { intros Hmode. unfold TileTask_execute. by rewrite Hmode. }
  split_and!.
  - exact Hbad.
  - intros Hmode. apply Hbad. by rewrite Hmode.
  - intros tr info Hrun. unfold mode_allowed in Hbad.
    destruct (decide (mode self ∈ [Some "memory"; Some "continue"; Some "overwrite"]))
      as [Hin|Hnin]; [done|].
    rewrite Hbad in Hrun; [done|]. by apply bool_decide_eq_false.
Qed.

(** C8 (amended).  A tile task constructed with [skip=True] carries no
    bindings: its input, parameter and output dictionaries are empty and
    its process, mode, zoom levels, baselevels and output reader are
    [None].  Executing it does not reach the user process: [execute]
    fails the mode check with a [ValueError] (the mode of a skipped task
    is [None]) and leaves an empty trace, and the tile-task wrapper
    passes that error on. *)
Theorem TileTask_skip
    (oid_ : nat) (uuid : string) (tile_arg : TileLike) (id : option string)
    (config : option MapcheteConfig) (func : option Callable)
    (deps : option (list (string * TaskInfo))) (task : TileTask) :
  TileTask_init oid_ uuid tile_arg id config func true deps = Ok task →
  (skip task = true ∧ input task = [] ∧ process_func_params task = []
   ∧ output_params task = [] ∧ process task = None ∧ mode task = None
   ∧ config_zoom_levels task = None ∧ config_baselevels task = BLNone
   ∧ output_reader task = None)
  ∧ ∀ dependencies,
      TileTask_execute task dependencies = MkM [] (Raise ValueError)
      ∧ _execute_tile_task_wrapper task dependencies = MkM [] (Raise ValueError).
Proof.
  intros Hinit. unfold TileTask_init in Hinit.
  destruct tile_arg as [t|z r c].
  - destruct (Task_init _ _ _ _ _ _ _ _ _ _) as [base|e]; [|done].
    injection Hinit as <-. split; [done|].
    intros dependencies.
    assert (He : TileTask_execute
                   {| tt_task := base; tile := t; skip := true;
                      config_zoom_levels := None; config_baselevels := BLNone;
                      process := None; config_dir := None; input := [];
                      process_func_params := []; output_params := [];
                      mode := None; output_reader := None |} dependencies
                 = MkM [] (Raise ValueError)) by done.
    split; [exact He|].
    unfold _execute_tile_task_wrapper, try_except. by rewrite He.
  - destruct config as [cfg|]; [|done].
    by destruct (tp_tile _ _ _ _).
Qed.

(** C4.  The tile-task wrapper turns a no-data outcome into the value
    ["empty"]: whenever [execute] raises the no-data exception the
    wrapper returns ["empty"] with the same trace - in particular when
    the process output computed by [_execute] is the string ["empty"],
    or when computing it raises no-data, as when the user process of a
    task that is not interpolated raises it.
    When the process output is neither ["empty"] nor [None], the wrapper
    returns [TaskInfo(output, processed=True, tile=self.tile)]. *)
Theorem execute_tile_task_wrapper_nodata
    (task : TileTask) (dependencies : option (list (string * TaskInfo))) :
  (∀ tr, TileTask_execute task dependencies = MkM tr (Raise MapcheteNodataTile) →
         _execute_tile_task_wrapper task dependencies = MkM tr (Ok (WStr "empty")))
  ∧ (∀ zoom_levels,
       mode_allowed (mode task) = true →
       config_zoom_levels task = Some zoom_levels →
       zoom (tile task) ∈ zoom_levels →
       (∀ tr, TileTask__execute task (default [] dependencies)
                = MkM tr (Raise MapcheteNodataTile) →
              _execute_tile_task_wrapper task dependencies
                = MkM tr (Ok (WStr "empty")))
       ∧ (∀ tr, TileTask__execute task (default [] dependencies)
                  = MkM tr (Ok (VStr "empty")) →
                _execute_tile_task_wrapper task dependencies
                  = MkM tr (Ok (WStr "empty")))
       ∧ (∀ tr output,
            TileTask__execute task (default [] dependencies) = MkM tr (Ok output) →
            output ≠ VStr "empty" → output ≠ VNone →
            _execute_tile_task_wrapper task dependencies
              = MkM tr (Ok (WInfo {| ti_id := None; ti_output := output;
                                     ti_processed := true;
                                     ti_tile := Some (tile task) |}))))
  ∧ (∀ zoom_levels user_process,
       mode_allowed (mode task) = true →
       config_zoom_levels task = Some zoom_levels →
       zoom (tile task) ∈ zoom_levels →
       (∀ bl, config_baselevels task = BLDict bl →
              ∃ lowest highest,
                py_min (bl_zooms bl) = Ok lowest ∧ py_max (bl_zooms bl) = Ok highest
                ∧ lowest ≤ zoom (tile task) ≤ highest) →
       default [] dependencies = [] →
       process task = Some user_process →
       user_process
         {| mp_tile := tile task; mp_params := process_func_params task;
            mp_input := input task; mp_output_params := output_params task |}
         (process_func_params task) = Raise MapcheteNodataTile →
       _execute_tile_task_wrapper task dependencies
         = MkM [EvProcess (tile task)] (Ok (WStr "empty"))).
Proof.
  assert (Hwrap : ∀ tr,
    TileTask_execute task dependencies = MkM tr (Raise MapcheteNodataTile) →
    _execute_tile_task_wrapper task dependencies = MkM tr (Ok (WStr "empty"))).
  { intros tr He. unfold _execute_tile_task_wrapper, try_except.
    rewrite He, bind_MkM_Raise. simpl. by rewrite app_nil_r. }
  assert (Hexec : ∀ zoom_levels,
    mode_allowed (mode task) = true →
    config_zoom_levels task = Some zoom_levels →
    zoom (tile task) ∈ zoom_levels →
    TileTask_execute task dependencies
    = process_output ← TileTask__execute task (default [] dependencies);
      match process_output with
      | VNone => raise MapcheteProcessOutputError
      | VStr s =>
          if decide (s = "empty") then raise MapcheteNodataTile
          else mret {| ti_id := None; ti_output := process_output;
                       ti_processed := true; ti_tile := Some (tile task) |}
      | _ => mret {| ti_id := None; ti_output := process_output;
                     ti_processed := true; ti_tile := Some (tile task) |}
      end).
  { intros zl Hmode Hzl Hin. unfold TileTask_execute.
    rewrite Hmode, Hzl. simpl negb. cbv iota.
    rewrite bind_lift_Ok, bool_decide_true by done. done. }
  split; [exact Hwrap|]. split.
  - intros zl Hmode Hzl Hin. specialize (Hexec zl Hmode Hzl Hin). split_and!.
    + intros tr Hrun. apply Hwrap. by rewrite Hexec, Hrun.
    + intros tr Hrun. apply Hwrap. rewrite Hexec, Hrun, bind_MkM_Ok. simpl.
      by rewrite app_nil_r.
    + intros tr output Hrun Hne Hnn.
      unfold _execute_tile_task_wrapper, try_except.
      rewrite Hexec, Hrun, bind_MkM_Ok.
      destruct output as [|s|z|r]; [done| | |].
      * rewrite decide_False by congruence.
        unfold mbind, M_bind. simpl. by rewrite !app_nil_r.
      * unfold mbind, M_bind. simpl. by rewrite !app_nil_r.
      * unfold mbind, M_bind. simpl. by rewrite !app_nil_r.
  - intros zl user_process Hmode Hzl Hin Hbl Hdeps Hproc Hraise.
    apply Hwrap. rewrite (Hexec zl Hmode Hzl Hin), Hdeps.
    assert (Hrun : TileTask__execute task [] = run_process task []).
    { unfold TileTask__execute.
      destruct (config_baselevels task) as [| |bl]; [done..|].
      destruct (Hbl bl eq_refl) as (lowest & highest & -> & -> & Hlo & Hhi).
      rewrite !bind_lift_Ok, (proj2 (Z.ltb_ge _ _)) by lia.
      destruct (Z.gtb_spec (zoom (tile task)) highest); [lia|done]. }
    rewrite Hrun. unfold run_process.
    rewrite bind_mret, Hproc. simpl from_option.
    rewrite bind_lift_Ok. unfold emit. rewrite bind_MkM_Ok, Hraise. done.
Qed.

End tile_task_claims.

(** *** The tile-task claims on concrete tasks *)

Section tile_task_examples.
Import Examples.
#[local] Existing Instance Toy.types.
#[local] Existing Instance Toy.world.

(** The task at (9, 10, 20) lies below baselevel 10 and has the result of
    its child (10, 20, 40) as a dependency: that child's raster is cut
    from the dependency, the other three are read from the store, and
    the mosaic is resampled with "bilinear". *)
Lemma TileTask__execute_below_baselevels_witness :
  config_baselevels task_9 = BLDict baselevels_10
  ∧ py_min (bl_zooms baselevels_10) = Ok 10
  ∧ zoom (tile task_9) < 10
  ∧ TileTask__execute task_9 deps_9
    = MkM [EvRead (tile_at 10 20 41); EvRead (tile_at 10 21 40);
           EvRead (tile_at 10 21 41)]
        (Ok (VData
               (Toy.Resampled
                  (Toy.Mosaic
                     [(tile_at 10 20 40,
                       Toy.Extracted (Toy.Computed (tile_at 10 20 40)) (tile_at 10 20 40));
                      (tile_at 10 20 41, Toy.Stored (tile_at 10 20 41));
                      (tile_at 10 21 40, Toy.Stored (tile_at 10 21 40));
                      (tile_at 10 21 41, Toy.Stored (tile_at 10 21 41))]
                     (Some 0))
                  "bilinear" (tile_at 9 10 20) (Some 0)))).
Proof.
  split_and!; [by_computation..|].
  assert (Hbl : config_baselevels task_9 = BLDict baselevels_10) by by_computation.
  assert (Hmin : py_min (bl_zooms baselevels_10) = Ok 10) by by_computation.
  assert (Hlt : zoom (tile task_9) < 10) by by_computation.
  apply (proj2 (proj2 (TileTask__execute_below_baselevels
                         task_9 deps_9 baselevels_10 10 Hbl Hmin Hlt))
           reader (tile_at 9 10 20) [tile_at 9 10 20]
           [EvRead (tile_at 10 20 41); EvRead (tile_at 10 21 40);
            EvRead (tile_at 10 21 41)]
           [(tile_at 10 20 40,
             Toy.Extracted (Toy.Computed (tile_at 10 20 40)) (tile_at 10 20 40));
            (tile_at 10 20 41, Toy.Stored (tile_at 10 20 41));
            (tile_at 10 21 40, Toy.Stored (tile_at 10 21 40));
            (tile_at 10 21 41, Toy.Stored (tile_at 10 21 41))]
           (VInt 0)
           (Toy.Mosaic
              [(tile_at 10 20 40,
                Toy.Extracted (Toy.Computed (tile_at 10 20 40)) (tile_at 10 20 40));
               (tile_at 10 20 41, Toy.Stored (tile_at 10 20 41));
               (tile_at 10 21 40, Toy.Stored (tile_at 10 21 40));
               (tile_at 10 21 41, Toy.Stored (tile_at 10 21 41))]
              (Some 0)));
    by_computation.
Defined.

(** The claim as stated fails on the same task: nothing is read from the
    parent tile (8, 5, 10) and the method is not "nearest"; the result
    differs from what the "higher" branch would give. *)
Lemma TileTask__execute_below_baselevels_counterexample :
  config_baselevels task_9 = BLDict baselevels_10
  ∧ zoom (tile task_9) < 10
  ∧ Toy.get_parent (tile task_9) = Some (tile_at 8 5 10)
  ∧ trace (TileTask__execute task_9 [])
    = [EvRead (tile_at 10 20 40); EvRead (tile_at 10 20 41);
       EvRead (tile_at 10 21 40); EvRead (tile_at 10 21 41)]
  ∧ _interpolate_from_baselevel task_9 higher []
    = MkM [EvRead (tile_at 8 5 10)]
        (Ok (VData (Toy.Resampled (Toy.Stored (tile_at 8 5 10))
                      "nearest" (tile_at 9 10 20) (Some 0))))
  ∧ TileTask__execute task_9 [] ≠ _interpolate_from_baselevel task_9 higher [].
Proof. split_and!; [by_computation..|]. vm_compute. discriminate. Qed.

(** The task at (11, 42, 80) lies above baselevel 10: its parent
    (10, 21, 40) is read and resampled with "nearest". *)
Lemma TileTask__execute_above_baselevels_witness :
  config_baselevels task_11 = BLDict baselevels_10
  ∧ py_max (bl_zooms baselevels_10) = Ok 10
  ∧ 10 < zoom (tile task_11)
  ∧ TileTask__execute task_11 []
    = MkM [EvRead (tile_at 10 21 40)]
        (Ok (VData (Toy.Resampled (Toy.Stored (tile_at 10 21 40))
                      "nearest" (tile_at 11 42 80) (Some 0)))).
Proof.
  assert (Hbl : config_baselevels task_11 = BLDict baselevels_10) by by_computation.
  assert (Hmax : py_max (bl_zooms baselevels_10) = Ok 10) by by_computation.
  assert (Hlt : 10 < zoom (tile task_11)) by by_computation.
  split_and!; [exact Hbl|exact Hmax|exact Hlt|].
  apply (proj2 (TileTask__execute_above_baselevels
                  task_11 [] baselevels_10 10 Hbl Hmax Hlt)
           reader (tile_at 11 42 80) [tile_at 11 42 80] (tile_at 10 21 40)
           (Toy.Stored (tile_at 10 21 40)) (VInt 0));
    by_computation.
Defined.

Lemma TileTask_execute_mode_check_witness :
  mode task_readonly = Some (ProcessingMode_value READONLY)
  ∧ mode_allowed (mode task_readonly) = false
  ∧ TileTask_execute task_readonly None = MkM [] (Raise ValueError).
Proof.
  split_and!; [by_computation..|].
  apply (TileTask_execute_mode_check task_readonly None). by_computation.
Defined.

Lemma TileTask_skip_witness :
  skipped_tile_task 8 10 21 40 = Ok task_skipped
  ∧ input task_skipped = [] ∧ output_params task_skipped = []
  ∧ process task_skipped = None
  ∧ TileTask_execute task_skipped None = MkM [] (Raise ValueError).
Proof.
  assert (Hinit : skipped_tile_task 8 10 21 40 = Ok task_skipped) by by_computation.
  split; [exact Hinit|].
  destruct (TileTask_skip 8 "0f0e" (TileObj (tile_at 10 21 40)) None None None None
              task_skipped Hinit)
    as [(_ & Hin & _ & Hout & Hproc & _) Hrun].
  split_and!; [exact Hin|exact Hout|exact Hproc|exact (proj1 (Hrun None))].
Defined.

(** Executing a skipped task is not a no-data outcome: [execute] raises
    [ValueError], and the wrapper does not return ["empty"]. *)
Lemma TileTask_skip_counterexample :
  skipped_tile_task 8 10 21 40 = Ok task_skipped
  ∧ skip task_skipped = true
  ∧ outcome (TileTask_execute task_skipped None) = Raise ValueError
  ∧ outcome (TileTask_execute task_skipped None) ≠ Raise MapcheteNodataTile
  ∧ outcome (_execute_tile_task_wrapper task_skipped None) ≠ Ok (WStr "empty").
Proof. split_and!; [by_computation..| |]; vm_compute; discriminate. Qed.

(** The three outcomes of the example process at baselevel 10: no-data
    raised (odd column), the string ["empty"] returned (row 0), and a
    raster. *)
Lemma execute_tile_task_wrapper_nodata_witness :
  _execute_tile_task_wrapper task_10_odd None
    = MkM [EvProcess (tile_at 10 20 41)] (Ok (WStr "empty"))
  ∧ _execute_tile_task_wrapper task_10_empty None
    = MkM [EvProcess (tile_at 10 0 40)] (Ok (WStr "empty"))
  ∧ _execute_tile_task_wrapper task_10_data None
    = MkM [EvProcess (tile_at 10 21 40)]
        (Ok (WInfo {| ti_id := None;
                      ti_output := VData (Toy.Computed (tile_at 10 21 40));
                      ti_processed := true;
                      ti_tile := Some (tile_at 10 21 40) |})).
Proof.
  assert (Hin : (10 : Z) ∈ [8; 9; 10; 11]) by (by apply (bool_decide_unpack _)).
  assert (Hmode : ∀ r c oid_,
    mode_allowed (mode (the (new_tile_task oid_ 10 r c "continue") I)) = true)
    by (intros; reflexivity).
  assert (Hzl : ∀ r c oid_,
    config_zoom_levels (the (new_tile_task oid_ 10 r c "continue") I)
    = Some [8; 9; 10; 11]) by (intros; reflexivity).
  split_and!.
  - apply (proj2 (proj2 (execute_tile_task_wrapper_nodata task_10_odd None))
             [8; 9; 10; 11] user_process);
      [apply Hmode|apply Hzl|exact Hin| |by_computation..].
    intros bl Hbl. vm_compute in Hbl. injection Hbl as <-. exists 10, 10.
    split_and!; [by_computation..|vm_compute; discriminate|vm_compute; discriminate].
  - apply (proj1 (proj2 (proj1 (proj2
             (execute_tile_task_wrapper_nodata task_10_empty None))
             [8; 9; 10; 11] (Hmode _ _ _) (Hzl _ _ _) Hin))).
    by_computation.
  - apply (proj2 (proj2 (proj1 (proj2
             (execute_tile_task_wrapper_nodata task_10_data None))
             [8; 9; 10; 11] (Hmode _ _ _) (Hzl _ _ _) Hin))
             [EvProcess (tile_at 10 21 40)]
             (VData (Toy.Computed (tile_at 10 21 40))));
      [by_computation|discriminate|discriminate].
Defined.

End tile_task_examples.

(** ** Task construction *)

Section task_claims.
Context {T : Types} {W : World}.

Lemma truthy_geometry_Some geometry :
  truthy_geometry geometry = true → ∃ gl, geometry = Some gl.
Proof. destruct geometry; [eauto|done]. Qed.

Lemma truthy_list_Some {A} (l : option (list A)) :
  truthy_list l = true → ∃ l', l = Some l'.
Proof. destruct l; [eauto|done]. Qed.

(** C9 (amended).  [Task.__init__] tests its [geometry] and [bounds]
    arguments for truth, so an empty geometry, an empty mapping or empty
    bounds count as not given.  When both are non-empty the construction
    fails with a [ValueError].  When only the geometry is non-empty the
    task's geometry is [to_shape(geometry)] and its bounds are the
    validated bounds of that geometry; when only the bounds are
    non-empty the task's bounds are the validated bounds and its
    geometry is the box of those bounds (in both cases a failing
    [to_shape] or [validate_bounds] fails the construction).  Otherwise
    the task is non-spatial, with both unset.  Hence a constructed task
    has both or neither, and they agree. *)
Theorem Task_init_geometry_bounds
    (oid_ : nat) (uuid : string) (id : option string) (func : option Callable)
    (fargs : option (list (PyVal Raster)))
    (fkwargs : option (list (string * PyVal Raster)))
    (dependencies : option (list (string * TaskInfo)))
    (result_key_name : option string)
    (geometry : option (GeometryLike Geometry)) (bounds : option (list Z)) :
  let r := Task_init oid_ uuid id func fargs fkwargs dependencies
             result_key_name geometry bounds in
  (truthy_geometry geometry = true → truthy_list bounds = true →
     r = Raise ValueError)
  ∧ (truthy_geometry geometry = true → truthy_list bounds = false →
     ∃ gl, geometry = Some gl ∧
       match to_shape gl with
       | Raise e => r = Raise e
       | Ok g =>
           match validate_bounds (geom_bounds g) with
           | Raise e => r = Raise e
           | Ok b => ∃ t, r = Ok t ∧ task_geometry t = Some g ∧ task_bounds t = Some b
           end
       end)
  ∧ (truthy_geometry geometry = false → truthy_list bounds = true →
     ∃ bl, bounds = Some bl ∧
       match validate_bounds bl with
       | Raise e => r = Raise e
       | Ok b => ∃ t, r = Ok t ∧ task_bounds t = Some b
                      ∧ task_geometry t = Some (box b)
       end)
  ∧ (truthy_geometry geometry = false → truthy_list bounds = false →
     ∃ t, r = Ok t ∧ task_geometry t = None ∧ task_bounds t = None)
  ∧ (∀ t, r = Ok t →
       match task_geometry t, task_bounds t with
       | None, None => True
       | Some g, Some b => validate_bounds (geom_bounds g) = Ok b ∨ g = box b
       | _, _ => False
       end).
Proof.
  intros r. subst r. unfold Task_init.
  destruct (truthy_geometry geometry) eqn:Hg, (truthy_list bounds) eqn:Hb;
    simpl andb; cbv iota.
  - split_and!; try done. 
  - destruct (truthy_geometry_Some _ Hg) as [gl ->]. simpl from_option.
    split_and!; try done.
    + intros _ _. exists gl. split; [done|].
      destruct (to_shape gl) as [g|e]; [|done]. simpl.
      destruct (validate_bounds (geom_bounds g)) as [b|e]; [|done]. simpl. eauto.
    + intros t. destruct (to_shape gl) as [g|e]; [|done]. simpl.
      destruct (validate_bounds (geom_bounds g)) as [b|e] eqn:Hv; [|done]. simpl.
      intros [= <-]. simpl. by left.
  - destruct (truthy_list_Some _ Hb) as [bl ->]. simpl default.
    split_and!; try done.
    + intros _ _. exists bl. split; [done|].
      destruct (validate_bounds bl) as [b|e]; [|done]. simpl. eauto.
    + intros t. destruct (validate_bounds bl) as [b|e]; [|done]. simpl.
      intros [= <-]. simpl. by right.
  - split_and!; try done.
    + intros _ _. eauto.
    + by intros t [= <-].
Qed.

End task_claims.

Section task_examples.
Import Examples.
#[local] Existing Instance Toy.types.
#[local] Existing Instance Toy.world.

(** A triangle given as geometry, and a rectangle given as bounds. *)
Lemma Task_init_geometry_bounds_witness :
  new_task 1 "a" (Some (GShape [(0, 0); (4, 0); (2, 3)])) (Some [0; 0; 4; 3])
    = Raise ValueError
  ∧ (∃ t, new_task 1 "a" (Some (GShape [(0, 0); (4, 0); (2, 3)])) None = Ok t
          ∧ task_geometry t = Some [(0, 0); (4, 0); (2, 3)]
          ∧ task_bounds t = Some (MkBounds 0 0 4 3))
  ∧ (∃ t, new_task 1 "a" None (Some [0; 0; 4; 3]) = Ok t
          ∧ task_bounds t = Some (MkBounds 0 0 4 3)
          ∧ task_geometry t = Some (Toy.box (MkBounds 0 0 4 3)))
  ∧ (∃ t, new_task 1 "a" None None = Ok t
          ∧ task_geometry t = None ∧ task_bounds t = None).
Proof.
  split_and!.
  - apply (Task_init_geometry_bounds (T:=Toy.types) (W:=Toy.world) 1 "0f0e" (Some "a") None None None None None
             (Some (GShape [(0, 0); (4, 0); (2, 3)])) (Some [0; 0; 4; 3]));
      by_computation.
  - destruct (proj1 (proj2 (Task_init_geometry_bounds (T:=Toy.types) (W:=Toy.world) 1 "0f0e" (Some "a")
                None None None None None
                (Some (GShape [(0, 0); (4, 0); (2, 3)])) None)) eq_refl eq_refl)
      as (gl & [= <-] & Ht).
    exact Ht.
  - destruct (proj1 (proj2 (proj2 (Task_init_geometry_bounds (T:=Toy.types) (W:=Toy.world) 1 "0f0e" (Some "a")
                None None None None None None (Some [0; 0; 4; 3]))))
                eq_refl eq_refl)
      as (bl & [= <-] & Ht).
    exact Ht.
  - exact (proj1 (proj2 (proj2 (proj2 (Task_init_geometry_bounds (T:=Toy.types) (W:=Toy.world) 1 "0f0e"
             (Some "a") None None None None None None None)))) eq_refl eq_refl).
Defined.

(** Both arguments are given, yet the construction succeeds: an empty
    mapping or an empty geometry is false, so the bounds alone decide.
    An empty geometry given alone yields a non-spatial task. *)
Lemma Task_init_geometry_bounds_counterexample :
  (∃ t, new_task 1 "a" (Some (GMapping [])) (Some [0; 0; 4; 3]) = Ok t
        ∧ task_bounds t = Some (MkBounds 0 0 4 3)
        ∧ task_geometry t = Some (Toy.box (MkBounds 0 0 4 3)))
  ∧ (∃ t, new_task 1 "a" (Some (GShape [])) (Some [0; 0; 4; 3]) = Ok t
          ∧ task_bounds t = Some (MkBounds 0 0 4 3)
          ∧ task_geometry t = Some (Toy.box (MkBounds 0 0 4 3)))
  ∧ (∃ t, new_task 1 "a" (Some (GShape [])) None = Ok t
          ∧ task_geometry t = None ∧ task_bounds t = None).
Proof. split_and!; eexists; (split_and!; [by_computation|done..]). Qed.

End task_examples.

(** ** Tile-task batches *)

Section batch_claims.
Context {T : Types} {W : World}.

Lemma result_bind_Ok_inv {A B} (m : result A) (f : A → result B) b :
  m ≫= f = Ok b → ∃ a, m = Ok a ∧ f a = Ok b.
Proof. destruct m as [a|e]; [eauto|done]. Qed.

Lemma TileTaskBatch_validate_spec tp zoom_ items yielded tp' zoom' :
  TileTaskBatch_validate tp zoom_ items = Ok (yielded, tp', zoom') →
  ATileTask <$> yielded = items
  ∧ (∀ z, zoom_ = Some z → zoom' = Some z)
  ∧ (∀ p, tp = Some p → tp' = Some p)
  ∧ (∀ t, t ∈ yielded →
          zoom' = Some (zoom (tile t)) ∧ tp' = Some (buffered_tp (tile t)))
  ∧ (items = [] → zoom' = zoom_ ∧ tp' = tp).
Proof.
  revert tp zoom_ yielded tp' zoom'.
  induction items as [|[plain|item] items IH]; intros tp zoom_ yielded tp' zoom' Hv;
    simpl in Hv.
  - injection Hv as <- <- <-. split_and!; try done. by intros t ?%elem_of_nil.
  - done.
  - apply result_bind_Ok_inv in Hv as (tp1 & Htp & Hv).
    apply result_bind_Ok_inv in Hv as (z1 & Hz & Hv).
    apply result_bind_Ok_inv in Hv as ([[ys tp2] z2] & Hrec & Hv).
    injection Hv as <- <- <-.
    destruct (IH _ _ _ _ _ Hrec) as (Hys & Hz' & Hp' & Hall & _).
    assert (tp1 = buffered_tp (tile item) ∧ (∀ p, tp = Some p → p = tp1))
      as [Htp1 Htp1'].
    { destruct tp as [p|]; [|by injection Htp as <-].
      destruct (decide (buffered_tp (tile item) = p)) as [<-|]; [|done].
      injection Htp as <-. split; [done|]. by intros p [= <-]. }
    assert (z1 = zoom (tile item) ∧ (∀ z, zoom_ = Some z → z = z1))
      as [Hz1 Hz1'].
    { destruct zoom_ as [z|]; [|by injection Hz as <-].
      destruct (decide (zoom (tile item) = z)) as [<-|]; [|done].
      injection Hz as <-. split; [done|]. by intros z [= <-]. }
    split_and!; [by rewrite fmap_cons, Hys| | | |done].
    + intros z Hzoom. rewrite (Hz1' z Hzoom). by apply Hz'.
    + intros p Hp. rewrite (Htp1' p Hp). by apply Hp'.
    + intros t [->|Hin]%elem_of_cons; [|by apply Hall].
      rewrite <-Hz1, <-Htp1. split; [by apply Hz'|by apply Hp'].
Qed.

(** A batch built by the constructor is keyed by the tiles of its own
    items, all of one zoom and one pyramid. *)
Lemma TileTaskBatch_init_spec uuid items id func fkwargs self :
  TileTaskBatch_init uuid (Some items) id func fkwargs = Ok self →
  NoDup (dict_keys (ttb_tasks self))
  ∧ (∀ k t, dict_get k (ttb_tasks self) = Some t → tile t = k ∧ ATileTask t ∈ items)
  ∧ (∀ t, ATileTask t ∈ items →
          ttb_zoom self = Some (zoom (tile t))
          ∧ ttb_tp self = Some (buffered_tp (tile t))
          ∧ tile t ∈ dict_keys (ttb_tasks self))
  ∧ (items = [] → ttb_zoom self = None ∧ ttb_tasks self = []).
Proof.
  unfold TileTaskBatch_init. simpl from_option. intros Hinit.
  apply result_bind_Ok_inv in Hinit as (items' & [= <-] & Hinit).
  apply result_bind_Ok_inv in Hinit as ([[ys tp] z] & Hv & Hinit).
  injection Hinit as <-. simpl.
  destruct (TileTaskBatch_validate_spec _ _ _ _ _ _ Hv) as (Hys & _ & _ & Hall & Hnil).
  split_and!.
  - apply dict_update_NoDup. constructor.
  - intros k t [Hget|Hin]%dict_update_get; [done|].
    apply list_elem_of_fmap in Hin as (item & [= -> ->] & Hin).
    split; [done|]. rewrite <-Hys. by apply list_elem_of_fmap_2.
  - intros t Hin. rewrite <-Hys in Hin.
    apply list_elem_of_fmap in Hin as (t' & [= <-] & Hin).
    destruct (Hall t Hin) as [-> ->]. split_and!; [done..|].
    apply dict_update_keys. right. rewrite <-list_fmap_compose.
    by apply (list_elem_of_fmap_2 (fun item => tile item)).
  - intros ->. simpl in Hv. by injection Hv as <- <- <-.
Qed.

(** The tasks found under a list of tiles, read off by their tiles. *)
Lemma tasks_at_tiles self tiles :
  (∀ k t, dict_get k (ttb_tasks self) = Some t → tile t = k) →
  tile <$> tasks_at self tiles
  = filter (fun c => c ∈ dict_keys (ttb_tasks self)) tiles.
Proof.
  intros Hkey. unfold tasks_at.
  induction tiles as [|c tiles IH]; [done|]. csimpl.
  destruct (dict_get c (ttb_tasks self)) as [t|] eqn:Hget; csimpl.
  - rewrite filter_cons_True by (by eapply dict_get_Some_keys).
    rewrite IH. by rewrite (Hkey _ _ Hget).
  - rewrite filter_cons_False by (by apply dict_get_None_keys). done.
Qed.

Lemma tasks_at_lookup self tiles t :
  t ∈ tasks_at self tiles →
  ∃ c, c ∈ tiles ∧ dict_get c (ttb_tasks self) = Some t.
Proof.
  unfold tasks_at. rewrite list_elem_of_omap. naive_solver.
Qed.

Lemma tasks_at_length self tiles :
  (length (tasks_at self tiles) ≤ length tiles)%nat.
Proof.
  unfold tasks_at. induction tiles as [|c tiles IH]; csimpl; [lia|].
  destruct (dict_get c (ttb_tasks self)); csimpl; lia.
Qed.

(** C3 (amended).  For a [TileTaskBatch] built by its constructor,
    [intersection] with a [TileTask] whose zoom is one less than the
    batch's zoom ([other.tile.zoom + 1 == self._zoom]: the argument is
    the parent level) returns the tasks of the batch found under the
    children of the argument's tile: their tiles are exactly the children
    that are keys of the batch, in the order in which [get_children]
    lists them, so there are at most as many as children.  With any
    other zoom - the zoom above the batch's included - it fails with a
    [ValueError], and with an argument that is neither a task nor a
    bounds tuple or list it fails with a [TypeError]. *)
Theorem TileTaskBatch_intersection_tile_task
    (uuid : string) (items : list AnyTask) (id : option string)
    (func : option Callable) (fkwargs : option (list (string * PyVal Raster)))
    (self : TileTaskBatch) (other : TileTask) :
  TileTaskBatch_init uuid (Some items) id func fkwargs = Ok self →
  (Some (zoom (tile other) + 1) = ttb_zoom self →
     ∃ found,
       TileTaskBatch_intersection self (ArgTask (ATileTask other))
         = Ok (ATileTask <$> found)
       ∧ tile <$> found
         = filter (fun c => c ∈ dict_keys (ttb_tasks self))
             (get_children (tile other))
       ∧ (∀ t, t ∈ found →
               ATileTask t ∈ items ∧ zoom (tile t) = zoom (tile other) + 1
               ∧ dict_get (tile t) (ttb_tasks self) = Some t)
       ∧ (length found ≤ length (get_children (tile other)))%nat)
  ∧ (Some (zoom (tile other) + 1) ≠ ttb_zoom self →
     TileTaskBatch_intersection self (ArgTask (ATileTask other))
       = Raise ValueError)
  ∧ (∀ z, ttb_zoom self = Some z → zoom (tile other) = z + 1 →
     TileTaskBatch_intersection self (ArgTask (ATileTask other))
       = Raise ValueError)
  ∧ (∀ v, TileTaskBatch_intersection self (ArgOther v) = Raise TypeError).
Proof.
  intros Hinit.
  destruct (TileTaskBatch_init_spec _ _ _ _ _ _ Hinit) as (Hnd & Hkey & Hitems & _).
  split_and!.
  - intros Hz. exists (tasks_at self (get_children (tile other))).
    split_and!.
    + simpl. by rewrite decide_True.
    + apply tasks_at_tiles. intros k t Hget. by apply Hkey.
    + intros t (c & Hc & Hget)%tasks_at_lookup.
      destruct (Hkey _ _ Hget) as [<- Hin]. split_and!; [done| |done].
      destruct (Hitems _ Hin) as (Hzoom & _). congruence.
    + apply tasks_at_length.
  - intros Hz. simpl. by rewrite decide_False.
  - intros z Hzoom Hother. simpl. rewrite decide_False; [done|].
    rewrite Hzoom, Hother. intros [= ?]. lia.
  - done.
Qed.

End batch_claims.

Section batch_examples.
Import Examples.
#[local] Existing Instance Toy.types.
#[local] Existing Instance Toy.world.

(** The batch of zoom 10 asked for the tile task at (9, 10, 20): its
    four children, top-left, top-right, bottom-left, bottom-right as the
    example pyramid lists them, whatever the order in which the batch
    was filled. *)
Lemma TileTaskBatch_intersection_tile_task_witness :
  new_batch items_10 = Ok batch_10
  ∧ ttb_zoom batch_10 = Some (zoom (tile task_9) + 1)
  ∧ TileTaskBatch_intersection batch_10 (ArgTask (ATileTask task_9))
    = Ok [ATileTask task_10_tl; ATileTask task_10_tr;
          ATileTask task_10_bl; ATileTask task_10_br]
  ∧ TileTaskBatch_intersection batch_10 (ArgOther (VInt 5)) = Raise TypeError.
Proof.
  assert (Hinit : new_batch items_10 = Ok batch_10) by by_computation.
  assert (Hzoom : Some (zoom (tile task_9) + 1) = ttb_zoom batch_10)
    by by_computation.
  pose proof (TileTaskBatch_intersection_tile_task (T:=Toy.types) (W:=Toy.world)
                "ba7c" items_10 None None None batch_10 task_9 Hinit)
    as (Hchildren & _ & _ & Hother).
  split_and!; [exact Hinit|by_computation| |exact (Hother (VInt 5))].
  destruct (Hchildren Hzoom) as (found & Heq & _).
  rewrite Heq. vm_compute in Heq. injection Heq as Heq.
  f_equal. symmetry. exact Heq.
Defined.

(** The claim as stated fails: for the batch of zoom 10 an argument of
    zoom 11 is refused, and the children of a tile of zoom 11 would lie
    at zoom 12, outside the batch. *)
Lemma TileTaskBatch_intersection_tile_task_counterexample :
  ttb_zoom batch_10 = Some 10
  ∧ zoom (tile task_11) = 10 + 1
  ∧ TileTaskBatch_intersection batch_10 (ArgTask (ATileTask task_11))
    = Raise ValueError.
Proof. split_and!; by_computation. Qed.

End batch_examples.

(** ** The job lifecycle *)

Section job_facts.
Implicit Types (args : ExecuteArgs) (mp : Mapchete) (told : list Notification).

Lemma statuses_app told told' :
  statuses (told ++ told') = statuses told ++ statuses told'.
Proof. apply omap_app. Qed.

Lemma progresses_app told told' :
  progresses (told ++ told') = progresses told ++ progresses told'.
Proof. apply omap_app. Qed.

Lemma statuses_task_notifications total_tasks ii results :
  statuses (task_notifications total_tasks ii results) = [].
Proof.
  revert ii. induction results as [|r results IH]; intros ii; [done|].
  simpl task_notifications. unfold statuses in *. csimpl. apply IH.
Qed.

Lemma statuses_setup args mp retries_left attempt :
  statuses (setup_notifications args mp retries_left attempt) = [initializing].
Proof. unfold setup_notifications. by destruct (decide (attempt > 1)). Qed.

Lemma statuses_run args mp retries_left attempt results :
  statuses (run_notifications args mp retries_left attempt results)
  = [initializing; running].
Proof.
  unfold run_notifications.
  by rewrite !statuses_app, statuses_setup, statuses_task_notifications.
Qed.

Lemma progresses_setup args mp retries_left attempt :
  progresses (setup_notifications args mp retries_left attempt) = [].
Proof. unfold setup_notifications. by destruct (decide (attempt > 1)). Qed.

Lemma last_progress_task_notifications total_tasks ii results p :
  current p = ii - 1 → total p = Some total_tasks →
  last (p :: progresses (task_notifications total_tasks ii results))
  = Some {| current := ii - 1 + Z.of_nat (length results);
            total := Some total_tasks |}.
Proof.
  revert ii p. induction results as [|r results IH]; intros ii p Hc Ht.
  - simpl. destruct p as [c t]. simpl in *. subst. do 2 f_equal. lia.
  - simpl task_notifications. unfold progresses in *. csimpl.
    rewrite (IH (ii + 1)); [|simpl; lia|done].
    do 2 f_equal. lia.
Qed.

(** The last progress an attempt reports counts the futures it saw. *)
Lemma last_progress_run args mp retries_left attempt results :
  last (progresses (run_notifications args mp retries_left attempt results))
  = Some {| current := Z.of_nat (length results);
            total := Some (total_tasks_of args mp attempt) |}.
Proof.
  unfold run_notifications.
  rewrite !progresses_app, progresses_setup. csimpl.
  unfold progresses at 1. csimpl.
  by rewrite (last_progress_task_notifications _ 1).
Qed.

Lemma attempts_unfold fuel args mp retries_left attempt :
  attempts (S fuel) args mp retries_left attempt
  = if decide (retries_left + 1 = 0) then Some ([], Returned)
    else
      if decide (total_tasks_of args mp (attempt + 1) = 0) then
        Some (setup_notifications args mp retries_left (attempt + 1)
              ++ [notify_status done], Returned)
      else
        let '(results, raised) := mp_compute mp (attempt + 1) in
        let run := run_notifications args mp retries_left (attempt + 1) results in
        match raised with
        | None => Some (run, Returned)
        | Some e =>
            if cancel_on_exception args e then
              Some (run ++ [notify_status cancelled], Raised e)
            else if retry_on_exception args e then
              if decide (retries_left = 0) then
                Some (run ++ [notify_status failed], Raised e)
              else
                '(later, outcome) ← attempts fuel args mp (retries_left - 1) (attempt + 1);
                Some (run ++ [notify_status failed; notify_status retrying] ++ later,
                      outcome)
            else Some (run, Raised e)
        end.
Proof. done. Qed.

(** One attempt, by how it ends. *)
Lemma attempts_completes fuel args mp retries_left attempt results :
  retries_left + 1 ≠ 0 →
  total_tasks_of args mp (attempt + 1) ≠ 0 →
  mp_compute mp (attempt + 1) = (results, None) →
  attempts (S fuel) args mp retries_left attempt
  = Some (run_notifications args mp retries_left (attempt + 1) results, Returned).
Proof.
  intros Hr Ht Hc. rewrite attempts_unfold, !decide_False by done. by rewrite Hc.
Qed.

Lemma attempts_cancelled fuel args mp retries_left attempt results e :
  retries_left + 1 ≠ 0 →
  total_tasks_of args mp (attempt + 1) ≠ 0 →
  mp_compute mp (attempt + 1) = (results, Some e) →
  cancel_on_exception args e = true →
  attempts (S fuel) args mp retries_left attempt
  = Some (run_notifications args mp retries_left (attempt + 1) results
          ++ [notify_status cancelled], Raised e).
Proof.
  intros Hr Ht Hc He. rewrite attempts_unfold, !decide_False by done.
  by rewrite Hc, He.
Qed.

Lemma attempts_exhausted fuel args mp attempt results e :
  total_tasks_of args mp (attempt + 1) ≠ 0 →
  mp_compute mp (attempt + 1) = (results, Some e) →
  cancel_on_exception args e = false →
  retry_on_exception args e = true →
  attempts (S fuel) args mp 0 attempt
  = Some (run_notifications args mp 0 (attempt + 1) results
          ++ [notify_status failed], Raised e).
Proof.
  intros Ht Hc He Hre. rewrite attempts_unfold, !decide_False by done.
  by rewrite Hc, He, Hre.
Qed.

Lemma attempts_retried fuel args mp retries_left attempt :
  0 < retries_left →
  fails_retryably args mp (attempt + 1) →
  ∃ results,
    attempts (S fuel) args mp retries_left attempt
    = '(later, outcome) ← attempts fuel args mp (retries_left - 1) (attempt + 1);
      Some (run_notifications args mp retries_left (attempt + 1) results
            ++ [notify_status failed; notify_status retrying] ++ later, outcome).
Proof.
  intros Hr (Ht & results & e & Hc & He & Hre). exists results.
  rewrite attempts_unfold, decide_False by lia. rewrite decide_False by done.
  rewrite Hc, He, Hre. by rewrite decide_False by lia.
Qed.

(** [j] attempts in a row that fail and are retried. *)
Lemma attempts_retry_rounds args mp (j : nat) :
  ∀ fuel retries_left attempt,
    Z.of_nat j ≤ retries_left →
    (∀ k : nat, (k < j)%nat → fails_retryably args mp (attempt + 1 + Z.of_nat k)) →
    ∃ told,
      statuses told = concat (replicate j retried_round)
      ∧ attempts (j + fuel) args mp retries_left attempt
        = '(later, outcome) ← attempts fuel args mp
                                (retries_left - Z.of_nat j) (attempt + Z.of_nat j);
          Some (told ++ later, outcome).
Proof.
  induction j as [|j IH]; intros fuel retries_left attempt Hle Hfail.
  - exists []. split; [done|]. simpl.
    replace (retries_left - Z.of_nat 0) with retries_left by lia.
    replace (attempt + Z.of_nat 0) with attempt by lia.
    by destruct (attempts fuel args mp retries_left attempt) as [[??]|].
  - destruct (attempts_retried (j + fuel) args mp retries_left attempt)
      as [results Hstep]; [lia| |].
    { specialize (Hfail 0%nat).
      replace (attempt + 1 + Z.of_nat 0) with (attempt + 1) in Hfail by lia.
      apply Hfail. lia. }
    destruct (IH fuel (retries_left - 1) (attempt + 1)) as (told & Hst & Hrest).
    { lia. }
    { intros k Hk. specialize (Hfail (S k)).
      replace (attempt + 1 + 1 + Z.of_nat k) with (attempt + 1 + Z.of_nat (S k)) by lia.
      apply Hfail. lia. }
    exists (run_notifications args mp retries_left (attempt + 1) results
            ++ [notify_status failed; notify_status retrying] ++ told).
    split.
    + rewrite !statuses_app, statuses_run, Hst. done.
    + change (S j + fuel)%nat with (S (j + fuel)). rewrite Hstep, Hrest.
      replace (retries_left - 1 - Z.of_nat j) with (retries_left - Z.of_nat (S j)) by lia.
      replace (attempt + 1 + Z.of_nat j) with (attempt + Z.of_nat (S j)) by lia.
      destruct (attempts fuel args mp (retries_left - Z.of_nat (S j))
                  (attempt + Z.of_nat (S j))) as [[later outcome]|]; [|done].
      simpl. by rewrite <-!app_assoc.
Qed.

Lemma filter_concat_replicate {A} (P : A → Prop) `{∀ x, Decision (P x)}
    (j : nat) (l : list A) :
  length (filter P (concat (replicate j l))) = (j * length (filter P l))%nat.
Proof.
  induction j as [|j IH]; [done|]. simpl.
  rewrite filter_app, length_app, IH. done.
Qed.

Lemma fuel_split (j fuel : nat) : (j < fuel)%nat → ∃ fuel', fuel = (j + S fuel')%nat.
Proof. intros. exists (fuel - j - 1)%nat. lia. Qed.

End job_facts.

Section job_claims.
Implicit Types (args : ExecuteArgs) (mp : Mapchete) (told : list Notification).

Lemma count_status_rounds s told (j : nat) pre post :
  statuses told = pre ++ concat (replicate j retried_round) ++ post →
  count_status s told
  = (length (filter (fun s' => s' = s) pre)
     + j * length (filter (fun s' => s' = s) retried_round)
     + length (filter (fun s' => s' = s) post))%nat.
Proof.
  intros Hst. unfold count_status.
  rewrite Hst, !filter_app, !length_app, filter_concat_replicate. lia.
Qed.

(** [j] retried attempts, then whatever the next attempt does. *)
Lemma execute_after_retries fuel args mp (j : nat) :
  mapchete_open args = Ok mp →
  Z.of_nat j ≤ retries args →
  (∀ k : nat, (k < j)%nat → fails_retryably args mp (Z.of_nat (S k))) →
  ∃ told,
    statuses told = parsing :: concat (replicate j retried_round)
    ∧ execute (j + fuel) args
      = '(later, outcome) ← attempts fuel args mp
                              (retries args - Z.of_nat j) (Z.of_nat j);
        Some (told ++ later, outcome).
Proof.
  intros Hopen Hle Hfail.
  destruct (attempts_retry_rounds args mp j fuel (retries args) 0 Hle)
    as (told & Hst & Hrun).
  { intros k Hk. replace (0 + 1 + Z.of_nat k) with (Z.of_nat (S k)) by lia. auto. }
  exists (notify_status parsing :: told). split.
  - unfold statuses in *. csimpl. by rewrite Hst.
  - unfold execute. rewrite Hopen, Hrun.
    replace (0 + Z.of_nat j) with (Z.of_nat j) by lia.
    by destruct (attempts fuel args mp _ _) as [[later outcome]|].
Qed.

(** C6.  When the attempt that follows [j] retried attempts - [j] may be
    0, and retries may remain - raises an exception that the cancel
    clause matches, whether or not the retry clause would match it too,
    the job tells its observers [cancelled] once, as its last status,
    and ends by raising that same exception; no attempt follows. *)
Theorem execute_cancelled
    (fuel : nat) (args : ExecuteArgs) (mp : Mapchete) (j : nat)
    (results : list TaskResult) (e : Exn) :
  mapchete_open args = Ok mp →
  Z.of_nat j ≤ retries args →
  (∀ k : nat, (k < j)%nat → fails_retryably args mp (Z.of_nat (S k))) →
  total_tasks_of args mp (Z.of_nat (S j)) ≠ 0 →
  mp_compute mp (Z.of_nat (S j)) = (results, Some e) →
  cancel_on_exception args e = true →
  (j < fuel)%nat →
  ∃ told,
    execute fuel args = Some (told, Raised e)
    ∧ statuses told
      = parsing :: concat (replicate j retried_round)
        ++ [initializing; running; cancelled]
    ∧ count_status cancelled told = 1%nat
    ∧ count_status retrying told = j
    ∧ last (statuses told) = Some cancelled.
Proof.
  intros Hopen Hle Hfail Htotal Hcompute Hcancel Hfuel.
  destruct (fuel_split _ _ Hfuel) as [fuel' ->].
  destruct (execute_after_retries (S fuel') args mp j Hopen Hle Hfail)
    as (told & Hst & Hrun).
  replace (Z.of_nat (S j)) with (Z.of_nat j + 1) in Htotal, Hcompute by lia.
  rewrite (attempts_cancelled _ _ _ _ _ results e) in Hrun; [|lia|done..].
  eexists. split; [exact Hrun|].
  assert (Hall : statuses (told ++ run_notifications args mp
                    (retries args - Z.of_nat j) (Z.of_nat j + 1) results
                    ++ [notify_status cancelled])
                 = (parsing :: []) ++ concat (replicate j retried_round)
                   ++ [initializing; running; cancelled]).
  { rewrite !statuses_app, Hst, statuses_run. done. }
  split_and!.
  - exact Hall.
  - rewrite (count_status_rounds _ _ _ _ _ Hall).
    change (length (filter _ retried_round)) with 0%nat. simpl. lia.
  - rewrite (count_status_rounds _ _ _ _ _ Hall).
    change (length (filter _ retried_round)) with 1%nat. simpl. lia.
  - rewrite Hall.
    change [initializing; running; cancelled]
      with ([initializing; running] ++ [cancelled]).
    by rewrite !app_assoc, last_snoc.
Qed.

(** C5 (what the code does).  With [retries = k], after [j <= k]
    attempts that fail with a retry-eligible exception - each notifying
    [failed], then [retrying], with the counter decremented and a new
    attempt begun at [initializing] - an attempt that completes ends the
    job normally after [j + 1] attempts and [j] notifications of
    [retrying].  The last status notified is [running]: [done] is not
    notified. *)
Theorem execute_retry_then_complete
    (fuel : nat) (args : ExecuteArgs) (mp : Mapchete) (j : nat)
    (results : list TaskResult) :
  mapchete_open args = Ok mp →
  Z.of_nat j ≤ retries args →
  (∀ k : nat, (k < j)%nat → fails_retryably args mp (Z.of_nat (S k))) →
  total_tasks_of args mp (Z.of_nat (S j)) ≠ 0 →
  mp_compute mp (Z.of_nat (S j)) = (results, None) →
  (j < fuel)%nat →
  ∃ told,
    execute fuel args = Some (told, Returned)
    ∧ statuses told
      = parsing :: concat (replicate j retried_round) ++ [initializing; running]
    ∧ count_status retrying told = j
    ∧ count_status failed told = j
    ∧ count_status initializing told = S j
    ∧ count_status done told = 0%nat
    ∧ last (statuses told) = Some running.
Proof.
  intros Hopen Hle Hfail Htotal Hcompute Hfuel.
  destruct (fuel_split _ _ Hfuel) as [fuel' ->].
  destruct (execute_after_retries (S fuel') args mp j Hopen Hle Hfail)
    as (told & Hst & Hrun).
  replace (Z.of_nat (S j)) with (Z.of_nat j + 1) in Htotal, Hcompute by lia.
  rewrite (attempts_completes _ _ _ _ _ results) in Hrun; [|lia|done..].
  eexists. split; [exact Hrun|].
  assert (Hall : statuses (told ++ run_notifications args mp
                    (retries args - Z.of_nat j) (Z.of_nat j + 1) results)
                 = (parsing :: []) ++ concat (replicate j retried_round)
                   ++ [initializing; running]).
  { rewrite !statuses_app, Hst, statuses_run. done. }
  split_and!.
  - exact Hall.
  - rewrite (count_status_rounds _ _ _ _ _ Hall).
    change (length (filter _ retried_round)) with 1%nat. simpl. lia.
  - rewrite (count_status_rounds _ _ _ _ _ Hall).
    change (length (filter _ retried_round)) with 1%nat. simpl. lia.
  - rewrite (count_status_rounds _ _ _ _ _ Hall).
    change (length (filter _ retried_round)) with 1%nat. simpl. lia.
  - rewrite (count_status_rounds _ _ _ _ _ Hall).
    change (length (filter _ retried_round)) with 0%nat. simpl. lia.
  - rewrite Hall.
    change [initializing; running] with ([initializing] ++ [running]).
    by rewrite !app_assoc, last_snoc.
Qed.

(** When no retries remain: after [retries] retried attempts one more
    failure is notified as [failed] and raised. *)
Lemma execute_retries_exhausted
    (fuel : nat) (args : ExecuteArgs) (mp : Mapchete) (j : nat)
    (results : list TaskResult) (e : Exn) :
  mapchete_open args = Ok mp →
  retries args = Z.of_nat j →
  (∀ k : nat, (k < j)%nat → fails_retryably args mp (Z.of_nat (S k))) →
  total_tasks_of args mp (Z.of_nat (S j)) ≠ 0 →
  mp_compute mp (Z.of_nat (S j)) = (results, Some e) →
  cancel_on_exception args e = false →
  retry_on_exception args e = true →
  (j < fuel)%nat →
  ∃ told,
    execute fuel args = Some (told, Raised e)
    ∧ statuses told
      = parsing :: concat (replicate j retried_round)
        ++ [initializing; running; failed]
    ∧ count_status retrying told = j.
Proof.
  intros Hopen Hretries Hfail Htotal Hcompute Hcancel Hretry Hfuel.
  destruct (fuel_split _ _ Hfuel) as [fuel' ->].
  destruct (execute_after_retries (S fuel') args mp j Hopen ltac:(lia) Hfail)
    as (told & Hst & Hrun).
  replace (Z.of_nat (S j)) with (Z.of_nat j + 1) in Htotal, Hcompute by lia.
  replace (retries args - Z.of_nat j) with 0 in Hrun by lia.
  rewrite (attempts_exhausted _ _ _ _ results e) in Hrun by done.
  eexists. split; [exact Hrun|].
  assert (Hall : statuses (told ++ run_notifications args mp 0 (Z.of_nat j + 1) results
                    ++ [notify_status failed])
                 = (parsing :: []) ++ concat (replicate j retried_round)
                   ++ [initializing; running; failed]).
  { rewrite !statuses_app, Hst, statuses_run. done. }
  split; [exact Hall|].
  rewrite (count_status_rounds _ _ _ _ _ Hall).
  change (length (filter _ retried_round)) with 1%nat. simpl. lia.
Qed.

(** C7 (what the code does).  A job whose first attempt has tasks and
    sees every one of them complete tells its observers the statuses
    [parsing], [initializing], [running] and returns: neither
    [post_processing] nor [done] is notified.  Its last progress
    notification has [current] equal to [total]. *)
Theorem execute_completes_without_done
    (fuel : nat) (args : ExecuteArgs) (mp : Mapchete)
    (results : list TaskResult) :
  mapchete_open args = Ok mp →
  retries args + 1 ≠ 0 →
  total_tasks_of args mp 1 ≠ 0 →
  mp_compute mp 1 = (results, None) →
  Z.of_nat (length results) = total_tasks_of args mp 1 →
  ∃ told,
    execute (S fuel) args = Some (told, Returned)
    ∧ statuses told = [parsing; initializing; running]
    ∧ count_status post_processing told = 0%nat
    ∧ count_status done told = 0%nat
    ∧ last (progresses told)
      = Some {| current := total_tasks_of args mp 1;
                total := Some (total_tasks_of args mp 1) |}.
Proof.
  intros Hopen Hretries Htotal Hcompute Hlen.
  exists (notify_status parsing
          :: run_notifications args mp (retries args) 1 results).
  assert (Hst : statuses (notify_status parsing
                          :: run_notifications args mp (retries args) 1 results)
                = [parsing; initializing; running]).
  { change (notify_status parsing :: ?l) with ([notify_status parsing] ++ l).
    by rewrite statuses_app, statuses_run. }
  split_and!.
  - unfold execute. rewrite Hopen.
    by rewrite (attempts_completes fuel args mp (retries args) 0 results).
  - exact Hst.
  - unfold count_status. by rewrite Hst.
  - unfold count_status. by rewrite Hst.
  - change (progresses (notify_status parsing :: ?l)) with (progresses l).
    by rewrite last_progress_run, Hlen.
Qed.

(** A job without tasks is [done] at once: [parsing], [initializing],
    [done], and no executor is asked for. *)
Lemma execute_no_tasks (fuel : nat) (args : ExecuteArgs) (mp : Mapchete) :
  mapchete_open args = Ok mp →
  retries args + 1 ≠ 0 →
  total_tasks_of args mp 1 = 0 →
  ∃ told,
    execute (S fuel) args = Some (told, Returned)
    ∧ statuses told = [parsing; initializing; done]
    ∧ progresses told = [].
Proof.
  intros Hopen Hretries Htotal.
  exists (notify_status parsing
          :: setup_notifications args mp (retries args) 1 ++ [notify_status done]).
  split_and!.
  - unfold execute. rewrite Hopen, attempts_unfold.
    rewrite decide_False by done. change (0 + 1) with 1.
    by rewrite decide_True by done.
  - change (notify_status parsing :: ?l) with ([notify_status parsing] ++ l).
    by rewrite !statuses_app, statuses_setup.
  - change (progresses (notify_status parsing :: ?l)) with (progresses l).
    by rewrite progresses_app, progresses_setup.
Qed.

End job_claims.

Section job_examples.
Import Examples.

(** Scenario S1. *)
Lemma execute_completes_without_done_witness :
  execute 1 (job 0 mp_single_tile)
  = Some ([notify_status parsing;
           notify_status initializing;
           notify_message (MsgProcessing 0 1 4);
           notify_message MsgWaitingForExecutor;
           {| n_status := Some running;
              n_progress := Some {| current := 0; total := Some 1 |};
              n_message := Some (MsgSending 1);
              n_task_result := None |};
           notify_message (MsgTask "tile_task_z8-10-20" "processed");
           {| n_status := None;
              n_progress := Some {| current := 1; total := Some 1 |};
              n_message := None;
              n_task_result := Some result_1 |}],
          Returned)
  ∧ ∃ told,
      execute 1 (job 0 mp_single_tile) = Some (told, Returned)
      ∧ statuses told = [parsing; initializing; running]
      ∧ count_status post_processing told = 0%nat
      ∧ count_status done told = 0%nat
      ∧ last (progresses told) = Some {| current := 1; total := Some 1 |}.
Proof.
  split; [by_computation|].
  apply (execute_completes_without_done 0 (job 0 mp_single_tile) mp_single_tile
           [result_1]); [reflexivity|done|done|reflexivity|reflexivity].
Defined.

(** Scenario S4: one retry left, the first attempt fails, the second
    completes. *)
Lemma execute_retry_then_complete_witness :
  ∃ told,
    execute 2 (job 1 mp_fail_once) = Some (told, Returned)
    ∧ statuses told
      = [parsing; initializing; running; failed; retrying; initializing; running]
    ∧ count_status retrying told = 1%nat
    ∧ count_status failed told = 1%nat
    ∧ count_status initializing told = 2%nat
    ∧ count_status done told = 0%nat
    ∧ last (statuses told) = Some running.
Proof.
  apply (execute_retry_then_complete 2 (job 1 mp_fail_once) mp_fail_once 1
           [result_1]); [reflexivity|done| |done|reflexivity|lia].
  intros k Hk. assert (k = 0%nat) as -> by lia.
  split; [done|]. exists [], (OtherError "RuntimeError").
  split_and!; reflexivity.
Defined.

(** Three retries are left when the second attempt is cancelled; the
    default retry class matches the cancellation as well. *)
Lemma execute_cancelled_witness :
  default_retry_on_exception JobCancelledError = true
  ∧ ∃ told,
      execute 5 (job_tiles 4 mp_cancelled) = Some (told, Raised JobCancelledError)
      ∧ statuses told
        = [parsing; initializing; running; failed; retrying;
           initializing; running; cancelled]
      ∧ count_status cancelled told = 1%nat
      ∧ count_status retrying told = 1%nat
      ∧ last (statuses told) = Some cancelled.
Proof.
  split; [reflexivity|].
  apply (execute_cancelled 5 (job_tiles 4 mp_cancelled) mp_cancelled 1
           [result_1] JobCancelledError);
    [reflexivity|done| |done|reflexivity|reflexivity|lia].
  intros k Hk. assert (k = 0%nat) as -> by lia.
  split; [done|]. exists [result_1], (OtherError "RuntimeError").
  split_and!; reflexivity.
Defined.

Lemma execute_no_tasks_witness :
  execute 1 (job_tiles 0 mp_no_tasks)
  = Some ([notify_status parsing; notify_status initializing;
           notify_message (MsgProcessing 0 0 4); notify_status done], Returned)
  ∧ ∃ told,
      execute 1 (job_tiles 0 mp_no_tasks) = Some (told, Returned)
      ∧ statuses told = [parsing; initializing; done]
      ∧ progresses told = [].
Proof.
  split; [by_computation|].
  apply (execute_no_tasks 0 (job_tiles 0 mp_no_tasks) mp_no_tasks);
    [reflexivity|done|reflexivity].
Defined.

(** No retries: the failure of the only attempt is notified and
    raised. *)
Lemma execute_retries_exhausted_witness :
  ∃ told,
    execute 1 (job_tiles 0 mp_always_fails) = Some (told, Raised ValueError)
    ∧ statuses told = [parsing; initializing; running; failed]
    ∧ count_status retrying told = 0%nat.
Proof.
  apply (execute_retries_exhausted 1 (job_tiles 0 mp_always_fails) mp_always_fails
           0 [result_1] ValueError);
    [reflexivity|reflexivity| |done|reflexivity|reflexivity|reflexivity|lia].
  intros k Hk. lia.
Defined.

End job_examples.

(** ** The task graph *)

Section graph_claims.
Context {T : Types} {W : World}.

Lemma result_mapM_Forall2 {A B} (f : A → result B) xs ys :
  result_mapM f xs = Ok ys → Forall2 (fun x y => f x = Ok y) xs ys.
Proof.
  revert ys. induction xs as [|x xs IH]; intros ys Hm; simpl in Hm.
  - injection Hm as <-. constructor.
  - apply result_bind_Ok_inv in Hm as (y & Hy & Hm).
    apply result_bind_Ok_inv in Hm as (ys' & Hys & Hm).
    injection Hm as <-. constructor; auto.
Qed.

Lemma dict_elem_of_get {K V} `{EqDecision K} (d : list (K * V)) k v :
  NoDup (dict_keys d) → (k, v) ∈ d → dict_get k d = Some v.
Proof.
  unfold dict_keys. induction d as [|[k' v'] d IH]; csimpl.
  - by intros _ ?%elem_of_nil.
  - intros [Hnin Hnd]%NoDup_cons [[= -> ->]|Hin]%elem_of_cons.
    + by rewrite decide_True.
    + rewrite decide_False; [auto|]. intros ->. apply Hnin.
      by apply (list_elem_of_fmap_2 fst) in Hin.
Qed.

Lemma keyed_by_identity_keys ns :
  dict_keys (keyed_by_identity ns) = oid <$> (d_task <$> ns).
Proof.
  unfold dict_keys, keyed_by_identity. rewrite <-!list_fmap_compose. done.
Qed.

Lemma keyed_by_identity_values ns : dict_values (keyed_by_identity ns) = ns.
Proof.
  unfold dict_values, keyed_by_identity. rewrite <-list_fmap_compose.
  apply list_fmap_id.
Qed.

Lemma keyed_by_identity_get ns k node :
  dict_get k (keyed_by_identity ns) = Some node →
  node ∈ ns ∧ oid (d_task node) = k.
Proof.
  intros Hin%dict_get_elem_of. unfold keyed_by_identity in Hin.
  apply list_elem_of_fmap in Hin as (n & [= -> ->] & Hin). done.
Qed.

Lemma is_dependency_mapping_mono nodes nodes' children deps :
  nodes ⊆ nodes' →
  is_dependency_mapping nodes children deps →
  is_dependency_mapping nodes' children deps.
Proof.
  intros Hsub (Hnd & Hall & Hentries). split_and!; [done..|].
  intros k node Hin. destruct (Hentries k node Hin) as [Hnode Hchild]. auto.
Qed.

Lemma dependencies_resolved_mono nodes nodes' previous_batch task deps :
  nodes ⊆ nodes' →
  dependencies_resolved nodes previous_batch task deps →
  dependencies_resolved nodes' previous_batch task deps.
Proof.
  intros Hsub. unfold dependencies_resolved.
  destruct previous_batch as [previous|]; [|done].
  destruct (truthy_batch (Some previous)); [|done].
  intros (children & Hint & Hmap). exists children. split; [done|].
  by eapply is_dependency_mapping_mono.
Qed.

(** One dictionary comprehension. *)
Lemma resolve_dependencies_spec ns previous_batch task deps :
  resolve_dependencies (keyed_by_identity ns) previous_batch task = Ok deps →
  dependencies_resolved ns previous_batch task deps.
Proof.
  unfold resolve_dependencies, dependencies_resolved.
  destruct previous_batch as [previous|]; [|by intros [= <-]].
  destruct (truthy_batch (Some previous)); [|by intros [= <-]].
  intros Hres.
  apply result_bind_Ok_inv in Hres as (children & Hint & Hres).
  apply result_bind_Ok_inv in Hres as (items & Hitems & Hres).
  injection Hres as <-. exists children. split; [done|].
  apply result_mapM_Forall2 in Hitems.
  assert (Hnd : NoDup (dict_keys (dict_of_list items))).
  { apply dict_update_NoDup. constructor. }
  split_and!; [done| |].
  - intros child Hchild. apply dict_update_keys. right.
    destruct (proj1 (list_elem_of_lookup _ _) Hchild) as [i Hi].
    destruct (Forall2_lookup_l _ _ _ _ _ Hitems Hi) as ([k node] & Hitem & Hf).
    apply result_bind_Ok_inv in Hf as (node' & _ & [= <- <-]).
    apply list_elem_of_lookup_2 in Hitem.
    by apply (list_elem_of_fmap_2 fst) in Hitem.
  - intros k node Hin.
    apply (dict_elem_of_get _ _ _ Hnd) in Hin.
    apply dict_update_get in Hin as [?|Hin]; [done|].
    destruct (proj1 (list_elem_of_lookup _ _) Hin) as [i Hi].
    destruct (Forall2_lookup_r _ _ _ _ _ Hitems Hi) as (child & Hchild & Hf).
    apply result_bind_Ok_inv in Hf as (node' & Hget & [= <- <-]).
    destruct (dict_get (oid child) (keyed_by_identity ns)) as [n|] eqn:Hlook;
      [|done].
    injection Hget as ->.
    apply keyed_by_identity_get in Hlook as [Hnode Hoid].
    split; [done|]. exists child. split_and!; [|done..].
    by eapply list_elem_of_lookup_2.
Qed.

(** The loop over the tasks of one batch. *)
Lemma convert_tasks_spec task_func fkwargs previous_batch todo :
  ∀ ns tasks',
    NoDup ((oid <$> (d_task <$> ns)) ++ (oid <$> todo)) →
    convert_tasks task_func fkwargs previous_batch (keyed_by_identity ns) todo
      = Ok tasks' →
    ∃ new,
      tasks' = keyed_by_identity (ns ++ new)
      ∧ d_task <$> new = todo
      ∧ Forall (fun node =>
                  d_func node = task_func
                  ∧ dependencies_resolved (ns ++ new) previous_batch
                      (d_task node) (d_dependencies node))
          new.
Proof.
  induction todo as [|task rest IH]; intros ns tasks' Hnd Hconv; simpl in Hconv.
  - injection Hconv as <-. exists []. by rewrite app_nil_r.
  - apply result_bind_Ok_inv in Hconv as (deps & Hdeps & Hconv).
    set (node := MkDelayed task_func (task_id (base_task task))
                   (bool_decide (0 < length deps)%nat) task deps fkwargs
                   (task_result_key_name (base_task task))) in *.
    assert (Hfresh : oid task ∉ dict_keys (keyed_by_identity ns)).
    { rewrite keyed_by_identity_keys. apply NoDup_app in Hnd as (_ & Hdisj & _).
      intros Hin. apply (Hdisj _ Hin). csimpl. left. }
    rewrite (dict_set_fresh _ _ _ Hfresh) in Hconv.
    change (keyed_by_identity ns ++ [(oid task, node)])
      with (keyed_by_identity ns ++ keyed_by_identity [node]) in Hconv.
    unfold keyed_by_identity in Hconv at 1 2. rewrite <-fmap_app in Hconv.
    destruct (IH (ns ++ [node]) tasks') as (new & -> & Hnew & Hall).
    { rewrite !fmap_app. csimpl. rewrite <-app_assoc. exact Hnd. }
    { exact Hconv. }
    exists (node :: new). rewrite <-app_assoc in *. csimpl in *.
    split_and!; [done|by rewrite Hnew|].
    constructor; [|exact Hall]. split; [done|].
    eapply dependencies_resolved_mono; [|by apply resolve_dependencies_spec].
    intros n Hn. apply elem_of_app. by left.
Qed.

(** The loop over the batches. *)
Lemma convert_batches_spec pw tw batches :
  ∀ previous_batch ns tasks',
    NoDup ((oid <$> (d_task <$> ns)) ++ (oid <$> concat (batch_values <$> batches))) →
    convert_batches pw tw previous_batch (keyed_by_identity ns) batches = Ok tasks' →
    ∃ new,
      tasks' = keyed_by_identity (ns ++ new)
      ∧ d_task <$> new = concat (batch_values <$> batches)
      ∧ ∀ i batch j task,
          batches !! i = Some batch →
          batch_values batch !! j = Some task →
          ∃ node,
            node ∈ new ∧ d_task node = task
            ∧ d_func node = task_func_for batch pw tw
            ∧ dependencies_resolved (ns ++ new)
                (match i with O => previous_batch | S i' => batches !! i' end)
                task (d_dependencies node).
Proof.
  induction batches as [|batch rest IH]; intros previous_batch ns tasks' Hnd Hconv;
    simpl in Hconv.
  - injection Hconv as <-. exists []. rewrite app_nil_r. split_and!; [done..|].
    intros i batch j task Hi. by rewrite lookup_nil in Hi.
  - apply result_bind_Ok_inv in Hconv as (tasks1 & Hfirst & Hconv).
    csimpl in Hnd. rewrite fmap_app in Hnd.
    destruct (convert_tasks_spec (task_func_for batch pw tw) (batch_fkwargs batch)
                previous_batch (batch_values batch) ns tasks1)
      as (new1 & -> & Hnew1 & Hall1); [|exact Hfirst|].
    { rewrite app_assoc in Hnd. by apply NoDup_app in Hnd as (? & _). }
    destruct (IH (Some batch) (ns ++ new1) tasks') as (new2 & -> & Hnew2 & Hall2);
      [|exact Hconv|].
    { rewrite !fmap_app, Hnew1, <-app_assoc. exact Hnd. }
    exists (new1 ++ new2). rewrite <-app_assoc.
    split_and!; [done|csimpl; by rewrite fmap_app, Hnew1, Hnew2|].
    intros [|i] batch' j task Hi Hj.
    + injection Hi as <-.
      assert (Hnode : ∃ node, new1 !! j = Some node ∧ d_task node = task).
      { rewrite <-Hnew1, list_lookup_fmap in Hj.
        destruct (new1 !! j) as [node|]; [|done]. injection Hj as <-. eauto. }
      destruct Hnode as (node & Hlook & Htask).
      destruct (proj1 (Forall_lookup _ _) Hall1 j node Hlook) as [Hfunc Hdeps].
      exists node. split_and!; [|done|done|].
      * apply elem_of_app. left. by eapply list_elem_of_lookup_2.
      * rewrite Htask in Hdeps.
        eapply dependencies_resolved_mono; [|exact Hdeps].
        intros n Hn. rewrite app_assoc. apply elem_of_app. by left.
    + destruct (Hall2 i batch' j task Hi Hj) as (node & Hin & Htask & Hfunc & Hdeps).
      exists node. split_and!; [|done|done|].
      * apply elem_of_app. by right.
      * rewrite <-app_assoc in Hdeps. by destruct i.
Qed.

(** C2.  When the batches convert to a graph - every task object
    occurring once in them - the nodes are the tasks in batch order, and
    the node of a task holds as dependencies: nothing, for a task of the
    first batch or behind an empty batch; otherwise the mapping
    [{child.id: node of child}] over
    [previous_batch.intersection(task)], with pairwise distinct keys, a
    key for every child returned, and no entry that does not pair a
    returned child's id with the node built for that child. *)
Theorem to_dask_collection_dependencies
    (batches : list Batch)
    (preprocessing_task_wrapper tile_task_wrapper : option Callable)
    (nodes : list Delayed) :
  NoDup (oid <$> concat (batch_values <$> batches)) →
  to_dask_collection batches preprocessing_task_wrapper tile_task_wrapper
    = Ok nodes →
  d_task <$> nodes = concat (batch_values <$> batches)
  ∧ ∀ i batch j task,
      batches !! i = Some batch →
      batch_values batch !! j = Some task →
      ∃ node,
        node ∈ nodes ∧ d_task node = task
        ∧ dependencies_resolved nodes (batch_before batches i) task
            (d_dependencies node).
Proof.
  intros Hnd Hrun. unfold to_dask_collection in Hrun.
  apply result_bind_Ok_inv in Hrun as (tasks & Hconv & [= <-]).
  destruct (convert_batches_spec preprocessing_task_wrapper tile_task_wrapper
              batches None [] tasks) as (new & -> & Hnew & Hall);
    [exact Hnd|exact Hconv|].
  simpl app in *. rewrite keyed_by_identity_values. split; [done|].
  intros i batch j task Hi Hj.
  destruct (Hall i batch j task Hi Hj) as (node & Hin & Htask & _ & Hdeps).
  exists node. split_and!; [done..|]. by destruct i.
Qed.

(** The conversion goes through whenever every intersection it asks
    for succeeds and returns tasks of the batch asked. *)
Lemma result_mapM_Ok {A B} (f : A → result B) xs :
  (∀ x, x ∈ xs → ∃ y, f x = Ok y) → ∃ ys, result_mapM f xs = Ok ys.
Proof.
  induction xs as [|x xs IH]; intros Hf; simpl; [eauto|].
  destruct (Hf x) as [y ->]; [left|].
  destruct IH as [ys ->]; [|simpl; eauto].
  intros x' Hx'. apply Hf. by right.
Qed.

Lemma resolve_dependencies_Ok tasks previous_batch task :
  (∀ previous, previous_batch = Some previous →
     truthy_batch (Some previous) = true →
     ∃ children,
       batch_intersection previous (ArgTask task) = Ok children
       ∧ ∀ c, c ∈ children → oid c ∈ dict_keys tasks) →
  ∃ deps, resolve_dependencies tasks previous_batch task = Ok deps.
Proof.
  intros Hprev. unfold resolve_dependencies.
  destruct previous_batch as [previous|]; [|eauto].
  destruct (truthy_batch (Some previous)) eqn:Htruthy; [|eauto].
  destruct (Hprev previous eq_refl Htruthy) as (children & -> & Hkeys). simpl.
  destruct (result_mapM_Ok
              (fun child =>
                 node ← from_option Ok (Raise KeyError) (dict_get (oid child) tasks);
                 Ok (task_id (base_task child), node)) children) as [items ->];
    [|simpl; eauto].
  intros c Hc. specialize (Hkeys c Hc).
  destruct (dict_get (oid c) tasks) as [node|] eqn:Hget; [simpl; eauto|].
  by apply dict_get_None_keys in Hget.
Qed.

Lemma convert_tasks_Ok task_func fkwargs previous_batch todo :
  ∀ tasks,
    (∀ task previous, task ∈ todo → previous_batch = Some previous →
       truthy_batch (Some previous) = true →
       ∃ children,
         batch_intersection previous (ArgTask task) = Ok children
         ∧ ∀ c, c ∈ children → oid c ∈ dict_keys tasks) →
    ∃ tasks',
      convert_tasks task_func fkwargs previous_batch tasks todo = Ok tasks'
      ∧ (∀ k, k ∈ dict_keys tasks ∨ k ∈ oid <$> todo → k ∈ dict_keys tasks').
Proof.
  induction todo as [|task rest IH]; intros tasks Hcond; simpl.
  - eexists. split; [done|]. intros k [?|?%elem_of_nil]; done.
  - destruct (resolve_dependencies_Ok tasks previous_batch task) as [deps ->].
    { intros previous Hp Ht. apply (Hcond task previous); [left|done..]. }
    simpl.
    set (node := MkDelayed _ _ _ _ _ _ _).
    assert (Hgrow : ∀ k, k ∈ dict_keys tasks ∨ k = oid task →
                         k ∈ dict_keys (dict_set (oid task) node tasks)).
    { intros k Hk. rewrite dict_keys_set. case_bool_decide as Hin.
      - destruct Hk as [?| ->]; done.
      - apply elem_of_app. rewrite list_elem_of_singleton. done. }
    destruct (IH (dict_set (oid task) node tasks)) as (tasks' & -> & Hkeys).
    { intros task' previous Hin Hp Ht.
      destruct (Hcond task' previous) as (children & Hint & Hc); [by right|done..|].
      exists children. split; [done|]. intros c Hcin. apply Hgrow. left. auto. }
    eexists. split; [done|]. intros k [Hk|Hk]; apply Hkeys.
    + left. apply Hgrow. by left.
    + csimpl in Hk. apply elem_of_cons in Hk as [->|Hk]; [|by right].
      left. apply Hgrow. by right.
Qed.

Lemma convert_batches_Ok pw tw batches :
  ∀ previous_batch tasks,
    (∀ previous c, previous_batch = Some previous → c ∈ batch_values previous →
       oid c ∈ dict_keys tasks) →
    (∀ i batch previous task,
       batches !! i = Some batch →
       match i with O => previous_batch | S i' => batches !! i' end = Some previous →
       task ∈ batch_values batch →
       truthy_batch (Some previous) = true →
       ∃ children,
         batch_intersection previous (ArgTask task) = Ok children
         ∧ ∀ c, c ∈ children → c ∈ batch_values previous) →
    ∃ tasks', convert_batches pw tw previous_batch tasks batches = Ok tasks'.
Proof.
  induction batches as [|batch rest IH]; intros previous_batch tasks Hprev Hcond;
    simpl; [eauto|].
  destruct (convert_tasks_Ok (task_func_for batch pw tw) (batch_fkwargs batch)
              previous_batch (batch_values batch) tasks) as (tasks1 & -> & Hkeys).
  { intros task previous Hin Hp Ht.
    destruct (Hcond 0%nat batch previous task) as (children & Hint & Hc); [done..|].
    exists children. split; [done|]. intros c Hcin. eapply Hprev; eauto. }
  simpl. apply IH.
  - intros previous c [= <-] Hc. apply Hkeys. right.
    by apply list_elem_of_fmap_2.
  - intros i batch' previous task Hi Hp Hin Ht.
    apply (Hcond (S i) batch' previous task); [done| |done..].
    by destruct i.
Qed.

Lemma to_dask_collection_succeeds
    (batches : list Batch)
    (preprocessing_task_wrapper tile_task_wrapper : option Callable) :
  (∀ i batch previous task,
     batches !! i = Some batch →
     batch_before batches i = Some previous →
     task ∈ batch_values batch →
     truthy_batch (Some previous) = true →
     ∃ children,
       batch_intersection previous (ArgTask task) = Ok children
       ∧ ∀ c, c ∈ children → c ∈ batch_values previous) →
  ∃ nodes,
    to_dask_collection batches preprocessing_task_wrapper tile_task_wrapper
      = Ok nodes.
Proof.
  intros Hcond. unfold to_dask_collection.
  destruct (convert_batches_Ok preprocessing_task_wrapper tile_task_wrapper
              batches None []) as [tasks ->]; [done| |simpl; eauto].
  intros i batch previous task Hi Hp Hin Ht.
  apply (Hcond i batch previous task); [done| |done..]. by destruct i.
Qed.

End graph_claims.

Section graph_examples.
Import Examples.
#[local] Existing Instance Toy.types.
#[local] Existing Instance Toy.world.

(** The preprocessing task has no dependencies, each tile task of zoom
    10 depends on the preprocessing task its bounds meet, and the task
    of zoom 9 depends on its four children. *)
Lemma to_dask_collection_dependencies_witness :
  NoDup (oid <$> concat (batch_values <$> graph_batches))
  ∧ to_dask_collection graph_batches None None = Ok graph_nodes
  ∧ node_summary <$> graph_nodes
    = [("src1:fetch", []);
       ("tile_task_z10-21-41", ["src1:fetch"]);
       ("tile_task_z10-20-40", ["src1:fetch"]);
       ("tile_task_z10-21-40", ["src1:fetch"]);
       ("tile_task_z10-20-41", ["src1:fetch"]);
       ("tile_task_z9-10-20",
        ["tile_task_z10-20-40"; "tile_task_z10-20-41";
         "tile_task_z10-21-40"; "tile_task_z10-21-41"])]
  ∧ d_task <$> graph_nodes = concat (batch_values <$> graph_batches)
  ∧ ∃ node,
      node ∈ graph_nodes ∧ d_task node = ATileTask task_9
      ∧ dependencies_resolved graph_nodes (Some (BTile batch_10))
          (ATileTask task_9) (d_dependencies node).
Proof.
  assert (Hnd : NoDup (oid <$> concat (batch_values <$> graph_batches))).
  { apply (bool_decide_unpack _). vm_compute. exact I. }
  assert (Hrun : to_dask_collection graph_batches None None = Ok graph_nodes)
    by by_computation.
  destruct (to_dask_collection_dependencies (T:=Toy.types) (W:=Toy.world)
              graph_batches None None graph_nodes Hnd Hrun) as [Htasks Hdeps].
  split_and!; [exact Hnd|exact Hrun|by_computation|exact Htasks|].
  apply (Hdeps 2%nat (BTile batch_9) 0%nat (ATileTask task_9)); by_computation.
Defined.

(** In the example graph every intersection succeeds and returns tasks
    of the batch asked, so the conversion goes through. *)
Lemma to_dask_collection_succeeds_witness :
  ∃ nodes, to_dask_collection graph_batches None None = Ok nodes.
Proof.
  apply (to_dask_collection_succeeds (T:=Toy.types) (W:=Toy.world)).
  intros i batch previous task Hi Hp Hin Ht.
  destruct i as [|[|[|i]]]; simpl in Hi, Hp; [done| | |done].
  - injection Hi as <-. injection Hp as <-.
    exists [PlainTask preprocessing_task].
    split; [|intros c Hc; exact Hc].
    vm_compute in Hin.
    repeat (apply elem_of_cons in Hin as [->|Hin]); [by_computation..|].
    by apply elem_of_nil in Hin.
  - injection Hi as <-. injection Hp as <-.
    exists [ATileTask task_10_tl; ATileTask task_10_tr;
            ATileTask task_10_bl; ATileTask task_10_br].
    split.
    + vm_compute in Hin.
      repeat (apply elem_of_cons in Hin as [->|Hin]); [by_computation..|].
      by apply elem_of_nil in Hin.
    + intros c Hc. vm_compute.
      repeat (apply elem_of_cons in Hc as [->|Hc]);
        [solve [left | right; left | right; right; left
               | right; right; right; left]..|].
      by apply elem_of_nil in Hc.
Defined.

End graph_examples.
(** ** Further properties of tile tasks *)

Section dict_more.
Context {K V : Type} `{EqDecision K}.
Implicit Types (k : K) (v : V) (d kvs : list (K * V)).





End dict_more.

Section monad_more.

Lemma M_bind_Ok_inv {A B} (m : M A) (f : A → M B) tr b :
  m ≫= f = MkM tr (Ok b) →
  ∃ tr1 a tr2, m = MkM tr1 (Ok a) ∧ f a = MkM tr2 (Ok b) ∧ tr = tr1 ++ tr2.
Proof.
  destruct m as [tr1 [a|e]]; [|done]. rewrite bind_MkM_Ok. intros [= <- Hout].
  exists tr1, a, (trace (f a)). split_and!; [done| |done].
  rewrite <-Hout. symmetry. apply M_eta.
Qed.

Lemma mret_inv {A} (a b : A) tr : mret a = MkM tr (Ok b) → tr = [] ∧ a = b.
Proof. by intros [= <- <-]. Qed.



End monad_more.

Section tile_task_more.
Context {T : Types} {W : World}.




(** Every event of attaching a dependency is an attachment. *)
Lemma trace_attach_to_inputs inputs inp_key task_key output :
  Forall is_attach (trace (attach_to_inputs inputs inp_key task_key output)).
Proof.
  induction inputs as [|[name inp] rest IH]; simpl; [constructor|].
  apply trace_bind.
  - destruct (decide (input_key inp = inp_key)); [|constructor].
    apply trace_bind; [|intros; apply trace_lift].
    repeat constructor. by exists inp_key, task_key.
  - intros inp'. apply trace_bind; [exact IH|intros; constructor].
Qed.

Lemma trace_attach_dependency inputs dep :
  Forall is_attach (trace (attach_dependency inputs dep)).
Proof.
  destruct dep as [task_key task_result]. unfold attach_dependency.
  destruct (String.prefix "tile_task" task_key); [constructor|].
  destruct (split_colon task_key) as [inp_key task_key'].
  destruct (decide (task_key' = EmptyString)); [constructor|].
  apply trace_attach_to_inputs.
Qed.

(** The dependencies loop of [_execute], whether entered or not. *)
Lemma run_process_unfold self dependencies :
  run_process self dependencies
  = inputs ← foldM attach_dependency (input self) dependencies;
    user_process ← lift (from_option Ok (Raise TypeError) (process self));
    _ ← emit (EvProcess (tile self));
    lift (user_process
            {| mp_tile := tile self;
               mp_params := process_func_params self;
               mp_input := inputs;
               mp_output_params := output_params self |}
            (process_func_params self)).
Proof. unfold run_process. by destruct dependencies. Qed.

Lemma trace_run_process self dependencies :
  Forall is_attach (trace (run_process self dependencies))
  ∨ ∃ attached,
      trace (run_process self dependencies) = attached ++ [EvProcess (tile self)]
      ∧ Forall is_attach attached.
Proof.
  rewrite run_process_unfold.
  pose proof (trace_foldM is_attach attach_dependency (input self) dependencies
                trace_attach_dependency) as Hattach.
  destruct (foldM attach_dependency (input self) dependencies) as [tr0 [inputs|e]];
    simpl in Hattach.
  - rewrite bind_MkM_Ok. destruct (process self) as [user_process|]; simpl from_option.
    + rewrite bind_lift_Ok. unfold emit. rewrite bind_MkM_Ok. simpl.
      right. by exists tr0.
    + left. simpl. by rewrite app_nil_r.
  - left. by rewrite bind_MkM_Raise.
Qed.

Lemma trace_TileTask__execute self dependencies :
  Forall is_read (trace (TileTask__execute self dependencies))
  ∨ Forall is_attach (trace (TileTask__execute self dependencies))
  ∨ ∃ attached,
      trace (TileTask__execute self dependencies)
        = attached ++ [EvProcess (tile self)]
      ∧ Forall is_attach attached.
Proof.
  unfold TileTask__execute.
  destruct (config_baselevels self) as [| |bl];
    [right; apply trace_run_process..|].
  destruct (py_min (bl_zooms bl)) as [lowest|e]; [|left; constructor].
  rewrite bind_lift_Ok. destruct (zoom (tile self) <? lowest).
  { left. apply trace_interpolate_from_baselevel. }
  destruct (py_max (bl_zooms bl)) as [highest|e]; [|left; constructor].
  rewrite bind_lift_Ok. destruct (zoom (tile self) >? highest).
  { left. apply trace_interpolate_from_baselevel. }
  right. apply trace_run_process.
Qed.

(** What [execute] adds to [_execute] has no effect of its own. *)
Lemma trace_TileTask_execute self dependencies :
  trace (TileTask_execute self dependencies) = []
  ∨ trace (TileTask_execute self dependencies)
    = trace (TileTask__execute self (default [] dependencies)).
Proof.
  unfold TileTask_execute.
  destruct (negb (mode_allowed (mode self))); [by left|].
  destruct (config_zoom_levels self) as [zl|]; [|by left].
  rewrite bind_lift_Ok. destruct (negb (bool_decide (zoom (tile self) ∈ zl))); [by left|].
  right. destruct (TileTask__execute self (default [] dependencies)) as [tr [out|e]].
  - rewrite bind_MkM_Ok. simpl.
    destruct out as [|s|z|r]; [| destruct (decide (s = "empty")) | |];
      simpl; by rewrite app_nil_r.
  - by rewrite bind_MkM_Raise.
Qed.

Lemma trace_execute_tile_task_wrapper task dependencies :
  trace (_execute_tile_task_wrapper task dependencies)
  = trace (TileTask_execute task dependencies).
Proof.
  unfold _execute_tile_task_wrapper, try_except.
  destruct (TileTask_execute task dependencies) as [tr [info|e]].
  - rewrite bind_MkM_Ok. simpl. by rewrite app_nil_r.
  - rewrite bind_MkM_Raise. simpl.
    destruct (decide (e = MapcheteNodataTile)); simpl; [by rewrite app_nil_r|done].
Qed.


(** Whatever a tile task and its dependencies are, running it
    through the wrapper has one of three kinds of trace: only reads from
    the output store (interpolation), only results attached to inputs
    (the run failed before the user process was reached, or never got
    there), or attachments followed by one call of the user process on
    the task's own tile, as the last event.  So the user process is
    called at most once, never for another tile, never after a read and
    never before an attachment. *)
Theorem execute_tile_task_wrapper_trace
    (task : TileTask) (dependencies : option (list (string * TaskInfo))) :
  trace (_execute_tile_task_wrapper task dependencies)
    = trace (TileTask_execute task dependencies)
  ∧ (Forall is_read (trace (_execute_tile_task_wrapper task dependencies))
     ∨ Forall is_attach (trace (_execute_tile_task_wrapper task dependencies))
     ∨ ∃ attached,
         trace (_execute_tile_task_wrapper task dependencies)
           = attached ++ [EvProcess (tile task)]
         ∧ Forall is_attach attached).
Proof.
  split; [apply trace_execute_tile_task_wrapper|].
  rewrite trace_execute_tile_task_wrapper.
  destruct (trace_TileTask_execute task dependencies) as [->| ->].
  - left. constructor.
  - apply trace_TileTask__execute.
Qed.

End tile_task_more.

Section tile_task_runs.
Context {T : Types} {W : World}.

Lemma split_colon_no_colon s :
  has_colon s = false → split_colon s = (s, EmptyString).
Proof.
  induction s as [|c s IH]; [done|]. simpl.
  destruct (Ascii.eqb c ":"); [done|]. simpl. intros Hs. by rewrite IH.
Qed.

Lemma split_colon_app a b :
  has_colon a = false → split_colon (a +:+ String ":" b) = (a, b).
Proof.
  induction a as [|c a IH]; [done|]. simpl.
  destruct (Ascii.eqb c ":"); [done|]. simpl. intros Ha. by rewrite IH.
Qed.

Lemma has_colon_app a b : has_colon (a +:+ String ":" b) = true.
Proof.
  induction a as [|c a IH]; [done|]. simpl. rewrite IH. apply orb_true_r.
Qed.

Lemma attach_to_inputs_no_match inputs inp_key task_key output :
  (∀ name inp, (name, inp) ∈ inputs → input_key inp ≠ inp_key) →
  attach_to_inputs inputs inp_key task_key output = mret inputs.
Proof.
  induction inputs as [|[name inp] rest IH]; intros Hno; [done|]. simpl.
  rewrite decide_False by (apply (Hno name); left).
  rewrite bind_mret, IH.
  - by rewrite bind_mret.
  - intros n i Hin. apply (Hno n). by right.
Qed.

Lemma attach_dependency_ignored inputs task_key task_result :
  dependency_ignored inputs task_key →
  attach_dependency inputs (task_key, task_result) = mret inputs.
Proof.
  unfold dependency_ignored, attach_dependency. intros [Hprefix|[Hkey Hno]].
  - by rewrite Hprefix.
  - destruct (String.prefix "tile_task" task_key); [done|].
    destruct (split_colon task_key) as [inp_key task_key']. simpl in *.
    rewrite decide_False by done. by apply attach_to_inputs_no_match.
Qed.

Lemma attach_dependencies_ignored inputs dependencies :
  Forall (fun dep => dependency_ignored inputs dep.1) dependencies →
  foldM attach_dependency inputs dependencies = mret inputs.
Proof.
  induction 1 as [|[task_key task_result] deps Hdep _ IH]; [done|].
  simpl in Hdep. cbn [foldM].
  rewrite (attach_dependency_ignored _ _ _ Hdep), bind_mret. exact IH.
Qed.


(** What attaching under a key does to each input. *)
Lemma attach_to_inputs_spec inputs inp_key task_key output :
  ∀ tr inputs',
    attach_to_inputs inputs inp_key task_key output = MkM tr (Ok inputs') →
    Forall2 (fun old new =>
               new.1 = old.1
               ∧ if decide (input_key old.2 = inp_key)
                 then set_preprocessing_task_result old.2 task_key output = Ok new.2
                 else new.2 = old.2)
            inputs inputs'
    ∧ tr = replicate (length (filter (fun old => input_key old.2 = inp_key) inputs))
             (EvSetPreprocessingResult inp_key task_key).
Proof.
  induction inputs as [|[name inp] rest IH]; intros tr inputs' Hrun.
  - apply mret_inv in Hrun as [-> <-]. split; [constructor|done].
  - simpl in Hrun.
    apply M_bind_Ok_inv in Hrun as (tr1 & inp' & tr2 & Hinp & Hrun & ->).
    apply M_bind_Ok_inv in Hrun as (tr3 & rest' & tr4 & Hrest & Hret & ->).
    apply mret_inv in Hret as [-> <-].
    destruct (IH _ _ Hrest) as [Hall ->]. rewrite app_nil_r.
    destruct (decide (input_key inp = inp_key)) as [Hkey|Hkey].
    + unfold emit in Hinp. rewrite bind_MkM_Ok in Hinp.
      injection Hinp as <- Hset. simpl in Hset.
      rewrite filter_cons_True by done. split; [|done].
      constructor; [|done]. simpl. by rewrite decide_True.
    + apply mret_inv in Hinp as [-> <-].
      rewrite filter_cons_False by done. split; [|done].
      constructor; [|done]. simpl. by rewrite decide_False.
Qed.

Lemma TileTask_execute_in_zoom_levels task dependencies zoom_levels :
  mode_allowed (mode task) = true →
  config_zoom_levels task = Some zoom_levels →
  zoom (tile task) ∈ zoom_levels →
  TileTask_execute task dependencies
  = process_output ← TileTask__execute task (default [] dependencies);
    match process_output with
    | VNone => raise MapcheteProcessOutputError
    | VStr s =>
        if decide (s = "empty") then raise MapcheteNodataTile
        else mret {| ti_id := None; ti_output := process_output;
                     ti_processed := true; ti_tile := Some (tile task) |}
    | _ => mret {| ti_id := None; ti_output := process_output;
                   ti_processed := true; ti_tile := Some (tile task) |}
    end.
Proof.
  intros Hmode Hzl Hin. unfold TileTask_execute.
  rewrite Hmode, Hzl. simpl negb. cbv iota.
  rewrite bind_lift_Ok, bool_decide_true by done. done.
Qed.

(** A tile task that is not skipped gets its bindings from the
    configuration exactly when its zoom is one of the configured zoom
    levels.  Outside the zoom levels it is built with empty input,
    parameter and output dictionaries, and running it - when the mode
    lets it run at all - is a no-data outcome that reads, attaches and
    calls nothing; the wrapper turns it into ["empty"]. *)
Theorem TileTask_init_bindings
    (oid_ : nat) (uuid : string) (t : BufferedTile) (id : option string)
    (cfg : MapcheteConfig) (func : option Callable)
    (deps : option (list (string * TaskInfo))) (task : TileTask) :
  TileTask_init oid_ uuid (TileObj t) id (Some cfg) func false deps = Ok task →
  (zoom t ∈ cfg_zoom_levels cfg →
     input task = cfg_get_inputs_for_tile cfg t
     ∧ process_func_params task = cfg_get_process_func_params cfg (zoom t)
     ∧ output_params task = reader_output_params (cfg_output_reader cfg))
  ∧ (zoom t ∉ cfg_zoom_levels cfg →
     (input task = [] ∧ process_func_params task = [] ∧ output_params task = [])
     ∧ (mode_allowed (Some (cfg_mode cfg)) = true →
        ∀ dependencies,
          TileTask_execute task dependencies = MkM [] (Raise MapcheteNodataTile)
          ∧ _execute_tile_task_wrapper task dependencies
            = MkM [] (Ok (WStr "empty")))).
Proof.
  unfold TileTask_init. intros Hinit.
  apply result_bind_Ok_inv in Hinit as (base & _ & Hinit).
  injection Hinit as <-. simpl. split.
  - intros Hin. by rewrite bool_decide_true.
  - intros Hout. rewrite bool_decide_false by done. split; [done|].
    intros Hmode dependencies.
    assert (He : ∀ base' (inputs : list (string * InputTile)) params out reader_,
      TileTask_execute
        {| tt_task := base'; tile := t; skip := false;
           config_zoom_levels := Some (cfg_zoom_levels cfg);
           config_baselevels := cfg_baselevels cfg;
           process := Some (cfg_process cfg);
           config_dir := Some (cfg_config_dir cfg);
           input := inputs; process_func_params := params; output_params := out;
           mode := Some (cfg_mode cfg); output_reader := reader_ |} dependencies
      = MkM [] (Raise MapcheteNodataTile)).
    { intros. unfold TileTask_execute. cbn [mode config_zoom_levels tile].
      rewrite Hmode. cbn [negb].
      by rewrite bind_lift_Ok, bool_decide_false by done. }
    split; [apply He|].
    unfold _execute_tile_task_wrapper, try_except. rewrite He. done.
Qed.

(** Only the no-data outcome is turned into ["empty"].  When the
    process output of a task that may run is [None], [execute] raises
    [MapcheteProcessOutputError] and the wrapper passes it on; and every
    exception of [_execute] other than no-data - a failing user process,
    a malformed dependency key - leaves the wrapper unchanged, with the
    trace unchanged. *)
Theorem execute_tile_task_wrapper_errors
    (task : TileTask) (dependencies : option (list (string * TaskInfo)))
    (zoom_levels : list Z) :
  mode_allowed (mode task) = true →
  config_zoom_levels task = Some zoom_levels →
  zoom (tile task) ∈ zoom_levels →
  (∀ tr, TileTask__execute task (default [] dependencies) = MkM tr (Ok VNone) →
         TileTask_execute task dependencies
           = MkM tr (Raise MapcheteProcessOutputError)
         ∧ _execute_tile_task_wrapper task dependencies
           = MkM tr (Raise MapcheteProcessOutputError))
  ∧ (∀ tr e, TileTask__execute task (default [] dependencies) = MkM tr (Raise e) →
             e ≠ MapcheteNodataTile →
             TileTask_execute task dependencies = MkM tr (Raise e)
             ∧ _execute_tile_task_wrapper task dependencies = MkM tr (Raise e)).
Proof.
  intros Hmode Hzl Hin.
  pose proof (TileTask_execute_in_zoom_levels task dependencies zoom_levels
                Hmode Hzl Hin) as Hexec.
  split.
  - intros tr Hrun.
    assert (He : TileTask_execute task dependencies
                 = MkM tr (Raise MapcheteProcessOutputError)).
    { rewrite Hexec, Hrun, bind_MkM_Ok. simpl. by rewrite app_nil_r. }
    split; [exact He|].
    unfold _execute_tile_task_wrapper, try_except. by rewrite He.
  - intros tr e Hrun Hne.
    assert (He : TileTask_execute task dependencies = MkM tr (Raise e)).
    { by rewrite Hexec, Hrun, bind_MkM_Raise. }
    split; [exact He|].
    unfold _execute_tile_task_wrapper, try_except. rewrite He, bind_MkM_Raise.
    simpl. by rewrite decide_False.
Qed.

(** Dependencies that [_execute] has no input for do not change the
    run: results of tile tasks (keys starting with ["tile_task"]) and
    well-formed keys whose input key none of the task's inputs has are
    passed over without an error, and the user process is called as if
    there were no dependencies at all. *)
Theorem run_process_ignored_dependencies
    (self : TileTask) (dependencies : list (string * TaskInfo)) :
  Forall (fun dep => dependency_ignored (input self) dep.1) dependencies →
  run_process self dependencies = run_process self [].
Proof.
  intros Hdeps. rewrite !run_process_unfold.
  by rewrite (attach_dependencies_ignored _ _ Hdeps).
Qed.


(** A dependency with the key [inp_key:task_key] is attached, under
    the text after the first colon (which may contain further colons),
    to every input whose input key is [inp_key] - to all of them, not
    only the first - and to no other input; the names of the inputs and
    their order are kept, and there is one attachment per matching
    input. *)
Theorem attach_dependency_attaches_all
    (inputs : list (string * InputTile)) (inp_key task_key : string)
    (task_result : TaskInfo) (tr : list Event) (inputs' : list (string * InputTile)) :
  has_colon inp_key = false →
  task_key ≠ EmptyString →
  String.prefix "tile_task" (inp_key +:+ String ":" task_key) = false →
  attach_dependency inputs (inp_key +:+ String ":" task_key, task_result)
    = MkM tr (Ok inputs') →
  Forall2 (fun old new =>
             new.1 = old.1
             ∧ if decide (input_key old.2 = inp_key)
               then set_preprocessing_task_result old.2 task_key
                      (ti_output task_result) = Ok new.2
               else new.2 = old.2)
          inputs inputs'
  ∧ tr = replicate (length (filter (fun old => input_key old.2 = inp_key) inputs))
           (EvSetPreprocessingResult inp_key task_key).
Proof.
  intros Hno Hkey Hprefix. unfold attach_dependency.
  rewrite Hprefix, (split_colon_app _ _ Hno), decide_False by done.
  apply attach_to_inputs_spec.
Qed.

Lemma set_first_input_no_match inputs inp_key inp_task_key result_ :
  (∀ name inp, (name, inp) ∈ inputs → input_key inp ≠ inp_key) →
  set_first_input inputs inp_key inp_task_key result_ = raise KeyError.
Proof.
  induction inputs as [|[name inp] rest IH]; intros Hno; [done|]. simpl.
  rewrite decide_False.
  - rewrite IH; [done|]. intros n i Hin. apply (Hno n). by right.
  - intros ->. by apply (Hno name inp); [left|].
Qed.

Lemma set_first_input_match before name inp after inp_key inp_task_key result_ :
  (∀ n i, (n, i) ∈ before → input_key i ≠ inp_key) →
  input_key inp = inp_key →
  set_first_input (before ++ (name, inp) :: after) inp_key inp_task_key result_
  = MkM [EvSetPreprocessingResult inp_key inp_task_key]
      ((fun inp' => before ++ (name, inp') :: after)
         <$> set_preprocessing_task_result inp inp_task_key result_).
Proof.
  intros Hno Hkey.
  induction before as [|[n i] before IH]; simpl.
  - rewrite decide_True by done. unfold emit. rewrite bind_MkM_Ok.
    by destruct (set_preprocessing_task_result inp inp_task_key result_).
  - rewrite decide_False.
    + rewrite IH.
      * by destruct (set_preprocessing_task_result inp inp_task_key result_).
      * intros n' i' Hin. apply (Hno n'). by right.
    + intros ->. by apply (Hno n i); [left|].
Qed.

(** [TileTask.set_preprocessing_task_result]: a key without a colon
    is a [KeyError], and so is a key whose input key none of the inputs
    has (where [_execute] passes such a dependency over).  Otherwise the
    result is attached to the first input with that key and to no other,
    under the text between the first and the second colon: what follows
    a second colon is dropped (where [_execute] keeps it). *)
Theorem TileTask_set_preprocessing_task_result_spec
    (self : TileTask) (result_ : PyVal Raster) :
  (∀ task_key,
     has_colon task_key = false →
     TileTask_set_preprocessing_task_result self task_key result_
       = MkM [] (Raise KeyError))
  ∧ (∀ inp_key rest,
       has_colon inp_key = false →
       (∀ name inp, (name, inp) ∈ input self → input_key inp ≠ inp_key) →
       TileTask_set_preprocessing_task_result self (inp_key +:+ String ":" rest) result_
         = MkM [] (Raise KeyError))
  ∧ (∀ inp_key inp_task_key before name inp after,
       has_colon inp_key = false →
       has_colon inp_task_key = false →
       input self = before ++ (name, inp) :: after →
       (∀ n i, (n, i) ∈ before → input_key i ≠ inp_key) →
       input_key inp = inp_key →
       TileTask_set_preprocessing_task_result self
         (inp_key +:+ String ":" inp_task_key) result_
         = MkM [EvSetPreprocessingResult inp_key inp_task_key]
             ((fun inp' => before ++ (name, inp') :: after)
                <$> set_preprocessing_task_result inp inp_task_key result_)
       ∧ ∀ dropped,
           TileTask_set_preprocessing_task_result self
             (inp_key +:+ String ":" (inp_task_key +:+ String ":" dropped)) result_
           = TileTask_set_preprocessing_task_result self
               (inp_key +:+ String ":" inp_task_key) result_).
Proof.
  unfold TileTask_set_preprocessing_task_result. split_and!.
  - intros task_key Hno. by rewrite Hno.
  - intros inp_key rest Hno Hnone.
    rewrite has_colon_app, (split_colon_app _ _ Hno).
    destruct (split_colon rest) as [inp_task_key ?].
    by apply set_first_input_no_match.
  - intros inp_key inp_task_key before name inp after Hno Hno' Hinput Hbefore Hkey.
    split.
    + rewrite has_colon_app, (split_colon_app _ _ Hno).
      rewrite (split_colon_no_colon _ Hno'), Hinput.
      by apply set_first_input_match.
    + intros dropped. rewrite !has_colon_app, !(split_colon_app _ _ Hno).
      by rewrite (split_colon_app _ _ Hno'), (split_colon_no_colon _ Hno').
Qed.

Lemma attach_to_inputs_single before name inp after inp_key task_key output :
  (∀ n i, (n, i) ∈ before ++ after → input_key i ≠ inp_key) →
  input_key inp = inp_key →
  attach_to_inputs (before ++ (name, inp) :: after) inp_key task_key output
  = MkM [EvSetPreprocessingResult inp_key task_key]
      ((fun inp' => before ++ (name, inp') :: after)
         <$> set_preprocessing_task_result inp task_key output).
Proof.
  intros Hno Hkey.
  induction before as [|[n i] before IH]; simpl.
  - rewrite decide_True by done. unfold emit. rewrite bind_MkM_Ok.
    rewrite attach_to_inputs_no_match by (intros n i Hin; by apply (Hno n)).
    destruct (set_preprocessing_task_result inp task_key output); simpl; [|done].
    by rewrite bind_MkM_Ok.
  - rewrite decide_False.
    + rewrite bind_mret, IH.
      * by destruct (set_preprocessing_task_result inp task_key output).
      * intros n' i' Hin. apply (Hno n'). by right.
    + apply (Hno n). left.
Qed.

(** The two ways of attaching a preprocessing result agree where a
    key has exactly one colon, a non-empty task key and names exactly one
    input of the task: handing the result to [execute] as a dependency
    does what [set_preprocessing_task_result] does. *)
Theorem attach_dependency_set_preprocessing_task_result
    (self : TileTask) (inp_key task_key : string) (task_result : TaskInfo)
    (before : list (string * InputTile)) (name : string) (inp : InputTile)
    (after : list (string * InputTile)) :
  has_colon inp_key = false →
  has_colon task_key = false →
  task_key ≠ EmptyString →
  String.prefix "tile_task" (inp_key +:+ String ":" task_key) = false →
  input self = before ++ (name, inp) :: after →
  input_key inp = inp_key →
  (∀ n i, (n, i) ∈ before ++ after → input_key i ≠ inp_key) →
  attach_dependency (input self) (inp_key +:+ String ":" task_key, task_result)
  = TileTask_set_preprocessing_task_result self
      (inp_key +:+ String ":" task_key) (ti_output task_result).
Proof.
  intros Hno Hno' Hne Hprefix Hinput Hkey Hothers.
  unfold attach_dependency, TileTask_set_preprocessing_task_result.
  rewrite Hprefix, has_colon_app, (split_colon_app _ _ Hno), decide_False by done.
  rewrite (split_colon_no_colon _ Hno'), Hinput.
  rewrite attach_to_inputs_single by done.
  rewrite set_first_input_match; [done| |done].
  intros n i Hin. apply (Hothers n). apply elem_of_app. by left.
Qed.

(** Whatever the wrapper returns is either the string ["empty"], and then
    [execute] raised no-data, or the [TaskInfo] that [execute] returned:
    it names the task's own tile, is marked processed, carries no id, and
    its output is neither [None] nor ["empty"]; the task's mode is one of
    the three that may run and its zoom is one of the zoom levels. *)
Theorem execute_tile_task_wrapper_result
    (task : TileTask) (dependencies : option (list (string * TaskInfo)))
    (tr : list Event) (res : WrapperResult) :
  _execute_tile_task_wrapper task dependencies = MkM tr (Ok res) →
  (res = WStr "empty"
   ∧ TileTask_execute task dependencies = MkM tr (Raise MapcheteNodataTile))
  ∨ (∃ info,
       res = WInfo info
       ∧ TileTask_execute task dependencies = MkM tr (Ok info)
       ∧ TileTask__execute task (default [] dependencies)
         = MkM tr (Ok (ti_output info))
       ∧ ti_tile info = Some (tile task)
       ∧ ti_processed info = true
       ∧ ti_id info = None
       ∧ ti_output info ≠ VNone
       ∧ ti_output info ≠ VStr "empty"
       ∧ mode_allowed (mode task) = true
       ∧ ∃ zoom_levels,
           config_zoom_levels task = Some zoom_levels
           ∧ zoom (tile task) ∈ zoom_levels).
Proof.
  unfold _execute_tile_task_wrapper, try_except.
  destruct (TileTask_execute task dependencies) as [tr' [info|e]] eqn:Hexec.
  - rewrite bind_MkM_Ok. simpl. rewrite app_nil_r. intros [= <- <-].
    right. exists info. split; [done|]. split; [done|].
    unfold TileTask_execute in Hexec.
    destruct (mode_allowed (mode task)) eqn:Hmode; [|done]. simpl negb in Hexec.
    cbv iota in Hexec.
    destruct (config_zoom_levels task) as [zl|]; [|done].
    rewrite bind_lift_Ok in Hexec.
    destruct (decide (zoom (tile task) ∈ zl)) as [Hin|Hout];
      [rewrite bool_decide_true in Hexec by done
      |by rewrite bool_decide_false in Hexec by done].
    simpl negb in Hexec. cbv iota in Hexec.
    apply M_bind_Ok_inv in Hexec as (tr1 & out & tr2 & Hrun & Hret & ->).
    rewrite Hrun.
    destruct out as [|s|z|r]; [done| | |].
    + destruct (decide (s = "empty")) as [->|Hne]; [done|].
      apply mret_inv in Hret as [-> <-]. rewrite app_nil_r. simpl.
      split_and!; try done; [congruence|by exists zl].
    + apply mret_inv in Hret as [-> <-]. rewrite app_nil_r. simpl.
      split_and!; try done. by exists zl.
    + apply mret_inv in Hret as [-> <-]. rewrite app_nil_r. simpl.
      split_and!; try done. by exists zl.
  - rewrite bind_MkM_Raise. simpl.
    destruct (decide (e = MapcheteNodataTile)) as [->|Hne]; simpl; [|done].
    rewrite app_nil_r. intros [= <- <-]. by left.
Qed.

End tile_task_runs.

(** ** Further properties of batches *)

Section dict_update_facts.
Context {K V : Type} `{EqDecision K}.
Implicit Types (k : K) (v : V) (d kvs : list (K * V)).

Lemma dict_update_app d kvs kvs' :
  dict_update d (kvs ++ kvs') = dict_update (dict_update d kvs) kvs'.
Proof. unfold dict_update. apply foldl_app. Qed.

Lemma dict_update_cons d k v kvs :
  dict_update d ((k, v) :: kvs) = dict_update (dict_set k v d) kvs.
Proof. done. Qed.

Lemma dict_update_get_other d kvs k :
  k ∉ kvs.*1 → dict_get k (dict_update d kvs) = dict_get k d.
Proof.
  revert d. induction kvs as [|[k' v'] kvs IH]; intros d; [done|].
  rewrite dict_update_cons. csimpl. intros [Hne Hin]%not_elem_of_cons.
  rewrite IH by done. by apply dict_get_set_ne.
Qed.

(** In a comprehension the last value given to a key is the one that
    stays. *)
Lemma dict_update_get_last d kvs k v kvs' :
  k ∉ kvs'.*1 → dict_get k (dict_update d (kvs ++ (k, v) :: kvs')) = Some v.
Proof.
  intros Hin. rewrite dict_update_app, dict_update_cons.
  rewrite dict_update_get_other by done. apply dict_get_set_eq.
Qed.

Lemma dict_get_NoDup k v kvs : NoDup kvs.*1 → (k, v) ∈ kvs → dict_get k kvs = Some v.
Proof.
  induction kvs as [|[k' v'] kvs IH]; csimpl; [by intros _ ?%elem_of_nil|].
  intros [Hk Hnd]%NoDup_cons [[= -> ->]|Hin]%elem_of_cons.
  - by rewrite decide_True.
  - rewrite decide_False; [by apply IH|].
    intros ->. apply Hk. by apply (list_elem_of_fmap_2 fst _ (k', v)).
Qed.

(** [d.update(kvs)] for a dictionary [kvs]: the keys of [kvs] get its
    values, the other keys keep theirs. *)
Lemma dict_update_lookup d kvs k :
  NoDup kvs.*1 →
  dict_get k (dict_update d kvs)
  = match dict_get k kvs with Some v => Some v | None => dict_get k d end.
Proof.
  revert d. induction kvs as [|[k' v'] kvs IH]; intros d; [done|].
  rewrite dict_update_cons. csimpl. intros [Hk Hnd]%NoDup_cons.
  rewrite IH by done. destruct (decide (k = k')) as [->|Hne].
  - rewrite (proj2 (dict_get_None_keys k' kvs)) by done. apply dict_get_set_eq.
  - by rewrite dict_get_set_ne by done.
Qed.

Lemma dict_set_same k v d : dict_get k d = Some v → dict_set k v d = d.
Proof.
  induction d as [|[k' v'] d IH]; csimpl; [done|].
  destruct (decide (k = k')) as [->|Hne].
  - by intros [= ->].
  - intros Hget. by rewrite IH.
Qed.

Lemma dict_update_same d kvs :
  (∀ k v, (k, v) ∈ kvs → dict_get k d = Some v) → dict_update d kvs = d.
Proof.
  induction kvs as [|[k v] kvs IH]; intros Hall; [done|].
  rewrite dict_update_cons, dict_set_same by (apply Hall; left).
  apply IH. intros k' v' Hin. apply Hall. by right.
Qed.

Lemma dict_update_idempotent d kvs :
  NoDup kvs.*1 → dict_update (dict_update d kvs) kvs = dict_update d kvs.
Proof.
  intros Hnd. apply dict_update_same. intros k v Hin.
  by rewrite dict_update_lookup, (dict_get_NoDup _ _ _ Hnd Hin).
Qed.

Lemma dict_keys_elem_of_get k d : k ∈ dict_keys d → ∃ v, dict_get k d = Some v.
Proof.
  intros Hin. destruct (dict_get k d) as [v|] eqn:Hget; [by exists v|].
  by apply dict_get_None_keys in Hget.
Qed.

Lemma dict_values_set (P : V → Prop) k v d :
  Forall P (dict_values d) → P v → Forall P (dict_values (dict_set k v d)).
Proof.
  unfold dict_values. intros Hd Hv.
  induction d as [|[k' v'] d IH]; csimpl.
  - by repeat constructor.
  - apply Forall_cons in Hd as [Hv' Hd]. destruct (decide (k = k')); csimpl.
    + by constructor.
    + constructor; [done|by apply IH].
Qed.

End dict_update_facts.

Section batch_more.
Context {T : Types} {W : World}.

Lemma TileTaskBatch_validate_accepts (ts : list TileTask) :
  ∀ tp zoom_,
    (∀ t, t ∈ ts → (∀ p, tp = Some p → buffered_tp (tile t) = p)
                   ∧ (∀ z, zoom_ = Some z → zoom (tile t) = z)) →
    (∀ t1 t2, t1 ∈ ts → t2 ∈ ts →
       zoom (tile t1) = zoom (tile t2)
       ∧ buffered_tp (tile t1) = buffered_tp (tile t2)) →
    ∃ tp' zoom', TileTaskBatch_validate tp zoom_ (ATileTask <$> ts) = Ok (ts, tp', zoom').
Proof.
  induction ts as [|t ts IH]; intros tp zoom_ Hfirst Hsame; csimpl; [by eauto|].
  destruct (Hfirst t) as [Htp Hzoom]; [left|].
  assert (Htp' : (match tp with
                  | None => Ok (buffered_tp (tile t))
                  | Some p => if decide (buffered_tp (tile t) = p) then Ok p
                              else Raise TypeError
                  end) = Ok (buffered_tp (tile t))).
  { destruct tp as [p|]; [|done]. by rewrite decide_True, (Htp p) by auto. }
  assert (Hzoom' : (match zoom_ with
                    | None => Ok (zoom (tile t))
                    | Some z => if decide (zoom (tile t) = z) then Ok z
                                else Raise TypeError
                    end) = Ok (zoom (tile t))).
  { destruct zoom_ as [z|]; [|done]. by rewrite decide_True, (Hzoom z) by auto. }
  rewrite Htp', Hzoom'. csimpl.
  destruct (IH (Some (buffered_tp (tile t))) (Some (zoom (tile t))))
    as (tp' & zoom' & ->).
  - intros t' Hin. destruct (Hsame t' t) as [Hz Hp]; [by right|left|].
    split; [intros p [= <-]|intros z [= <-]]; done.
  - intros t1 t2 H1 H2. apply Hsame; by right.
  - csimpl. by eauto.
Qed.

Lemma TileTaskBatch_validate_TypeError items :
  ∀ tp zoom_ e, TileTaskBatch_validate tp zoom_ items = Raise e → e = TypeError.
Proof.
  induction items as [|[plain|item] items IH]; intros tp zoom_ e; simpl; [done| |].
  - by intros [= <-].
  - destruct tp as [p|]; [destruct (decide (buffered_tp (tile item) = p))|];
      csimpl; try (by intros [= <-]);
      (destruct zoom_ as [z|]; [destruct (decide (zoom (tile item) = z))|];
       csimpl; try (by intros [= <-]);
       (destruct (TileTaskBatch_validate _ _ items) as [[[ys tp''] zoom'']|e'] eqn:Hrec;
        csimpl; [done|]; intros [= <-]; by eapply IH)).
Qed.

Lemma items_all_tile_tasks (items : list AnyTask) :
  (∀ a, a ∈ items → ∃ t, a = ATileTask t) → ∃ ts, items = ATileTask <$> ts.
Proof.
  induction items as [|a items IH]; intros Hall; [by exists []|].
  destruct (Hall a) as [t ->]; [left|].
  destruct IH as [ts ->]; [intros a Ha; apply Hall; by right|].
  by exists (t :: ts).
Qed.

(** The constructor of [TileTaskBatch] accepts exactly the lists
    whose items are all tile tasks of one zoom and one pyramid; every
    other list (a plain task among the items, two zooms, two pyramids)
    and the default [tasks=None] end in a [TypeError], never in another
    error.  Two tasks on the same tile do not fail: the batch is keyed
    by tile and keeps the one given last. *)
Theorem TileTaskBatch_init_accepts
    (uuid : string) (items : list AnyTask) (id : option string)
    (func : option Callable) (fkwargs : option (list (string * PyVal Raster))) :
  ((∃ self, TileTaskBatch_init uuid (Some items) id func fkwargs = Ok self)
   ↔ (∀ a, a ∈ items → ∃ t, a = ATileTask t)
     ∧ (∀ t1 t2, ATileTask t1 ∈ items → ATileTask t2 ∈ items →
          zoom (tile t1) = zoom (tile t2)
          ∧ buffered_tp (tile t1) = buffered_tp (tile t2)))
  ∧ (∀ tasks e, TileTaskBatch_init uuid tasks id func fkwargs = Raise e → e = TypeError)
  ∧ (∀ self earlier t later,
       TileTaskBatch_init uuid (Some items) id func fkwargs = Ok self →
       items = earlier ++ ATileTask t :: later →
       (∀ t', ATileTask t' ∈ later → tile t' ≠ tile t) →
       dict_get (tile t) (ttb_tasks self) = Some t).
Proof.
  split_and!.
  - split.
    + intros [self Hinit].
      pose proof Hinit as Hspec. apply TileTaskBatch_init_spec in Hspec
        as (_ & _ & Hall & _).
      unfold TileTaskBatch_init in Hinit. simpl from_option in Hinit.
      apply result_bind_Ok_inv in Hinit as (items' & [= <-] & Hinit).
      apply result_bind_Ok_inv in Hinit as ([[ys tp] z] & Hv & _).
      apply TileTaskBatch_validate_spec in Hv as (Hys & _). split.
      * intros a Ha. rewrite <-Hys in Ha.
        apply list_elem_of_fmap in Ha as (t & -> & _). by exists t.
      * intros t1 t2 H1 H2.
        destruct (Hall t1 H1) as (Hz1 & Hp1 & _).
        destruct (Hall t2 H2) as (Hz2 & Hp2 & _).
        split; congruence.
    + intros [Htile Hsame].
      destruct (items_all_tile_tasks items Htile) as [ts ->].
      destruct (TileTaskBatch_validate_accepts ts None None) as (tp' & zoom' & Hv).
      * done.
      * intros t1 t2 H1 H2.
        apply Hsame; by apply (list_elem_of_fmap_2 ATileTask).
      * unfold TileTaskBatch_init. simpl from_option.
        change (Ok (ATileTask <$> ts) ≫= ?f) with (f (ATileTask <$> ts)).
        cbv beta. rewrite Hv. csimpl. by eauto.
  - intros tasks e. unfold TileTaskBatch_init.
    destruct tasks as [items'|]; simpl from_option; [|by intros [= <-]].
    change (Ok items' ≫= ?f) with (f items'). cbv beta.
    destruct (TileTaskBatch_validate None None items') as [[[ys tp] z]|e'] eqn:Hv.
    + done.
    + intros [= <-]. by eapply TileTaskBatch_validate_TypeError.
  - intros self earlier t later Hinit -> Hlater.
    unfold TileTaskBatch_init in Hinit. simpl from_option in Hinit.
    apply result_bind_Ok_inv in Hinit as (items' & [= <-] & Hinit).
    apply result_bind_Ok_inv in Hinit as ([[ys tp] z] & Hv & Hinit).
    injection Hinit as <-. simpl.
    apply TileTaskBatch_validate_spec in Hv as (Hys & _).
    assert (∃ ys1 ys2, ys = ys1 ++ t :: ys2 ∧ ATileTask <$> ys2 = later)
      as (ys1 & ys2 & -> & Hys2).
    { apply fmap_app_inv in Hys as (ys1 & ys' & Hys1 & Hys' & ->).
      destruct ys' as [|t' ys2]; csimpl in Hys'; [done|].
      simplify_eq. by exists ys1, ys2. }
    unfold dict_of_list. rewrite fmap_app, fmap_cons.
    apply dict_update_get_last. rewrite <-list_fmap_compose.
    intros (t' & Heq & Hin)%list_elem_of_fmap. simpl in Heq.
    apply (Hlater t'); [|done]. rewrite <-Hys2. by apply list_elem_of_fmap_2.
Qed.

Lemma foldl_min_opt_spec (xs : list Z) :
  ∀ acc,
    match foldl min_opt acc xs with
    | None => acc = None ∧ xs = []
    | Some m =>
        (∀ x, x ∈ xs → m ≤ x) ∧ (∀ a, acc = Some a → m ≤ a)
        ∧ (m ∈ xs ∨ acc = Some m)
    end.
Proof.
  induction xs as [|x xs IH]; intros acc; simpl.
  - destruct acc as [a|]; [|done]. split_and!; [by intros ? ?%elem_of_nil| |by right].
    intros ? [= <-]. lia.
  - specialize (IH (min_opt acc x)).
    destruct (foldl min_opt (min_opt acc x) xs) as [m|]; [|by destruct IH].
    destruct IH as (Hall & Hacc & Hmem).
    specialize (Hacc _ eq_refl). split_and!.
    + intros y [->|Hy]%elem_of_cons; [|by apply Hall]. destruct acc; lia.
    + intros a ->. lia.
    + destruct Hmem as [Hin|[= Hm]]; [left; by right|].
      destruct acc as [a|]; [|left; apply elem_of_cons; left; lia].
      destruct (Z.min_spec a x) as [[_ Hmin]|[_ Hmin]]; rewrite Hmin in Hm.
      * right. by rewrite Hm.
      * left. apply elem_of_cons. left. lia.
Qed.

Lemma foldl_max_opt_spec (xs : list Z) :
  ∀ acc,
    match foldl max_opt acc xs with
    | None => acc = None ∧ xs = []
    | Some m =>
        (∀ x, x ∈ xs → x ≤ m) ∧ (∀ a, acc = Some a → a ≤ m)
        ∧ (m ∈ xs ∨ acc = Some m)
    end.
Proof.
  induction xs as [|x xs IH]; intros acc; simpl.
  - destruct acc as [a|]; [|done]. split_and!; [by intros ? ?%elem_of_nil| |by right].
    intros ? [= <-]. lia.
  - specialize (IH (max_opt acc x)).
    destruct (foldl max_opt (max_opt acc x) xs) as [m|]; [|by destruct IH].
    destruct IH as (Hall & Hacc & Hmem).
    specialize (Hacc _ eq_refl). split_and!.
    + intros y [->|Hy]%elem_of_cons; [|by apply Hall]. destruct acc; lia.
    + intros a ->. lia.
    + destruct Hmem as [Hin|[= Hm]]; [left; by right|].
      destruct acc as [a|]; [|left; apply elem_of_cons; left; lia].
      destruct (Z.max_spec a x) as [[_ Hmax]|[_ Hmax]]; rewrite Hmax in Hm.
      * left. apply elem_of_cons. left. lia.
      * right. by rewrite Hm.
Qed.

(** The loop of [_update_bounds] folds each side on its own. *)
Lemma TileTaskBatch_update_bounds_sides keys :
  TileTaskBatch_update_bounds keys
  = (foldl min_opt None ((fun k => b_left (tile_bounds k)) <$> keys),
     foldl min_opt None ((fun k => b_bottom (tile_bounds k)) <$> keys),
     foldl max_opt None ((fun k => b_right (tile_bounds k)) <$> keys),
     foldl max_opt None ((fun k => b_top (tile_bounds k)) <$> keys)).
Proof.
  unfold TileTaskBatch_update_bounds.
  generalize (@None Z) at 1 5. generalize (@None Z) at 1 4.
  generalize (@None Z) at 1 3. generalize (@None Z).
  induction keys as [|k keys IH]; intros t r b l; csimpl; [done|]. apply IH.
Qed.

(** The bounds of a batch built by the constructor are the envelope
    of its tiles: no bounds at all for an empty batch, and otherwise the
    least left and bottom and the greatest right and top among the tiles
    of its items, so that every tile of the batch lies within them and
    each side is the side of one of the tiles. *)
Theorem TileTaskBatch_bounds_envelope
    (uuid : string) (items : list AnyTask) (id : option string)
    (func : option Callable) (fkwargs : option (list (string * PyVal Raster)))
    (self : TileTaskBatch) :
  TileTaskBatch_init uuid (Some items) id func fkwargs = Ok self →
  (items = [] → ttb_bounds self = (None, None, None, None))
  ∧ (items ≠ [] →
     ∃ l b r t,
       ttb_bounds self = (Some l, Some b, Some r, Some t)
       ∧ (∀ task, ATileTask task ∈ items →
            l ≤ b_left (tile_bounds (tile task))
            ∧ b ≤ b_bottom (tile_bounds (tile task))
            ∧ b_right (tile_bounds (tile task)) ≤ r
            ∧ b_top (tile_bounds (tile task)) ≤ t)
       ∧ (∃ task, ATileTask task ∈ items ∧ b_left (tile_bounds (tile task)) = l)
       ∧ (∃ task, ATileTask task ∈ items ∧ b_bottom (tile_bounds (tile task)) = b)
       ∧ (∃ task, ATileTask task ∈ items ∧ b_right (tile_bounds (tile task)) = r)
       ∧ (∃ task, ATileTask task ∈ items ∧ b_top (tile_bounds (tile task)) = t)).
Proof.
  intros Hinit.
  destruct (TileTaskBatch_init_spec _ _ _ _ _ _ Hinit) as (_ & Hkey & Hitem & Hnil).
  assert (Hbounds : ttb_bounds self
                    = TileTaskBatch_update_bounds (dict_keys (ttb_tasks self))).
  { unfold TileTaskBatch_init in Hinit. simpl from_option in Hinit.
    apply result_bind_Ok_inv in Hinit as (items' & [= <-] & Hinit).
    apply result_bind_Ok_inv in Hinit as ([[ys tp] z] & _ & Hinit).
    by injection Hinit as <-. }
  assert (Hfrom : ∀ (side : Bounds → Z) x,
            x ∈ (fun k => side (tile_bounds k)) <$> dict_keys (ttb_tasks self) →
            ∃ task, ATileTask task ∈ items ∧ side (tile_bounds (tile task)) = x).
  { intros side x (k & -> & Hk)%list_elem_of_fmap.
    apply dict_keys_elem_of_get in Hk as [task Hget].
    destruct (Hkey _ _ Hget) as [<- Hin]. by exists task. }
  assert (Hinto : ∀ (side : Bounds → Z) task,
            ATileTask task ∈ items →
            side (tile_bounds (tile task))
            ∈ (fun k => side (tile_bounds k)) <$> dict_keys (ttb_tasks self)).
  { intros side task Hin. destruct (Hitem _ Hin) as (_ & _ & Hk).
    by apply (list_elem_of_fmap_2 (fun k => side (tile_bounds k))). }
  rewrite Hbounds, TileTaskBatch_update_bounds_sides. split.
  - intros Hempty. destruct (Hnil Hempty) as [_ ->]. done.
  - intros Hne.
    assert (∃ task, ATileTask task ∈ items) as [task0 H0].
    { destruct items as [|[plain|task] items]; [done| |exists task; left].
      unfold TileTaskBatch_init in Hinit. done. }
    pose proof (foldl_min_opt_spec
                  ((fun k => b_left (tile_bounds k)) <$> dict_keys (ttb_tasks self))
                  None) as Hl.
    pose proof (foldl_min_opt_spec
                  ((fun k => b_bottom (tile_bounds k)) <$> dict_keys (ttb_tasks self))
                  None) as Hb.
    pose proof (foldl_max_opt_spec
                  ((fun k => b_right (tile_bounds k)) <$> dict_keys (ttb_tasks self))
                  None) as Hr.
    pose proof (foldl_max_opt_spec
                  ((fun k => b_top (tile_bounds k)) <$> dict_keys (ttb_tasks self))
                  None) as Ht.
    destruct (foldl min_opt None _) as [l|];
      [|destruct Hl as [_ Hl]; pose proof (Hinto b_left task0 H0) as Hin;
        rewrite Hl in Hin; by apply elem_of_nil in Hin].
    destruct (foldl min_opt None _) as [b|];
      [|destruct Hb as [_ Hb]; pose proof (Hinto b_bottom task0 H0) as Hin;
        rewrite Hb in Hin; by apply elem_of_nil in Hin].
    destruct (foldl max_opt None _) as [r|];
      [|destruct Hr as [_ Hr]; pose proof (Hinto b_right task0 H0) as Hin;
        rewrite Hr in Hin; by apply elem_of_nil in Hin].
    destruct (foldl max_opt None _) as [t|];
      [|destruct Ht as [_ Ht]; pose proof (Hinto b_top task0 H0) as Hin;
        rewrite Ht in Hin; by apply elem_of_nil in Hin].
    destruct Hl as (Hl & _ & [Hl'|?]); [|done].
    destruct Hb as (Hb & _ & [Hb'|?]); [|done].
    destruct Hr as (Hr & _ & [Hr'|?]); [|done].
    destruct Ht as (Ht & _ & [Ht'|?]); [|done].
    exists l, b, r, t. split_and!; [done| |by apply Hfrom..].
    intros task Hin. split_and!.
    + apply Hl. by apply (Hinto b_left).
    + apply Hb. by apply (Hinto b_bottom).
    + apply Hr. by apply (Hinto b_right).
    + apply Ht. by apply (Hinto b_top).
Qed.

End batch_more.

Section batch_queries.
Context {T : Types} {W : World}.

Lemma tasks_at_members self tiles a :
  a ∈ ATileTask <$> tasks_at self tiles →
  a ∈ batch_values (BTile self)
  ∧ ∃ t c, a = ATileTask t ∧ c ∈ tiles ∧ dict_get c (ttb_tasks self) = Some t.
Proof.
  intros (t & -> & Hin)%list_elem_of_fmap.
  apply tasks_at_lookup in Hin as (c & Hc & Hget). split; [|by eauto].
  simpl. apply list_elem_of_fmap_2. unfold dict_values.
  apply (list_elem_of_fmap_2 snd _ (c, t)). by apply dict_get_elem_of.
Qed.

Lemma TileTaskBatch_intersection_bounds_members self bounds found a :
  TileTaskBatch_intersection_bounds self bounds = Ok found →
  a ∈ found →
  a ∈ batch_values (BTile self)
  ∧ ∃ t c, a = ATileTask t ∧ dict_get c (ttb_tasks self) = Some t.
Proof.
  unfold TileTaskBatch_intersection_bounds. intros Hrun Hin.
  apply result_bind_Ok_inv in Hrun as (tp & _ & Hrun).
  apply result_bind_Ok_inv in Hrun as (z & _ & Hrun).
  apply result_bind_Ok_inv in Hrun as (tiles & _ & [= <-]).
  apply tasks_at_members in Hin as [Hmem (t & c & -> & _ & Hget)]. by eauto.
Qed.

(** Whatever it is asked with - a tile task, a plain task with
    bounds, a bounds tuple - [TileTaskBatch.intersection] answers with
    tile tasks of the batch itself: every task it returns is stored in
    the batch under some tile.  Asked with a plain task it answers as
    for that task's bounds. *)
Theorem TileTaskBatch_intersection_members
    (self : TileTaskBatch) (other : IntersectionArg) (found : list AnyTask) :
  TileTaskBatch_intersection self other = Ok found →
  (∀ a, a ∈ found →
        a ∈ batch_values (BTile self)
        ∧ ∃ t c, a = ATileTask t ∧ dict_get c (ttb_tasks self) = Some t)
  ∧ (∀ o, other = ArgTask (PlainTask o) →
          ∃ b, task_bounds o = Some b
               ∧ TileTaskBatch_intersection self (ArgBounds (bounds_tuple b)) = Ok found).
Proof.
  intros Hrun. split.
  - intros a Hin. destruct other as [[o|o]|b|v]; simpl in Hrun.
    + destruct (task_bounds o) as [b|]; [|done].
      by eapply TileTaskBatch_intersection_bounds_members.
    + destruct (decide (Some (zoom (tile o) + 1) = ttb_zoom self)); [|done].
      injection Hrun as <-.
      apply tasks_at_members in Hin as [Hmem (t & c & -> & _ & Hget)]. by eauto.
    + by eapply TileTaskBatch_intersection_bounds_members.
    + done.
  - intros o ->. simpl in Hrun. destruct (task_bounds o) as [b|]; [|done].
    by exists b.
Qed.

(** The nodes [to_dask_collection] builds carry their task's names. *)
Lemma convert_tasks_nodes (Q : Delayed → Prop) task_func fkwargs previous_batch :
  ∀ todo tasks tasks',
    convert_tasks task_func fkwargs previous_batch tasks todo = Ok tasks' →
    Forall Q (dict_values tasks) →
    (∀ task dependencies,
       task ∈ todo →
       Q (MkDelayed task_func (task_id (base_task task))
            (bool_decide (0 < length dependencies)%nat)
            task dependencies fkwargs (task_result_key_name (base_task task)))) →
    Forall Q (dict_values tasks').
Proof.
  induction todo as [|task rest IH]; intros tasks tasks' Hrun Hold Hnew; simpl in Hrun.
  - by injection Hrun as <-.
  - apply result_bind_Ok_inv in Hrun as (dependencies & _ & Hrun).
    eapply IH; [exact Hrun| |].
    + apply dict_values_set; [done|]. apply Hnew. left.
    + intros task' deps' Hin. apply Hnew. by right.
Qed.

Lemma convert_batches_nodes (Q : Delayed → Prop)
    preprocessing_task_wrapper tile_task_wrapper :
  ∀ batches previous_batch tasks tasks',
    convert_batches preprocessing_task_wrapper tile_task_wrapper
      previous_batch tasks batches = Ok tasks' →
    Forall Q (dict_values tasks) →
    (∀ batch task dependencies,
       batch ∈ batches → task ∈ batch_values batch →
       Q (MkDelayed
            (task_func_for batch preprocessing_task_wrapper tile_task_wrapper)
            (task_id (base_task task))
            (bool_decide (0 < length dependencies)%nat)
            task dependencies (batch_fkwargs batch)
            (task_result_key_name (base_task task)))) →
    Forall Q (dict_values tasks').
Proof.
  induction batches as [|batch rest IH]; intros previous_batch tasks tasks' Hrun Hold Hnew;
    simpl in Hrun.
  - by injection Hrun as <-.
  - apply result_bind_Ok_inv in Hrun as (tasks1 & Hbatch & Hrun).
    eapply IH; [exact Hrun| |].
    + eapply convert_tasks_nodes; [exact Hbatch|done|].
      intros task deps Hin. apply Hnew; [left|done].
    + intros batch' task deps Hin. apply Hnew. by right.
Qed.

(** Every node of the graph is made for a task of one of the
    batches: it is named after the task's id, its key is the task's
    [result_key_name], it is marked [traverse] exactly when it has
    dependencies, and its function is the one chosen for the task's
    batch - the preprocessing wrapper, if given, for a batch whose id is
    ["preprocessing_tasks"], the tile-task wrapper, if given, for any
    other batch, and the batch's own function otherwise. *)
Theorem to_dask_collection_nodes
    (batches : list Batch)
    (preprocessing_task_wrapper tile_task_wrapper : option Callable)
    (nodes : list Delayed) :
  to_dask_collection batches preprocessing_task_wrapper tile_task_wrapper = Ok nodes →
  ∀ node, node ∈ nodes →
    d_name node = task_id (base_task (d_task node))
    ∧ d_key_name node = task_result_key_name (base_task (d_task node))
    ∧ (d_traverse node = true ↔ d_dependencies node ≠ [])
    ∧ ∃ batch,
        batch ∈ batches
        ∧ d_task node ∈ batch_values batch
        ∧ d_func node
          = (if decide (batch_id batch = "preprocessing_tasks")
             then default (batch_func batch) preprocessing_task_wrapper
             else default (batch_func batch) tile_task_wrapper).
Proof.
  unfold to_dask_collection. intros Hrun.
  apply result_bind_Ok_inv in Hrun as (tasks & Hrun & [= <-]).
  apply Forall_forall.
  eapply convert_batches_nodes; [exact Hrun|constructor|].
  intros batch task deps Hbatch Htask. simpl. split_and!; [done..| |by exists batch].
  rewrite bool_decide_eq_true. destruct deps; simpl; [|split; [done|lia]].
  split; [lia|done].
Qed.

(** The two lists [materialize] fills, read back as batches. *)
Lemma Tasks_materialize_fold (gen : list Batch) :
  ∀ preprocessing tiles,
    let '(preprocessing', tiles') :=
      foldl (fun '(preprocessing, tiles) batch =>
               match batch with
               | BTile b => (preprocessing, tiles ++ [b])
               | BTask b => (preprocessing ++ [b], tiles)
               end)
            (preprocessing, tiles) gen in
    BTask <$> preprocessing'
    = (BTask <$> preprocessing) ++ filter (fun b => ¬ is_tile_batch b) gen
    ∧ BTile <$> tiles' = (BTile <$> tiles) ++ filter (fun b => is_tile_batch b) gen.
Proof.
  induction gen as [|[b|b] gen IH]; intros preprocessing tiles; simpl.
  - by rewrite !app_nil_r.
  - specialize (IH (preprocessing ++ [b]) tiles).
    destruct (foldl _ _ gen) as [preprocessing' tiles'].
    destruct IH as [-> ->]. rewrite fmap_app, <-app_assoc.
    rewrite filter_cons_True by (by intros []). by rewrite filter_cons_False by (by intros H; apply H).
  - specialize (IH preprocessing (tiles ++ [b])).
    destruct (foldl _ _ gen) as [preprocessing' tiles'].
    destruct IH as [-> ->]. rewrite fmap_app, <-app_assoc.
    rewrite filter_cons_False by (by intros H; apply H). by rewrite filter_cons_True by done.
Qed.

Lemma Tasks_materialize_init gen :
  ∃ preprocessing tiles,
    Tasks_materialize (Tasks_init gen)
    = {| _task_batches_generator := [];
         _preprocessing_batches := preprocessing;
         _tile_batches := tiles;
         materialized := true |}
    ∧ BTask <$> preprocessing = filter (fun b => ¬ is_tile_batch b) gen
    ∧ BTile <$> tiles = filter (fun b => is_tile_batch b) gen.
Proof.
  unfold Tasks_materialize, Tasks_init. simpl.
  pose proof (Tasks_materialize_fold gen [] []) as Hfold.
  destruct (foldl _ _ gen) as [preprocessing tiles]. destruct Hfold as [Hp Ht].
  by exists preprocessing, tiles.
Qed.

Lemma Tasks_batches_generator_init gen :
  ∃ self,
    Tasks_batches_generator (Tasks_init gen)
    = (self, filter (fun b => ¬ is_tile_batch b) gen
             ++ filter (fun b => is_tile_batch b) gen)
    ∧ materialized self = true
    ∧ Tasks_materialize self = self
    ∧ (BTask <$> _preprocessing_batches self) ++ (BTile <$> _tile_batches self)
      = filter (fun b => ¬ is_tile_batch b) gen
        ++ filter (fun b => is_tile_batch b) gen.
Proof.
  destruct (Tasks_materialize_init gen) as (preprocessing & tiles & Hm & Hp & Ht).
  exists {| _task_batches_generator := [];
            _preprocessing_batches := preprocessing;
            _tile_batches := tiles;
            materialized := true |}.
  split_and!; [|done|done|simpl; by rewrite Hp, Ht].
  unfold Tasks_batches_generator, Tasks_preprocessing_batches, Tasks_tile_batches.
  rewrite Hm. unfold Tasks_materialize. simpl. by rewrite Hp, Ht.
Qed.

Lemma Tasks_batches_generator_materialized self :
  materialized self = true →
  Tasks_batches_generator self
  = (self, (BTask <$> _preprocessing_batches self) ++ (BTile <$> _tile_batches self)).
Proof.
  destruct self as [gen preprocessing tiles m]. simpl. by intros ->.
Qed.

Lemma filter_phased (preprocessing : list TaskBatch) (tiles : list TileTaskBatch) :
  filter (fun b => ¬ is_tile_batch b) ((BTask <$> preprocessing) ++ (BTile <$> tiles))
    = BTask <$> preprocessing
  ∧ filter (fun b => is_tile_batch b) ((BTask <$> preprocessing) ++ (BTile <$> tiles))
    = BTile <$> tiles.
Proof.
  rewrite !filter_app. split.
  - replace (filter _ (BTile <$> tiles)) with (@nil Batch).
    + rewrite app_nil_r. induction preprocessing as [|b l IH]; [done|]. csimpl.
      rewrite filter_cons_True by (by intros []). by rewrite IH.
    + induction tiles as [|b l IH]; [done|]. csimpl.
      by rewrite filter_cons_False by (by intros H; apply H).
  - replace (filter _ (BTask <$> preprocessing)) with (@nil Batch).
    + induction tiles as [|b l IH]; [done|]. csimpl.
      rewrite filter_cons_True by done. simpl in IH. by rewrite IH.
    + induction preprocessing as [|b l IH]; [done|]. csimpl.
      by rewrite filter_cons_False by (by intros []).
Qed.

(** [Tasks] hands out the batches of its generator in two phases:
    first every batch that is not a [TileTaskBatch], then every
    [TileTaskBatch], each phase in the order of the generator.  No batch
    is lost or repeated; a generator that already yields its
    preprocessing batches first is handed out unchanged, any other is
    reordered. *)
Theorem Tasks_to_batches_phases (gen : list Batch) :
  (Tasks_to_batches (Tasks_init gen)).2
    = filter (fun b => ¬ is_tile_batch b) gen ++ filter (fun b => is_tile_batch b) gen
  ∧ (Tasks_to_batches (Tasks_init gen)).2 ≡ₚ gen
  ∧ (∀ preprocessing tiles,
       gen = (BTask <$> preprocessing) ++ (BTile <$> tiles) →
       (Tasks_to_batches (Tasks_init gen)).2 = gen)
  ∧ (∀ i j b b',
       (Tasks_to_batches (Tasks_init gen)).2 !! i = Some b →
       (Tasks_to_batches (Tasks_init gen)).2 !! j = Some b' →
       is_tile_batch b = true → is_tile_batch b' = false → (j < i)%nat).
Proof.
  unfold Tasks_to_batches.
  destruct (Tasks_batches_generator_init gen) as (self & -> & _). cbn [fst snd].
  split_and!.
  - done.
  - rewrite (comm (++)). apply filter_app_complement.
  - intros preprocessing tiles ->.
    destruct (filter_phased preprocessing tiles) as [-> ->]. done.
  - intros i j b b' Hi Hj Hb Hb'.
    destruct (decide (j < i)%nat) as [|Hge]; [done|exfalso].
    apply lookup_app_Some in Hj as [Hj|[Hlen Hj]].
    + apply lookup_app_Some in Hi as [Hi|[Hlen Hi]].
      * apply list_elem_of_lookup_2, list_elem_of_filter in Hi as [Hi _].
        apply Hi. by rewrite Hb.
      * apply lookup_lt_Some in Hj. lia.
    + apply list_elem_of_lookup_2, list_elem_of_filter in Hj as [Hj _].
      by rewrite Hb' in Hj.
Qed.

Lemma sum_list_batch_len (batches : list Batch) :
  sum_list (batch_len <$> batches) = length (concat (batch_values <$> batches)).
Proof.
  induction batches as [|b batches IH]; [done|]. csimpl.
  by rewrite length_app, IH.
Qed.

Lemma sum_list_filter_split (P : Batch → Prop) `{∀ b, Decision (P b)} batches :
  (sum_list (batch_len <$> filter (fun b => ¬ P b) batches)
   + sum_list (batch_len <$> filter P batches))%nat
  = sum_list (batch_len <$> batches).
Proof.
  induction batches as [|b batches IH]; [done|].
  destruct (decide (P b)) as [Hb|Hb].
  - rewrite filter_cons_False by (by intros Hn; apply Hn).
    rewrite filter_cons_True by done. csimpl. lia.
  - rewrite filter_cons_True by done.
    rewrite filter_cons_False by done. csimpl. lia.
Qed.

(** The generator is drained once.  The object a first call leaves
    behind is materialized, and asking it again - for the batches, the
    flat list of tasks, the length - gives the same answers and changes
    nothing, although the generator is empty by then.  The length is the
    number of tasks of all batches of the generator, which is the number
    of tasks [to_batch] yields. *)
Theorem Tasks_materialized_once (gen : list Batch) :
  let self := (Tasks_to_batches (Tasks_init gen)).1 in
  materialized self = true
  ∧ Tasks_materialize self = self
  ∧ Tasks_to_batches self = Tasks_to_batches (Tasks_init gen)
  ∧ Tasks_to_batch self = Tasks_to_batch (Tasks_init gen)
  ∧ Tasks_len self = Tasks_len (Tasks_init gen)
  ∧ (Tasks_len (Tasks_init gen)).2 = sum_list (batch_len <$> gen)
  ∧ (Tasks_len (Tasks_init gen)).2 = length (Tasks_to_batch (Tasks_init gen)).2.
Proof.
  destruct (Tasks_batches_generator_init gen) as (self0 & Heq & Hm & Hself & Hfields).
  unfold Tasks_to_batch, Tasks_len, Tasks_to_batches. rewrite !Heq. cbn [fst snd].
  rewrite (Tasks_batches_generator_materialized _ Hm), Hfields.
  split_and!; try done.
  - rewrite fmap_app, sum_list_with_app.
    apply (sum_list_filter_split (fun b => is_tile_batch b)).
  - apply sum_list_batch_len.
Qed.

End batch_queries.

(** ** Further properties of tasks and of the job lifecycle *)

Section task_more.
Context {T : Types} {W : World}.

(** [Task.add_dependencies] merges like [dict.update]: a key of
    the new dictionary gets the new result, every other key keeps the
    one it had, and no key is lost or doubled.  Adding the same
    dictionary a second time changes nothing, and neither does adding
    [None]. *)
Theorem Task_add_dependencies_update
    (t : Task) (dependencies : list (string * TaskInfo)) :
  NoDup (dict_keys dependencies) →
  (∀ k, dict_get k (task_dependencies (Task_add_dependencies t (Some dependencies)))
        = match dict_get k dependencies with
          | Some info => Some info
          | None => dict_get k (task_dependencies t)
          end)
  ∧ (∀ k, k ∈ dict_keys (task_dependencies (Task_add_dependencies t (Some dependencies)))
          ↔ k ∈ dict_keys (task_dependencies t) ∨ k ∈ dict_keys dependencies)
  ∧ (NoDup (dict_keys (task_dependencies t)) →
     NoDup (dict_keys (task_dependencies (Task_add_dependencies t (Some dependencies)))))
  ∧ Task_add_dependencies (Task_add_dependencies t (Some dependencies))
      (Some dependencies)
    = Task_add_dependencies t (Some dependencies)
  ∧ task_dependencies (Task_add_dependencies t None) = task_dependencies t.
Proof.
  intros Hnd. unfold Task_add_dependencies. simpl. split_and!.
  - intros k. by apply dict_update_lookup.
  - intros k. apply dict_update_keys.
  - apply dict_update_NoDup.
  - by rewrite dict_update_idempotent.
  - done.
Qed.

(** What [TileTask.__init__] leaves of its arguments [func] and
    [dependencies]: nothing.  [Task.__init__] is called last and without
    them, so a constructed tile task has no function and no
    dependencies whatever was passed, and two constructions that differ
    only in these arguments build the same task.  Its id is the given id
    or else the default id of the tile, its result key is the id followed
    by ["_result"], and it has a geometry exactly when the bounding box of
    its tile is not empty. *)
Theorem TileTask_init_base
    (oid_ : nat) (uuid : string) (t : BufferedTile) (id : option string)
    (config : option MapcheteConfig) (func : option Callable) (skip_ : bool)
    (deps : option (list (string * TaskInfo))) (task : TileTask) :
  TileTask_init oid_ uuid (TileObj t) id config func skip_ deps = Ok task →
  task_func (tt_task task) = None
  ∧ task_dependencies (tt_task task) = []
  ∧ task_fargs (tt_task task) = []
  ∧ (∀ func' deps',
       TileTask_init oid_ uuid (TileObj t) id config func' skip_ deps' = Ok task)
  ∧ task_id (tt_task task) = str_or (Some (str_or id (default_tile_task_id t))) uuid
  ∧ task_result_key_name (tt_task task) = task_id (tt_task task) +:+ "_result"
  ∧ tile task = t
  ∧ Task_has_geometry (tt_task task) = negb (geom_is_empty (tile_bbox t)).
Proof.
  intros Hinit.
  assert (Hbase : ∀ base,
    Task_init oid_ uuid (Some (str_or id (default_tile_task_id t))) None None None
      None None (Some (GShape (tile_bbox t))) None = Ok base →
    task_func base = None ∧ task_dependencies base = [] ∧ task_fargs base = []
    ∧ task_id base = str_or (Some (str_or id (default_tile_task_id t))) uuid
    ∧ task_result_key_name base = task_id base +:+ "_result"
    ∧ Task_has_geometry base = negb (geom_is_empty (tile_bbox t))).
  { unfold Task_init. simpl truthy_list. rewrite andb_false_r.
    simpl truthy_geometry. intros base.
    destruct (geom_is_empty (tile_bbox t)); simpl.
    - by intros [= <-].
    - intros Hb. apply result_bind_Ok_inv in Hb as (g & _ & Hb).
      apply result_bind_Ok_inv in Hb as (b & _ & Hb). by injection Hb as <-. }
  unfold TileTask_init in Hinit. destruct skip_.
  - apply result_bind_Ok_inv in Hinit as (base & Hb & Hinit).
    injection Hinit as <-. simpl.
    destruct (Hbase _ Hb) as (? & ? & ? & ? & ? & ?). split_and!; try done.
    intros func' deps'. unfold TileTask_init. by rewrite Hb.
  - destruct config as [cfg|]; [|done].
    apply result_bind_Ok_inv in Hinit as (base & Hb & Hinit).
    injection Hinit as <-. simpl.
    destruct (Hbase _ Hb) as (? & ? & ? & ? & ? & ?). split_and!; try done.
    intros func' deps'. unfold TileTask_init. by rewrite Hb.
Qed.

End task_more.

Section job_more.
Implicit Types (args : ExecuteArgs) (mp : Mapchete) (told : list Notification).

(** With fewer than minus one retries left the loop condition
    [retries + 1] never becomes false: a job whose attempts keep failing
    is retried for ever. *)
Lemma attempts_never_return args mp :
  ∀ fuel retries_left attempt,
    retries_left < -1 →
    (∀ a, attempt < a → fails_retryably args mp a) →
    attempts fuel args mp retries_left attempt = None.
Proof.
  induction fuel as [|fuel IH]; intros retries_left attempt Hneg Hfail; [done|].
  destruct (Hfail (attempt + 1)) as (Ht & results & e & Hc & He & Hre); [lia|].
  rewrite attempts_unfold, decide_False by lia. rewrite decide_False by done.
  rewrite Hc, He, Hre. rewrite decide_False by lia.
  rewrite IH; [done|lia|]. intros a Ha. apply Hfail. lia.
Qed.

(** Negative values of [retries].  With [retries = -1] the loop
    condition is false at once: the job is parsed and returns, nothing
    is initialized or run.  With [retries] below [-1] the counter moves
    away from the value that would end the loop, so a job whose attempts
    all fail with an exception that is retried never ends: for no bound
    on the number of attempts does [execute] come back. *)
Theorem execute_negative_retries args mp :
  mapchete_open args = Ok mp →
  (retries args = -1 →
   ∀ fuel, execute (S fuel) args = Some ([notify_status parsing], Returned))
  ∧ (retries args < -1 →
     (∀ attempt, 0 < attempt → fails_retryably args mp attempt) →
     ∀ fuel, execute fuel args = None).
Proof.
  intros Hopen. unfold execute. rewrite Hopen. split.
  - intros Hr fuel. rewrite attempts_unfold, Hr. done.
  - intros Hr Hfail fuel. by rewrite attempts_never_return.
Qed.

(** An exception that neither [except] clause matches - with the
    defaults, anything that is not an [Exception], such as a keyboard
    interrupt - leaves [execute] as it is, and the observers are told
    nothing about it: the statuses stop at [running], whatever number of
    retries was left. *)
Theorem execute_unmatched_exception args mp results e fuel :
  mapchete_open args = Ok mp →
  retries args + 1 ≠ 0 →
  total_tasks_of args mp 1 ≠ 0 →
  mp_compute mp 1 = (results, Some e) →
  cancel_on_exception args e = false →
  retry_on_exception args e = false →
  ∃ told,
    execute (S fuel) args = Some (told, Raised e)
    ∧ told = notify_status parsing :: run_notifications args mp (retries args) 1 results
    ∧ statuses told = [parsing; initializing; running].
Proof.
  intros Hopen Hr Ht Hc He Hre.
  exists (notify_status parsing :: run_notifications args mp (retries args) 1 results).
  split_and!; [|done|].
  - unfold execute. rewrite Hopen, attempts_unfold, !decide_False by done.
    change (0 + 1) with 1. by rewrite Hc, He, Hre.
  - change (statuses (?x :: ?l)) with (parsing :: statuses l).
    by rewrite statuses_run.
Qed.

Lemma progresses_task_notifications total_tasks ii results :
  progresses (task_notifications total_tasks ii results)
  = (fun i : nat => {| current := ii + Z.of_nat i; total := Some total_tasks |})
      <$> seq 0 (length results).
Proof.
  revert ii. induction results as [|r results IH]; intros ii; [done|].
  simpl task_notifications. unfold progresses in *. csimpl.
  rewrite IH, <-fmap_S_seq, <-list_fmap_compose. f_equal.
  - f_equal. lia.
  - apply list_fmap_ext. intros _ i _. simpl. f_equal. lia.
Qed.

Lemma task_results_task_notifications total_tasks ii results :
  omap n_task_result (task_notifications total_tasks ii results) = results.
Proof.
  revert ii. induction results as [|r results IH]; intros ii; [done|].
  simpl task_notifications. csimpl. by rewrite IH.
Qed.

Lemma task_results_setup args mp retries_left attempt :
  omap n_task_result (setup_notifications args mp retries_left attempt) = [].
Proof. unfold setup_notifications. by destruct (decide (attempt > 1)). Qed.

Lemma task_notifications_lookup total_tasks ii results i r :
  results !! i = Some r →
  {| n_status := None;
     n_progress := Some {| current := ii + Z.of_nat i; total := Some total_tasks |};
     n_message := None;
     n_task_result := Some r |} ∈ task_notifications total_tasks ii results.
Proof.
  revert ii i. induction results as [|r' results IH]; intros ii i Hi; [done|].
  simpl task_notifications. destruct i as [|i].
  - injection Hi as ->. right. replace (ii + Z.of_nat 0) with ii by lia. left.
  - right. right. replace (ii + Z.of_nat (S i)) with (ii + 1 + Z.of_nat i) by lia.
    by apply IH.
Qed.

(** What the observers of a job that completes at once are told
    about its tasks: after progress [0] of [total], each result the
    executor yields is reported once, in the order in which it arrives,
    together with a progress that counts it - [1], [2], ... of the same
    [total].  The progress never goes back and never skips a result. *)
Theorem execute_reports_every_result args mp results fuel :
  mapchete_open args = Ok mp →
  retries args + 1 ≠ 0 →
  total_tasks_of args mp 1 ≠ 0 →
  mp_compute mp 1 = (results, None) →
  ∃ told,
    execute (S fuel) args = Some (told, Returned)
    ∧ omap n_task_result told = results
    ∧ progresses told
      = (fun i : nat => {| current := Z.of_nat i;
                           total := Some (total_tasks_of args mp 1) |})
          <$> seq 0 (S (length results))
    ∧ (∀ i r, results !! i = Some r →
         {| n_status := None;
            n_progress := Some {| current := Z.of_nat (S i);
                                  total := Some (total_tasks_of args mp 1) |};
            n_message := None;
            n_task_result := Some r |} ∈ told).
Proof.
  intros Hopen Hr Ht Hc.
  exists (notify_status parsing :: run_notifications args mp (retries args) 1 results).
  split_and!.
  - unfold execute. rewrite Hopen.
    by rewrite (attempts_completes fuel args mp (retries args) 0 results).
  - change (omap n_task_result (?x :: ?l)) with (omap n_task_result l).
    unfold run_notifications. rewrite !omap_app, task_results_setup.
    csimpl. apply task_results_task_notifications.
  - change (progresses (?x :: ?l)) with (progresses l).
    unfold run_notifications. rewrite !progresses_app, progresses_setup.
    rewrite progresses_task_notifications. csimpl.
    rewrite <-fmap_S_seq, <-list_fmap_compose.
    f_equal. apply list_fmap_ext. intros _ i _. simpl. f_equal. lia.
  - intros i r Hi. right. unfold run_notifications.
    apply elem_of_app. right. apply elem_of_app. right.
    apply (task_notifications_lookup (total_tasks_of args mp 1) 1) in Hi.
    by replace (1 + Z.of_nat i) with (Z.of_nat (S i)) in Hi by lia.
Qed.

End job_more.

(** ** The further properties on concrete tasks, batches and jobs *)

Section more_examples.
Import Examples.
#[local] Existing Instance Toy.types.
#[local] Existing Instance Toy.world.

(** Membership in a list that is written out, case by case. *)
Ltac in_list H :=
  repeat (apply elem_of_cons in H as [H|H]); [..|by apply elem_of_nil in H].

Ltac by_discrimination := vm_compute; let H := fresh in intros H; discriminate H.


(** A tile of zoom 12 under a configuration for the zooms 8 to 11. *)
Lemma TileTask_init_bindings_witness :
  new_tile_task 9 12 100 200 "continue" = Ok task_12
  ∧ (zoom (tile_at 12 100 200) ∉ cfg_zoom_levels (config "continue"))
  ∧ input task_12 = []
  ∧ _execute_tile_task_wrapper task_12 (Some deps_9) = MkM [] (Ok (WStr "empty")).
Proof.
  assert (Hinit : TileTask_init 9 "0f0e" (TileObj (tile_at 12 100 200)) None
                    (Some (config "continue")) None false None = Ok task_12)
    by by_computation.
  assert (Hout : zoom (tile_at 12 100 200) ∉ cfg_zoom_levels (config "continue")).
  { apply (bool_decide_unpack _). by_computation. }
  assert (Hmode : mode_allowed (Some (cfg_mode (config "continue"))) = true)
    by by_computation.
  destruct (TileTask_init_bindings _ _ _ _ _ _ _ _ Hinit) as [_ Hunbound].
  destruct (Hunbound Hout) as [(Hin & _ & _) Hrun].
  split_and!; [exact Hinit|exact Hout|exact Hin|apply (Hrun Hmode)].
Defined.

(** A process that returns [None], and one that raises. *)
Lemma execute_tile_task_wrapper_errors_witness :
  _execute_tile_task_wrapper task_silent None
  = MkM [EvProcess (tile_at 10 21 40)] (Raise MapcheteProcessOutputError)
  ∧ _execute_tile_task_wrapper task_failing None
    = MkM [EvProcess (tile_at 10 21 40)] (Raise (OtherError "RuntimeError")).
Proof.
  assert (Hmode : mode_allowed (mode task_silent) = true) by by_computation.
  assert (Hzl : config_zoom_levels task_silent = Some [8; 9; 10; 11]) by by_computation.
  assert (Hin : zoom (tile task_silent) ∈ [8; 9; 10; 11]).
  { apply (bool_decide_unpack _). by_computation. }
  assert (Hrun : TileTask__execute task_silent (default [] None)
                 = MkM [EvProcess (tile_at 10 21 40)] (Ok VNone)) by by_computation.
  assert (Hmode' : mode_allowed (mode task_failing) = true) by by_computation.
  assert (Hzl' : config_zoom_levels task_failing = Some [8; 9; 10; 11])
    by by_computation.
  assert (Hin' : zoom (tile task_failing) ∈ [8; 9; 10; 11]).
  { apply (bool_decide_unpack _). by_computation. }
  assert (Hrun' : TileTask__execute task_failing (default [] None)
                  = MkM [EvProcess (tile_at 10 21 40)]
                      (Raise (OtherError "RuntimeError"))) by by_computation.
  split.
  - exact (proj2 (proj1 (execute_tile_task_wrapper_errors task_silent None
                           [8; 9; 10; 11] Hmode Hzl Hin) _ Hrun)).
  - refine (proj2 (proj2 (execute_tile_task_wrapper_errors task_failing None
                            [8; 9; 10; 11] Hmode' Hzl' Hin') _ _ Hrun' _)).
    discriminate.
Defined.

(** The result of a tile task and a preprocessing result for an input
    the task does not have. *)
Lemma run_process_ignored_dependencies_witness :
  run_process task_counting
    [("tile_task_z11-42-80", child_info); ("other:fetch", fetched)]
  = MkM [EvProcess (tile_at 10 21 40)] (Ok (VInt 0)).
Proof.
  assert (Hdeps : Forall (fun dep => dependency_ignored (input task_counting) dep.1)
                    [("tile_task_z11-42-80", child_info); ("other:fetch", fetched)]).
  { constructor; [left; by_computation|].
    constructor; [|constructor]. right. split; [by_discrimination|].
    intros name inp Hin. change (input task_counting) with inputs_3 in Hin.
    unfold inputs_3 in Hin. in_list Hin; injection Hin as -> ->; by_discrimination. }
  rewrite (run_process_ignored_dependencies task_counting _ Hdeps).
  by_computation.
Defined.


(** Two of the three inputs have the key ["src1"]; the task key keeps
    its second colon. *)
Lemma attach_dependency_attaches_all_witness :
  attach_dependency inputs_3 ("src1:fetch:part", fetched)
  = MkM [EvSetPreprocessingResult "src1" "fetch:part";
         EvSetPreprocessingResult "src1" "fetch:part"]
      (Ok [("file1", {| Toy.it_key := "src1";
                        Toy.it_results :=
                          [("fetch:part", VData (Toy.Stored (tile_at 0 0 0)))] |});
           ("file2", {| Toy.it_key := "src2"; Toy.it_results := [] |});
           ("file3", {| Toy.it_key := "src1";
                        Toy.it_results :=
                          [("fetch:part", VData (Toy.Stored (tile_at 0 0 0)))] |})])
  ∧ [EvSetPreprocessingResult "src1" "fetch:part";
     EvSetPreprocessingResult "src1" "fetch:part"]
    = replicate (length (filter (fun old => input_key old.2 = "src1") inputs_3))
        (EvSetPreprocessingResult "src1" "fetch:part").
Proof.
  assert (Hno : has_colon "src1" = false) by by_computation.
  assert (Hkey : "fetch:part" ≠ EmptyString) by discriminate.
  assert (Hprefix : String.prefix "tile_task" ("src1" +:+ String ":" "fetch:part") = false)
    by by_computation.
  assert (Hrun :
    attach_dependency inputs_3 ("src1" +:+ String ":" "fetch:part", fetched)
    = MkM [EvSetPreprocessingResult "src1" "fetch:part";
           EvSetPreprocessingResult "src1" "fetch:part"]
        (Ok [("file1", {| Toy.it_key := "src1";
                          Toy.it_results :=
                            [("fetch:part", VData (Toy.Stored (tile_at 0 0 0)))] |});
             ("file2", {| Toy.it_key := "src2"; Toy.it_results := [] |});
             ("file3", {| Toy.it_key := "src1";
                          Toy.it_results :=
                            [("fetch:part", VData (Toy.Stored (tile_at 0 0 0)))] |})]))
    by by_computation.
  split; [exact Hrun|].
  exact (proj2 (attach_dependency_attaches_all inputs_3 "src1" "fetch:part" fetched
                  _ _ Hno Hkey Hprefix Hrun)).
Defined.

(** The method updates the first input with the key ["src1"] only, and
    refuses what [_execute] passes over. *)
Lemma TileTask_set_preprocessing_task_result_spec_witness :
  TileTask_set_preprocessing_task_result task_counting "src1:fetch"
    (VData (Toy.Stored (tile_at 0 0 0)))
  = MkM [EvSetPreprocessingResult "src1" "fetch"]
      (Ok [("file1", {| Toy.it_key := "src1";
                        Toy.it_results :=
                          [("fetch", VData (Toy.Stored (tile_at 0 0 0)))] |});
           ("file2", {| Toy.it_key := "src2"; Toy.it_results := [] |});
           ("file3", {| Toy.it_key := "src1"; Toy.it_results := [] |})])
  ∧ TileTask_set_preprocessing_task_result task_counting "fetch"
      (VData (Toy.Stored (tile_at 0 0 0)))
    = MkM [] (Raise KeyError)
  ∧ TileTask_set_preprocessing_task_result task_counting "other:fetch"
      (VData (Toy.Stored (tile_at 0 0 0)))
    = MkM [] (Raise KeyError).
Proof.
  destruct (TileTask_set_preprocessing_task_result_spec task_counting
              (VData (Toy.Stored (tile_at 0 0 0)))) as (Hcolon & Hnone & Hfirst).
  split_and!.
  - refine (proj1 (Hfirst "src1" "fetch" [] "file1"
                     {| Toy.it_key := "src1"; Toy.it_results := [] |}
                     [("file2", {| Toy.it_key := "src2"; Toy.it_results := [] |});
                      ("file3", {| Toy.it_key := "src1"; Toy.it_results := [] |})]
                     _ _ _ _ _)); try by_computation.
    intros n i Hin. by apply elem_of_nil in Hin.
  - apply Hcolon. by_computation.
  - apply (Hnone "other" "fetch"); [by_computation|].
    intros name inp Hin. change (input task_counting) with inputs_3 in Hin.
    unfold inputs_3 in Hin. in_list Hin; injection Hin as -> ->; by_discrimination.
Defined.

(** Exactly one input has the key ["src2"]. *)
Lemma attach_dependency_set_preprocessing_task_result_witness :
  attach_dependency (input task_counting) ("src2:fetch", fetched)
  = TileTask_set_preprocessing_task_result task_counting "src2:fetch"
      (ti_output fetched)
  ∧ attach_dependency (input task_counting) ("src2:fetch", fetched)
    = MkM [EvSetPreprocessingResult "src2" "fetch"]
        (Ok [("file1", {| Toy.it_key := "src1"; Toy.it_results := [] |});
             ("file2", {| Toy.it_key := "src2";
                          Toy.it_results :=
                            [("fetch", VData (Toy.Stored (tile_at 0 0 0)))] |});
             ("file3", {| Toy.it_key := "src1"; Toy.it_results := [] |})]).
Proof.
  split; [|by_computation].
  refine (attach_dependency_set_preprocessing_task_result task_counting
            "src2" "fetch" fetched
            [("file1", {| Toy.it_key := "src1"; Toy.it_results := [] |})]
            "file2" {| Toy.it_key := "src2"; Toy.it_results := [] |}
            [("file3", {| Toy.it_key := "src1"; Toy.it_results := [] |})]
            _ _ _ _ _ _ _); try by_computation.
  - discriminate.
  - intros n i Hin. simpl in Hin.
    in_list Hin; injection Hin as -> ->; by_discrimination.
Defined.

(** The four tasks of zoom 10 are accepted; with the task of zoom 9
    among them the constructor fails. *)
Lemma TileTaskBatch_init_accepts_witness :
  new_batch items_10 = Ok batch_10
  ∧ (∀ t1 t2, ATileTask t1 ∈ items_10 → ATileTask t2 ∈ items_10 →
       zoom (tile t1) = zoom (tile t2)
       ∧ buffered_tp (tile t1) = buffered_tp (tile t2))
  ∧ new_batch [ATileTask task_10_tl; ATileTask task_9] = Raise TypeError
  ∧ dict_get (tile_at 10 20 40) (ttb_tasks batch_10) = Some task_10_tl.
Proof.
  assert (Hinit : TileTaskBatch_init "ba7c" (Some items_10) None None None = Ok batch_10)
    by by_computation.
  destruct (TileTaskBatch_init_accepts "ba7c" items_10 None None None)
    as (Hiff & _ & Hlast).
  split_and!.
  - exact Hinit.
  - apply (proj1 Hiff). by exists batch_10.
  - by_computation.
  - apply (Hlast batch_10 [ATileTask task_10_br] task_10_tl
             [ATileTask task_10_bl; ATileTask task_10_tr] Hinit eq_refl).
    intros t' Hin. in_list Hin; injection Hin as ->; by_discrimination.
Defined.

(** The batch of the four tiles below (9, 10, 20): its bounds are the
    bounds of that tile. *)
Lemma TileTaskBatch_bounds_envelope_witness :
  new_batch items_10 = Ok batch_10
  ∧ ttb_bounds batch_10 = (Some 160, Some (-88), Some 168, Some (-80))
  ∧ ∃ l b r t,
      ttb_bounds batch_10 = (Some l, Some b, Some r, Some t)
      ∧ ∀ task, ATileTask task ∈ items_10 →
          l ≤ b_left (tile_bounds (tile task))
          ∧ b ≤ b_bottom (tile_bounds (tile task))
          ∧ b_right (tile_bounds (tile task)) ≤ r
          ∧ b_top (tile_bounds (tile task)) ≤ t.
Proof.
  assert (Hinit : TileTaskBatch_init "ba7c" (Some items_10) None None None = Ok batch_10)
    by by_computation.
  assert (Hne : items_10 ≠ []) by discriminate.
  split_and!; [exact Hinit|by_computation|].
  destruct (proj2 (TileTaskBatch_bounds_envelope _ _ _ _ _ _ Hinit) Hne)
    as (l & b & r & t & Hb & Hall & _).
  by exists l, b, r, t.
Defined.

(** The batch of zoom 10 asked with the bounds of the tile (9, 10, 20). *)
Lemma TileTaskBatch_intersection_members_witness :
  ∃ found,
    TileTaskBatch_intersection batch_10 (ArgBounds [160; -88; 168; -80]) = Ok found
    ∧ length found = 4%nat
    ∧ ∀ a, a ∈ found → a ∈ batch_values (BTile batch_10).
Proof.
  destruct (TileTaskBatch_intersection batch_10 (ArgBounds [160; -88; 168; -80]))
    as [found|e] eqn:Hrun; [|vm_compute in Hrun; discriminate Hrun].
  exists found. split_and!; [done| |].
  - vm_compute in Hrun. injection Hrun as <-. reflexivity.
  - intros a Hin.
    apply (proj1 (TileTaskBatch_intersection_members _ _ _ Hrun) a Hin).
Defined.

(** The graph of the preprocessing task, the four tiles of zoom 10 and
    the tile of zoom 9. *)
Lemma to_dask_collection_nodes_witness :
  to_dask_collection graph_batches None None = Ok graph_nodes
  ∧ length graph_nodes = 6%nat
  ∧ ∀ node, node ∈ graph_nodes →
      d_name node = task_id (base_task (d_task node))
      ∧ d_key_name node = task_result_key_name (base_task (d_task node))
      ∧ (d_traverse node = true ↔ d_dependencies node ≠ []).
Proof.
  assert (Hrun : to_dask_collection graph_batches None None = Ok graph_nodes)
    by by_computation.
  split_and!; [exact Hrun|by_computation|].
  intros node Hin.
  destruct (to_dask_collection_nodes _ _ _ _ Hrun node Hin) as (? & ? & ? & _).
  done.
Defined.

(** A generator that yields the batch of zoom 10 before the
    preprocessing batch is reordered; one in phases is not. *)
Lemma Tasks_to_batches_phases_witness :
  (Tasks_to_batches (Tasks_init interleaved_batches)).2 = graph_batches
  ∧ (Tasks_to_batches (Tasks_init graph_batches)).2 = graph_batches.
Proof.
  split.
  - rewrite (proj1 (Tasks_to_batches_phases interleaved_batches)). by_computation.
  - apply (proj1 (proj2 (proj2 (Tasks_to_batches_phases graph_batches)))
             [preprocessing_batch] [batch_10; batch_9]).
    reflexivity.
Defined.

(** One preprocessing task, four tiles of zoom 10 and one of zoom 9. *)
Lemma Tasks_materialized_once_witness :
  (Tasks_len (Tasks_init interleaved_batches)).2 = 6%nat
  ∧ length (Tasks_to_batch (Tasks_init interleaved_batches)).2 = 6%nat.
Proof.
  pose proof (Tasks_materialized_once interleaved_batches) as H. cbv zeta in H.
  destruct H as (_ & _ & _ & _ & _ & Hsum & Hlen).
  split; [|rewrite <-Hlen]; rewrite Hsum; by_computation.
Defined.

(** Adding [{"a": ..., "b": ...}] to a task that has a dependency
    ["a"]. *)
Lemma Task_add_dependencies_update_witness :
  NoDup (dict_keys [("a", fetched); ("b", child_info)])
  ∧ dict_get "a"
      (task_dependencies
         (Task_add_dependencies
            (Task_add_dependencies preprocessing_task (Some [("a", child_info)]))
            (Some [("a", fetched); ("b", child_info)])))
    = Some fetched
  ∧ dict_keys
      (task_dependencies
         (Task_add_dependencies
            (Task_add_dependencies preprocessing_task (Some [("a", child_info)]))
            (Some [("a", fetched); ("b", child_info)])))
    = ["a"; "b"].
Proof.
  assert (Hnd : NoDup (dict_keys [("a", fetched); ("b", child_info)])).
  { apply (bool_decide_unpack _). by_computation. }
  split_and!; [exact Hnd| |by_computation].
  rewrite (proj1 (Task_add_dependencies_update
                    (Task_add_dependencies preprocessing_task (Some [("a", child_info)]))
                    _ Hnd) "a").
  by_computation.
Defined.

(** The task at (10, 21, 40), built with and without a function and
    dependencies. *)
Lemma TileTask_init_base_witness :
  new_tile_task 1 10 21 40 "continue" = Ok task_10_data
  ∧ task_func (tt_task task_10_data) = None
  ∧ task_id (tt_task task_10_data) = "tile_task_z10-21-40"
  ∧ TileTask_init 1 "0f0e" (TileObj (tile_at 10 21 40)) None
      (Some (config "continue")) (Some execute_task_wrapper_ref) false (Some deps_9)
    = Ok task_10_data.
Proof.
  assert (Hinit : TileTask_init 1 "0f0e" (TileObj (tile_at 10 21 40)) None
                    (Some (config "continue")) None false None = Ok task_10_data)
    by by_computation.
  destruct (TileTask_init_base _ _ _ _ _ _ _ _ _ Hinit) as (Hfunc & _ & _ & Hany & _).
  split_and!; [exact Hinit|exact Hfunc|by_computation|apply Hany].
Defined.

(** The task at (10, 21, 40) computes a raster; the one at (10, 20, 41)
    raises no-data. *)
Lemma execute_tile_task_wrapper_result_witness :
  _execute_tile_task_wrapper task_10_data None
  = MkM [EvProcess (tile_at 10 21 40)]
      (Ok (WInfo {| ti_id := None;
                    ti_output := VData (Toy.Computed (tile_at 10 21 40));
                    ti_processed := true;
                    ti_tile := Some (tile_at 10 21 40) |}))
  ∧ TileTask__execute task_10_data (default [] None)
    = MkM [EvProcess (tile_at 10 21 40)]
        (Ok (VData (Toy.Computed (tile_at 10 21 40))))
  ∧ _execute_tile_task_wrapper task_10_odd None
    = MkM [EvProcess (tile_at 10 20 41)] (Ok (WStr "empty"))
  ∧ TileTask_execute task_10_odd None
    = MkM [EvProcess (tile_at 10 20 41)] (Raise MapcheteNodataTile).
Proof.
  assert (Hdata : _execute_tile_task_wrapper task_10_data None
                  = MkM [EvProcess (tile_at 10 21 40)]
                      (Ok (WInfo {| ti_id := None;
                                    ti_output := VData (Toy.Computed (tile_at 10 21 40));
                                    ti_processed := true;
                                    ti_tile := Some (tile_at 10 21 40) |})))
    by by_computation.
  assert (Hodd : _execute_tile_task_wrapper task_10_odd None
                 = MkM [EvProcess (tile_at 10 20 41)] (Ok (WStr "empty")))
    by by_computation.
  split_and!; [exact Hdata| |exact Hodd|].
  - destruct (execute_tile_task_wrapper_result _ _ _ _ Hdata)
      as [[Hempty _]|(info & Hinfo & _ & Hrun & _)]; [discriminate Hempty|].
    injection Hinfo as <-. exact Hrun.
  - destruct (execute_tile_task_wrapper_result _ _ _ _ Hodd)
      as [[_ Hraise]|(info & Hinfo & _)]; [exact Hraise|discriminate Hinfo].
Defined.

End more_examples.

Section more_job_examples.
Import Examples.

(** [retries = -1] and [retries = -2] on a job whose attempts fail. *)
Lemma execute_negative_retries_witness :
  execute 1 (job (-1) mp_always_fails) = Some ([notify_status parsing], Returned)
  ∧ execute 1000 (job (-2) mp_always_fails) = None.
Proof.
  split.
  - apply (proj1 (execute_negative_retries (job (-1) mp_always_fails)
                    mp_always_fails eq_refl) eq_refl 0%nat).
  - apply (proj2 (execute_negative_retries (job (-2) mp_always_fails)
                    mp_always_fails eq_refl)).
    + simpl. lia.
    + intros attempt _. split; [vm_compute; discriminate|].
      exists [result_1], ValueError. by split_and!.
Defined.

(** A keyboard interrupt after one of three results, with three retries
    left. *)
Lemma execute_unmatched_exception_witness :
  ∃ told,
    execute 1 (job_tiles 3 mp_interrupted) = Some (told, Raised KeyboardInterrupt)
    ∧ statuses told = [parsing; initializing; running].
Proof.
  destruct (execute_unmatched_exception (job_tiles 3 mp_interrupted) mp_interrupted
              [result_1] KeyboardInterrupt 0%nat)
    as (told & Hrun & _ & Hst); try reflexivity; try (vm_compute; discriminate).
  by exists told.
Defined.

(** Three tiles that complete. *)
Lemma execute_reports_every_result_witness :
  ∃ told,
    execute 1 (job_tiles 0 mp_three_tiles) = Some (told, Returned)
    ∧ omap n_task_result told = [result_1; result_2; result_3]
    ∧ progresses told
      = [{| current := 0; total := Some 3 |}; {| current := 1; total := Some 3 |};
         {| current := 2; total := Some 3 |}; {| current := 3; total := Some 3 |}].
Proof.
  destruct (execute_reports_every_result (job_tiles 0 mp_three_tiles) mp_three_tiles
              [result_1; result_2; result_3] 0%nat)
    as (told & Hrun & Hres & Hprog & _); try reflexivity; try (vm_compute; discriminate).
  by exists told.
Defined.

End more_job_examples.
